(** * sup: task construction ([task.go])

    A shallow embedding of [createTasks] and of [TemplateTask.InputForClient]
    from [task.go], and the properties of the task list they produce.

    Conventions of the embedding:
    - Go's [int] is the 64-bit two's complement integer; it is a [Z] and
      every addition the source performs on it goes through [int_wrap].
    - A run of a Go function ends in one of three ways: it returns, it
      returns early with an error ([return nil, err]), or it panics (an
      index or slice expression out of range).  The type [res] keeps the
      three apart.
    - Calls that leave the package (the file system, the template engine,
      the YAML decoder, ...) are answered by a [World]; every such call is
      recorded, with its error if it failed, in the trace of the run.

    The repository holds a second, older text of the same file, in which
    the template is rendered once, without a client, while the tasks are
    built; the upload, script, local and remote sections and the
    partitioning code are the same in both.  The embedding follows
    [task.go]. *)

From Stdlib Require Import ZArith List String Ascii Bool Lia.
From stdpp Require Import gmap strings.
Import ListNotations.
Set Warnings "-register-all".
Local Open Scope string_scope.
Local Open Scope list_scope.
Local Open Scope Z_scope.

(** ** Errors ([github.com/pkg/errors]) *)

(** An error value: a root error with its message, or an error wrapped by
    [errors.Wrap(err, msg)]. *)
Inductive error : Type :=
| ErrNew (msg : string)
| ErrWrap (cause : error) (msg : string).

(** [errors.Wrap] *)
Definition errors_Wrap (err : error) (msg : string) : error := ErrWrap err msg.

(** The [Error()] method: a wrapped error prints as [msg: cause]. *)
Fixpoint Error (e : error) : string :=
  match e with
  | ErrNew msg => msg
  | ErrWrap cause msg => msg +:+ ": " +:+ Error cause
  end.

(** The result of a call that returns [(value, error)]. *)
Inductive result (A : Type) : Type :=
| Ok (a : A)
| Err (e : error).
Arguments Ok {A} a.
Arguments Err {A} e.

(** ** Go integers and slices *)

Definition max_int : Z := 2 ^ 63 - 1.

(** Two's complement wrap-around of a 64-bit [int]. *)
Definition int_wrap (z : Z) : Z := (z + 2 ^ 63) mod 2 ^ 64 - 2 ^ 63.

(** [len(l)] *)
Definition len {A : Type} (l : list A) : Z := Z.of_nat (length l).

(** [l[i:j]]: [None] is the run-time panic "slice bounds out of range". *)
Definition slice {A : Type} (l : list A) (i j : Z) : option (list A) :=
  if (0 <=? i) && (i <=? j) && (j <=? len l)
  then Some (firstn (Z.to_nat (j - i)) (skipn (Z.to_nat i) l))
  else None.

(** [l[0]]: [None] is the run-time panic "index out of range". *)
Definition index0 {A : Type} (l : list A) : option A :=
  match l with
  | [] => None
  | x :: _ => Some x
  end.

(** ** Data model *)

(** Modelled from the spec: the [Upload] struct is declared outside the
    files at hand; [createTasks] reads the fields [Src], [Dst] and [Exc]. *)
Record Upload : Type := {
  upSrc : string;
  upDst : string;
  upExc : string
}.

(** Modelled from the spec: the template part of a command is declared
    outside the files at hand; [createTasks] reads [Src], [Dst], [Vars]. *)
Record TemplateSpec : Type := {
  tplSrc : string;
  tplDst : string;
  tplVars : string
}.

(** Modelled from the spec: the [Command] struct is declared outside the
    files at hand; these are the fields [createTasks] reads. *)
Record Command : Type := {
  cmdUpload : list Upload;
  cmdTemplate : TemplateSpec;
  cmdScript : string;
  cmdLocal : string;
  cmdRun : string;
  cmdOnce : bool;
  cmdSerial : Z;
  cmdStdin : bool
}.

(** Modelled from the spec: of the [Stackup] receiver only the process-wide
    [debug] flag is read. *)
Record Stackup : Type := {
  debug : bool
}.

(** Modelled from the spec: [LocalhostClient] is declared outside the files
    at hand.  [createTasks] sets its [env] field; [lcConn] stands for the
    fields it leaves at their zero value.  The [Connect] method is outside
    the files at hand too: the [World] says what it makes of the client. *)
Record LocalhostClient : Type := {
  lcEnv : string;
  lcConn : option string
}.

(** Modelled from the spec: the [Client] interface is declared outside the
    files at hand.  A client handed in by the caller is an opaque handle
    (the identity of the object behind the interface value); the only
    client [createTasks] builds itself is a [LocalhostClient]. *)
Inductive Client : Type :=
| RemoteClient (handle : nat)
| LocalClient (c : LocalhostClient).

(** An [os.File] opened for reading. *)
Inductive File : Type :=
| FileOf (path : string).

(** The [io.Reader] values that occur as task input. *)
Inductive Reader : Type :=
| TarStream (cwd path exc : string)
| os_Stdin
| BufferPtr (addr : nat).

(** A value decoded from YAML. *)
Inductive Value : Type :=
| VScalar (s : string)
| VSeq (l : list Value)
| VMap (m : list (Value * Value)).

(** [map[string]interface{}] *)
Abbreviation Vars := (gmap string Value).

(** A parsed [*template.Template]. *)
Record Template : Type := {
  tmplName : string;
  tmplText : string
}.

Record CommandTask : Type := {
  run : string;
  input : option Reader;
  clients : list Client;
  tty : bool
}.

Record TemplateTask : Type := {
  tmpl : Template;
  dst : string;
  vars : Vars;
  tclients : list Client
}.

(** The [Task] interface with its two implementations. *)
Inductive Task : Type :=
| TCommand (t : CommandTask)
| TTemplate (t : TemplateTask).

(** ** The world outside the package *)

(** The state of the live objects that a template reaches through the data
    it is executed on (the client behind the interface value, and whatever
    the methods of that client touch), by address.  A state is kept as a
    number. *)
Definition Objects : Type := gmap nat nat.

(** What one call of [Execute] does: the bytes it writes to the writer, the
    error it returns, and the state in which it leaves the live objects (a
    template may call the methods of the client it is executed on). *)
Record Answer : Type := {
  aBytes : string;
  aErr : option error;
  aObjects : Objects
}.

(** What the calls that leave [task.go] answer.  [ResolveLocalPath],
    [NewTarStreamReader], [RemoteTarCommand] and [LocalhostClient.Connect]
    belong to the package but are declared outside the files at hand; the
    others are the standard library, [text/template], [yaml.v2] and
    [shellescape].  [yaml_Unmarshal] is given the bytes and the map to fill,
    as in the source: it never sees the path of the file.
    [template_Execute] is given the state of the live objects and answers
    with the bytes written to the writer, the error, if any, and the state
    in which it leaves the live objects. *)
Record World : Type := {
  os_Getwd : result string;
  ResolveLocalPath : string -> string -> string -> result string;
  NewTarStreamReader : string -> string -> string -> result Reader;
  RemoteTarCommand : string -> string;
  os_Open : string -> result File;
  ioutil_ReadAll : File -> result string;
  template_Parse : string -> string -> result Template;
  template_Execute : Template -> Client -> Vars -> Objects -> Answer;
  yaml_Unmarshal : string -> Vars -> result Vars;
  shellescape_Quote : string -> string;
  LocalhostClient_Connect : LocalhostClient -> string -> LocalhostClient * option error
}.

(** ** Runs *)

(** The call sites that leave the package, each with the path it is about. *)
Inductive call : Type :=
| CGetwd
| CResolveLocalPath (src : string)
| CNewTarStreamReader (src : string)
| COpenTemplate (path : string)
| CReadTemplate (path : string)
| CParseTemplate (path : string)
| COpenVars (path : string)
| CReadVars (path : string)
| CUnmarshalVars (path : string)
| COpenScript (path : string)
| CReadScript (path : string)
| CConnect (host : string).

(** One recorded call: which call, and the error it returned if any. *)
Definition event : Type := call * option error.

(** How a piece of the function body ends. *)
Inductive res (A : Type) : Type :=
| Val (a : A)
| ReturnErr (e : error)
| Panic
| OutOfFuel.
Arguments Val {A} a.
Arguments ReturnErr {A} e.
Arguments Panic {A}.
Arguments OutOfFuel {A}.

Definition M (A : Type) : Type := list event * res A.

Definition ret {A : Type} (a : A) : M A := ([], Val a).

Definition bind {A B : Type} (m : M A) (f : A -> M B) : M B :=
  match m with
  | (t, Val a) => let (t', r) := f a in (t ++ t', r)
  | (t, ReturnErr e) => (t, ReturnErr e)
  | (t, Panic) => (t, Panic)
  | (t, OutOfFuel) => (t, OutOfFuel)
  end.

Notation "'do' x <- m ; k" := (bind m (fun x => k))
  (at level 10, x name, m at level 100, k at level 200).

(** [x, err := f(...); if err != nil { return nil, errors.Wrap(err, msg) }] *)
Definition checked {A : Type} (c : call) (r : result A) (msg : string) : M A :=
  match r with
  | Ok a => ([(c, None)], Val a)
  | Err e => ([(c, Some e)], ReturnErr (errors_Wrap e msg))
  end.

(** [f(...)] with the returned error dropped. *)
Definition unchecked {A : Type} (c : call) (r : A * option error) : M A :=
  ([(c, snd r)], Val (fst r)).

(** A panicking index or slice expression. *)
Definition orPanic {A : Type} (o : option A) : M A :=
  match o with
  | Some a => ret a
  | None => ([], Panic)
  end.

(** What the caller of the Go function sees: [Some (tasks, err)] when the
    function returns, [None] when it does not. *)
Definition go_return {A : Type} (r : res (list A)) : option (list A * option error) :=
  match r with
  | Val ts => Some (ts, None)
  | ReturnErr e => Some ([], Some e)
  | Panic => None
  | OutOfFuel => None
  end.

(** ** Task methods *)

Definition CommandTask_Run (t : CommandTask) : string := run t.
Definition CommandTask_Input (t : CommandTask) : option Reader := input t.
Definition CommandTask_Clients (t : CommandTask) : list Client := clients t.
Definition CommandTask_TTY (t : CommandTask) : bool := tty t.

Definition TemplateTask_Run (w : World) (t : TemplateTask) : string :=
  "cat > " +:+ shellescape_Quote w (dst t).
Definition TemplateTask_Clients (t : TemplateTask) : list Client := tclients t.
Definition TemplateTask_TTY (t : TemplateTask) : bool := false.

Definition Clients (t : Task) : list Client :=
  match t with
  | TCommand c => CommandTask_Clients c
  | TTemplate c => TemplateTask_Clients c
  end.

Definition TTY (t : Task) : bool :=
  match t with
  | TCommand c => CommandTask_TTY c
  | TTemplate c => TemplateTask_TTY c
  end.

Definition Run (w : World) (t : Task) : string :=
  match t with
  | TCommand c => CommandTask_Run c
  | TTemplate c => TemplateTask_Run w c
  end.

(** [task.clients = cs] on a [CommandTask] value. *)
Definition setClients (t : CommandTask) (cs : list Client) : CommandTask :=
  {| run := run t; input := input t; clients := cs; tty := tty t |}.

(** [task.clients = cs] on a [TemplateTask] value. *)
Definition setTClients (t : TemplateTask) (cs : list Client) : TemplateTask :=
  {| tmpl := tmpl t; dst := dst t; vars := vars t; tclients := cs |}.

(** What one call of [InputForClient] leaves behind and hands back. *)
Record Render : Type := {
  rHeap : gmap nat string;
  rObjects : Objects;
  rReader : result Reader
}.

(** [TemplateTask.InputForClient]: the heap maps the address of every
    [bytes.Buffer] to its content.  [var buffer bytes.Buffer] takes a fresh
    address; [Execute] is given the client and the variables of the task,
    writes the rendered bytes to the buffer, and may change the live
    objects. *)
Definition InputForClient (w : World) (t : TemplateTask) (c : Client)
    (h : gmap nat string) (o : Objects) : Render :=
  let buffer := fresh (dom h) in
  let h := <[buffer := ""]> h in
  let a := template_Execute w (tmpl t) c (vars t) o in
  let h := <[buffer := aBytes a]> h in
  match aErr a with
  | Some e => {| rHeap := h; rObjects := aObjects a; rReader := Err e |}
  | None => {| rHeap := h; rObjects := aObjects a; rReader := Ok (BufferPtr buffer) |}
  end.

(** ** The task builder *)

(** [s != ""] *)
Definition nonEmpty (s : string) : bool := negb (String.eqb s "").

(** The double quote character. *)
Definition dquote : string := String (ascii_of_nat 34) EmptyString.

(** The literal [`export SUP_HOST="localhost";`]. *)
Definition exportSupHost : string :=
  "export SUP_HOST=" +:+ dquote +:+ "localhost" +:+ dquote +:+ ";".

(** The loop
    [for i := 0; i < len(clients); i += cmd.Serial {
       j := i + cmd.Serial
       if j > len(clients) { j = len(clients) }
       copy := task; copy.clients = clients[i:j]
       tasks = append(tasks, &copy) }]
    started at [i].  [mk cs] is the fresh [copy] with its clients set to
    [cs].  The fuel bounds the number of iterations. *)
Fixpoint serialLoop (fuel : nat) (serial : Z) (cl : list Client)
    (mk : list Client -> Task) (i : Z) (tasks : list Task) : M (list Task) :=
  if i <? len cl then
    match fuel with
    | O => ([], OutOfFuel)
    | S fuel' =>
        let j := int_wrap (i + serial) in
        let j := if j >? len cl then len cl else j in
        do cs <- orPanic (slice cl i j);
        serialLoop fuel' serial cl mk (int_wrap (i + serial)) (tasks ++ [mk cs])
    end
  else ret tasks.

(** The client partitioning of a command task, as [createTasks] spells it
    out for uploads, the script and the remote command:
    [if cmd.Once { task.clients = []Client{clients[0]}; append }
     else if cmd.Serial > 0 { the serial loop }
     else { task.clients = clients; append }]. *)
Definition appendCommandTask (cmd : Command) (cl : list Client)
    (task : CommandTask) (tasks : list Task) : M (list Task) :=
  if cmdOnce cmd then
    do c0 <- orPanic (index0 cl);
    ret (tasks ++ [TCommand (setClients task [c0])])
  else if cmdSerial cmd >? 0 then
    serialLoop (length cl) (cmdSerial cmd) cl
      (fun cs => TCommand (setClients task cs)) 0 tasks
  else
    ret (tasks ++ [TCommand (setClients task cl)]).

(** The client partitioning of the template task: there is no [cmd.Once]
    branch. *)
Definition appendTemplateTask (cmd : Command) (cl : list Client)
    (task : TemplateTask) (tasks : list Task) : M (list Task) :=
  if cmdSerial cmd >? 0 then
    serialLoop (length cl) (cmdSerial cmd) cl
      (fun cs => TTemplate (setTClients task cs)) 0 tasks
  else
    ret (tasks ++ [TTemplate (setTClients task cl)]).

(** [if sup.debug { task.run = "set -x;" + task.run }] *)
Definition withDebug (sup : Stackup) (task : CommandTask) : CommandTask :=
  if debug sup
  then {| run := "set -x;" +:+ run task; input := input task;
          clients := clients task; tty := tty task |}
  else task.

(** [if cmd.Stdin { task.input = os.Stdin }] *)
Definition withStdin (cmd : Command) (task : CommandTask) : CommandTask :=
  if cmdStdin cmd
  then {| run := run task; input := Some os_Stdin;
          clients := clients task; tty := tty task |}
  else task.

Section Builder.

Variable w : World.
Variable sup : Stackup.
Variable cmd : Command.
Variable cl : list Client.
Variable env : string.

(** [for _, upload := range cmd.Upload { ... }] *)
Fixpoint uploadLoop (cwd : string) (uploads : list Upload) (tasks : list Task)
    : M (list Task) :=
  match uploads with
  | [] => ret tasks
  | upload :: rest =>
      do uploadFile <- checked (CResolveLocalPath (upSrc upload))
                         (ResolveLocalPath w cwd (upSrc upload) env)
                         ("upload: " +:+ upSrc upload);
      do uploadTarReader <- checked (CNewTarStreamReader (upSrc upload))
                         (NewTarStreamReader w cwd uploadFile (upExc upload))
                         ("upload: " +:+ upSrc upload);
      let task := {| run := RemoteTarCommand w (upDst upload);
                     input := Some uploadTarReader;
                     clients := [];
                     tty := false |} in
      do tasks <- appendCommandTask cmd cl task tasks;
      uploadLoop cwd rest tasks
  end.

(** The variable mapping of the template: empty unless a variable file is
    named. *)
Definition loadVars : M Vars :=
  let vars : Vars := ∅ in
  if nonEmpty (tplVars (cmdTemplate cmd)) then
    do varf <- checked (COpenVars (tplVars (cmdTemplate cmd)))
                 (os_Open w (tplVars (cmdTemplate cmd))) "can't read variables";
    do vardata <- checked (CReadVars (tplVars (cmdTemplate cmd)))
                 (ioutil_ReadAll w varf) "can't read variables";
    checked (CUnmarshalVars (tplVars (cmdTemplate cmd)))
      (yaml_Unmarshal w vardata vars) "can't parse variables"
  else ret vars.

(** [if cmd.Template.Src != "" && cmd.Template.Dst != "" { ... }] *)
Definition templateSection (tasks : list Task) : M (list Task) :=
  if nonEmpty (tplSrc (cmdTemplate cmd)) && nonEmpty (tplDst (cmdTemplate cmd)) then
    do f <- checked (COpenTemplate (tplSrc (cmdTemplate cmd)))
              (os_Open w (tplSrc (cmdTemplate cmd))) "can't open template";
    do data <- checked (CReadTemplate (tplSrc (cmdTemplate cmd)))
              (ioutil_ReadAll w f) "can't open template";
    do tmpl <- checked (CParseTemplate (tplSrc (cmdTemplate cmd)))
              (template_Parse w "tpl" data) "can't parse template";
    do vars <- loadVars;
    let task := {| tmpl := tmpl; dst := tplDst (cmdTemplate cmd);
                   vars := vars; tclients := [] |} in
    appendTemplateTask cmd cl task tasks
  else ret tasks.

(** [if cmd.Script != "" { ... }] *)
Definition scriptSection (tasks : list Task) : M (list Task) :=
  if nonEmpty (cmdScript cmd) then
    do f <- checked (COpenScript (cmdScript cmd))
              (os_Open w (cmdScript cmd)) "can't open script";
    do data <- checked (CReadScript (cmdScript cmd))
              (ioutil_ReadAll w f) "can't read script";
    let task := {| run := data; input := None; clients := []; tty := true |} in
    let task := withDebug sup task in
    let task := withStdin cmd task in
    appendCommandTask cmd cl task tasks
  else ret tasks.

(** [if cmd.Local != "" { ... }] *)
Definition localSection (tasks : list Task) : M (list Task) :=
  if nonEmpty (cmdLocal cmd) then
    let local := {| lcEnv := env +:+ exportSupHost; lcConn := None |} in
    do local <- unchecked (CConnect "localhost")
                  (LocalhostClient_Connect w local "localhost");
    let task := {| run := cmdLocal cmd; input := None;
                   clients := [LocalClient local]; tty := true |} in
    let task := withDebug sup task in
    let task := withStdin cmd task in
    ret (tasks ++ [TCommand task])
  else ret tasks.

(** [if cmd.Run != "" { ... }] *)
Definition runSection (tasks : list Task) : M (list Task) :=
  if nonEmpty (cmdRun cmd) then
    let task := {| run := cmdRun cmd; input := None; clients := []; tty := true |} in
    let task := withDebug sup task in
    let task := withStdin cmd task in
    appendCommandTask cmd cl task tasks
  else ret tasks.

(** [func (sup *Stackup) createTasks(cmd *Command, clients []Client, env string)
       ([]Task, error)] *)
Definition createTasks : M (list Task) :=
  let tasks : list Task := [] in
  do cwd <- checked CGetwd (os_Getwd w) "resolving CWD failed";
  do tasks <- uploadLoop cwd (cmdUpload cmd) tasks;
  do tasks <- templateSection tasks;
  do tasks <- scriptSection tasks;
  do tasks <- localSection tasks;
  do tasks <- runSection tasks;
  ret tasks.

End Builder.

(** ** The partitioning policy, stated on its own *)

(** [ceil(L / N)] for [N > 0]. *)
Definition ceilDiv (L N : nat) : nat := ((L + N - 1) / N)%nat.

(** Consecutive chunks of [n] elements, the last one possibly shorter. *)
Fixpoint chunksFuel {A : Type} (fuel n : nat) (l : list A) : list (list A) :=
  match fuel with
  | O => []
  | S fuel' =>
      match l with
      | [] => []
      | _ :: _ => firstn n l :: chunksFuel fuel' n (skipn n l)
      end
  end.

Definition chunks {A : Type} (n : nat) (l : list A) : list (list A) :=
  chunksFuel (length l) n l.

(** The client groups of one task prototype: the first client alone under
    [Once], else chunks of [Serial] clients when [Serial > 0], else the
    whole list.  Under [Once] an empty client list has no first client and
    so no group. *)
Definition clientGroups (once : bool) (serial : Z) (cl : list Client)
    : list (list Client) :=
  if once then
    match cl with
    | [] => []
    | c0 :: _ => [[c0]]
    end
  else if serial >? 0 then chunks (Z.to_nat serial) cl
  else [cl].

(** The tasks of one command-task prototype. *)
Definition expandCommand (cmd : Command) (cl : list Client) (proto : CommandTask)
    : list Task :=
  map (fun cs => TCommand (setClients proto cs))
      (clientGroups (cmdOnce cmd) (cmdSerial cmd) cl).

(** The tasks of the template-task prototype: [Once] is not consulted. *)
Definition expandTemplate (cmd : Command) (cl : list Client) (proto : TemplateTask)
    : list Task :=
  map (fun cs => TTemplate (setTClients proto cs))
      (clientGroups false (cmdSerial cmd) cl).

(** The inputs a Go program can hold: [Serial] is an [int], and a slice of
    interface values has far fewer than [2^62] elements. *)
Definition representable (cmd : Command) (cl : list Client) : Prop :=
  cmdSerial cmd <= max_int /\ len cl <= 2 ^ 62.

(** ** Reading a run *)

(** The calls whose error [createTasks] tests. *)
Definition isChecked (c : call) : bool :=
  match c with
  | CConnect _ => false
  | _ => true
  end.

(** The context [createTasks] wraps around the error of each call site. *)
Definition wrapMsg (c : call) : string :=
  match c with
  | CGetwd => "resolving CWD failed"
  | CResolveLocalPath src => "upload: " +:+ src
  | CNewTarStreamReader src => "upload: " +:+ src
  | COpenTemplate _ => "can't open template"
  | CReadTemplate _ => "can't open template"
  | CParseTemplate _ => "can't parse template"
  | COpenVars _ => "can't read variables"
  | CReadVars _ => "can't read variables"
  | CUnmarshalVars _ => "can't parse variables"
  | COpenScript _ => "can't open script"
  | CReadScript _ => "can't read script"
  | CConnect _ => ""
  end.

(** Some call whose error is tested failed during the run. *)
Definition callFailed (tr : list event) : Prop :=
  exists c e, In (c, Some e) tr /\ isChecked c = true.

(** The run returns; it returns an error only when a tested call failed,
    and otherwise a task list satisfying [P]. *)
Definition yields (m : M (list Task)) (P : list Task -> Prop) : Prop :=
  match m with
  | (tr, Val tasks) => ~ callFailed tr /\ P tasks
  | (tr, ReturnErr _) => callFailed tr
  | (_, Panic) => False
  | (_, OutOfFuel) => False
  end.

(** [s] occurs in [t]. *)
Fixpoint isInfix (s t : string) : bool :=
  String.prefix s t ||
  match t with
  | EmptyString => false
  | String _ t' => isInfix s t'
  end.

(** Two task lists share no client. *)
Definition disjointClients (a b : Task) : Prop :=
  forall c, In c (Clients a) -> ~ In c (Clients b).

(** No client is in two different tasks of the group. *)
Definition pairwiseDisjoint (g : list Task) : Prop :=
  forall i j a b, nth_error g i = Some a -> nth_error g j = Some b ->
                  i <> j -> disjointClients a b.

(** [cs] is a contiguous slice of [cl]. *)
Definition contiguousIn (cs cl : list Client) : Prop :=
  exists pre post, cl = pre ++ cs ++ post.

(** A partial-correctness triple for a piece of the body: a value satisfies
    [Q], a panic happens only under [R], and the fuel never runs out. *)
Definition post {A : Type} (R : Prop) (m : M A) (Q : A -> Prop) : Prop :=
  match m with
  | (_, Val a) => Q a
  | (_, ReturnErr _) => True
  | (_, Panic) => R
  | (_, OutOfFuel) => False
  end.

(** The trace agrees with the way the run ended: an early return comes
    right after the first failed tested call and wraps its error with the
    context of that call site; any other run has no failed tested call. *)
Definition sound {A : Type} (m : M A) : Prop :=
  match m with
  | (tr, ReturnErr e) =>
      exists tr' c e0,
        tr = tr' ++ [(c, Some e0)] /\ isChecked c = true
        /\ e = ErrWrap e0 (wrapMsg c) /\ ~ callFailed tr'
  | (tr, _) => ~ callFailed tr
  end.

(** ** The layout of the returned task list *)

(** The prototype of the script task once the file has been read. *)
Definition scriptProto (sup : Stackup) (cmd : Command) (data : string) : CommandTask :=
  withStdin cmd (withDebug sup
    {| run := data; input := None; clients := []; tty := true |}).

(** The prototype of the remote command task. *)
Definition runProto (sup : Stackup) (cmd : Command) : CommandTask :=
  withStdin cmd (withDebug sup
    {| run := cmdRun cmd; input := None; clients := []; tty := true |}).


(** The implicit localhost client: built with the environment prefix
    followed by the [SUP_HOST] binding, then connected. *)
Definition localhost (w : World) (env : string) : Client :=
  LocalClient (fst (LocalhostClient_Connect w
                      {| lcEnv := env +:+ exportSupHost; lcConn := None |}
                      "localhost")).

(** The local command task. *)
Definition localTask (w : World) (sup : Stackup) (cmd : Command) (env : string)
    : CommandTask :=
  withStdin cmd (withDebug sup
    {| run := cmdLocal cmd; input := None; clients := [localhost w env];
       tty := true |}).

(** [g] is the group of tasks of upload entry [u]. *)
Definition uploadGroup (w : World) (cmd : Command) (cl : list Client)
    (u : Upload) (g : list Task) : Prop :=
  exists rdr,
    g = expandCommand cmd cl
          {| run := RemoteTarCommand w (upDst u); input := Some rdr;
             clients := []; tty := false |}.

(** [T] is the group of template tasks. *)
Definition templateGroup (cmd : Command) (cl : list Client) (T : list Task) : Prop :=
  if nonEmpty (tplSrc (cmdTemplate cmd)) && nonEmpty (tplDst (cmdTemplate cmd))
  then exists t vs,
         T = expandTemplate cmd cl
               {| tmpl := t; dst := tplDst (cmdTemplate cmd); vars := vs;
                  tclients := [] |}
  else T = [].

(** [S] is the group of script tasks. *)
Definition scriptGroup (sup : Stackup) (cmd : Command) (cl : list Client)
    (S : list Task) : Prop :=
  if nonEmpty (cmdScript cmd)
  then exists data, S = expandCommand cmd cl (scriptProto sup cmd data)
  else S = [].

(** The group of the local command: one task or none. *)
Definition localGroup (w : World) (sup : Stackup) (cmd : Command) (env : string)
    : list Task :=
  if nonEmpty (cmdLocal cmd) then [TCommand (localTask w sup cmd env)] else [].

(** The group of remote command tasks. *)
Definition runGroup (sup : Stackup) (cmd : Command) (cl : list Client) : list Task :=
  if nonEmpty (cmdRun cmd) then expandCommand cmd cl (runProto sup cmd) else [].

(** [clients[0]] is evaluated on an empty client list. *)
Definition indexesEmpty (cmd : Command) (cl : list Client) : Prop :=
  cmdOnce cmd = true /\ cl = [].

(** Some sub-kind that goes through the [Once] branch is populated. *)
Definition usesOnceBranch (cmd : Command) : Prop :=
  cmdUpload cmd <> [] \/ nonEmpty (cmdScript cmd) = true
  \/ nonEmpty (cmdRun cmd) = true.

(** The returned list is the upload groups (one per upload entry, in entry
    order), then the template group, the script group, the local group and
    the remote command group. *)
Definition taskLayout (w : World) (sup : Stackup) (cmd : Command)
    (cl : list Client) (env : string) (tasks : list Task) : Prop :=
  exists Us T S,
    tasks = concat Us ++ T ++ S ++ localGroup w sup cmd env ++ runGroup sup cmd cl
    /\ Forall2 (uploadGroup w cmd cl) (cmdUpload cmd) Us
    /\ templateGroup cmd cl T
    /\ scriptGroup sup cmd cl S
    /\ (usesOnceBranch cmd -> ~ indexesEmpty cmd cl).

(** ** Shapes of a group of tasks *)

(** A group of tasks covers the client list [cl] in [ceil(L/n)] batches of
    at most [n] clients, in order and without overlap. *)
Definition serialGroup (n : nat) (cl : list Client) (g : list Task) : Prop :=
  length g = ceilDiv (length cl) n
  /\ Forall (fun t => (length (Clients t) <= n)%nat) g
  /\ concat (map Clients g) = cl
  /\ (List.NoDup cl -> pairwiseDisjoint g).

(** A group of exactly one task, bound to the client [c] alone. *)
Definition onceGroup (c : Client) (g : list Task) : Prop :=
  exists t, g = [t] /\ Clients t = [c].

(** A client set that is not empty and is a contiguous slice of [cl]. *)
Definition sliceOf (cl : list Client) (t : Task) : Prop :=
  Clients t <> [] /\ contiguousIn (Clients t) cl.

Definition isTemplateTask (t : Task) : bool :=
  match t with
  | TTemplate _ => true
  | TCommand _ => false
  end.

(** The template of the command is populated. *)
Definition templatePopulated (cmd : Command) : bool :=
  nonEmpty (tplSrc (cmdTemplate cmd)) && nonEmpty (tplDst (cmdTemplate cmd)).

(** The bytes a call of [InputForClient] hands back, read from the heap it
    leaves behind. *)
Definition renderedBytes (out : Render) : option string :=
  match rReader out with
  | Ok (BufferPtr b) => rHeap out !! b
  | _ => None
  end.

(** What a call must hand back when [Execute] answers [a]: the error of
    [Execute], or a buffer that is not one of [h] and that holds, in the heap
    [h'], the bytes [Execute] wrote. *)
Definition answered (h h' : gmap nat string) (a : Answer) (r : result Reader) : Prop :=
  match aErr a with
  | Some e => r = Err e
  | None => exists b, r = Ok (BufferPtr b) /\ (b ∉ dom h) /\ h' !! b = Some (aBytes a)
  end.

(** Executing the template of the task changes no live object: the
    template calls no method that has an effect. *)
Definition rendersWithoutEffect (w : World) (t : TemplateTask) : Prop :=
  forall c o, aObjects (template_Execute w (tmpl t) c (vars t) o) = o.

(** ** A small world to run the builder in *)

Module Demo.

Definition world : World := {|
  os_Getwd := Ok "/home/op";
  ResolveLocalPath := fun cwd src _ => Ok (cwd +:+ "/" +:+ src);
  NewTarStreamReader := fun cwd path exc => Ok (TarStream cwd path exc);
  RemoteTarCommand := fun d => "tar -C " +:+ d +:+ " -xzf -";
  os_Open := fun path =>
    if String.eqb path "missing"
    then Err (ErrNew "open missing: no such file or directory")
    else Ok (FileOf path);
  ioutil_ReadAll := fun f => match f with FileOf path => Ok ("<" +:+ path +:+ ">") end;
  template_Parse := fun name text =>
    if String.eqb text "<bad.tpl>"
    then Err (ErrNew "template: tpl:1: unexpected {{end}}")
    else Ok {| tmplName := name; tmplText := text |};
  template_Execute := fun t c _ o =>
    match c with
    | RemoteClient h =>
        {| aBytes := tmplText t +:+ "@" +:+ String (ascii_of_nat (48 + h)) EmptyString;
           aErr := None; aObjects := o |}
    | LocalClient _ =>
        {| aBytes := tmplText t +:+ "@localhost"; aErr := None; aObjects := o |}
    end;
  yaml_Unmarshal := fun data vars =>
    if String.eqb data "<bad.yml>"
    then Err (ErrNew "yaml: line 1: did not find expected key")
    else Ok (<[ "data" := VScalar data ]> vars);
  shellescape_Quote := fun s => "'" +:+ s +:+ "'";
  LocalhostClient_Connect := fun c _ =>
    ({| lcEnv := lcEnv c; lcConn := Some "op" |}, None)
|}.

Definition sup : Stackup := {| debug := false |}.

Definition noTemplate : TemplateSpec := {| tplSrc := ""; tplDst := ""; tplVars := "" |}.

(** A command with nothing populated. *)
Definition idle : Command := {|
  cmdUpload := []; cmdTemplate := noTemplate; cmdScript := ""; cmdLocal := "";
  cmdRun := ""; cmdOnce := false; cmdSerial := 0; cmdStdin := false
|}.

Definition up (src d : string) : Upload := {| upSrc := src; upDst := d; upExc := "" |}.

Definition hosts (n : nat) : list Client := map RemoteClient (seq 0 n).

(** Only uploads: two entries. *)
Definition twoUploads (once : bool) (serial : Z) : Command := {|
  cmdUpload := [up "app" "/srv/app"; up "conf" "/etc/app"];
  cmdTemplate := noTemplate; cmdScript := ""; cmdLocal := ""; cmdRun := "";
  cmdOnce := once; cmdSerial := serial; cmdStdin := false
|}.

(** Only a remote command. *)
Definition runOnly (once : bool) (serial : Z) : Command := {|
  cmdUpload := []; cmdTemplate := noTemplate; cmdScript := ""; cmdLocal := "";
  cmdRun := "uptime"; cmdOnce := once; cmdSerial := serial; cmdStdin := false
|}.

(** Every sub-kind populated. *)
Definition full (tpl vars : string) (once : bool) (serial : Z) : Command := {|
  cmdUpload := [up "app" "/srv/app"];
  cmdTemplate := {| tplSrc := tpl; tplDst := "/etc/motd"; tplVars := vars |};
  cmdScript := "deploy.sh"; cmdLocal := "echo hi"; cmdRun := "uptime";
  cmdOnce := once; cmdSerial := serial; cmdStdin := false
|}.

(** Only a template. *)
Definition templateOnly (vars : string) (once : bool) (serial : Z) : Command := {|
  cmdUpload := [];
  cmdTemplate := {| tplSrc := "motd.tpl"; tplDst := "/etc/motd"; tplVars := vars |};
  cmdScript := ""; cmdLocal := ""; cmdRun := "";
  cmdOnce := once; cmdSerial := serial; cmdStdin := false
|}.

(** Only a local command. *)
Definition localOnly (once : bool) (serial : Z) : Command := {|
  cmdUpload := []; cmdTemplate := noTemplate; cmdScript := "";
  cmdLocal := "echo hi"; cmdRun := "";
  cmdOnce := once; cmdSerial := serial; cmdStdin := false
|}.

End Demo.

(** ** Variations of the inputs *)

(** The command with another [Serial]. *)
Definition withSerial (cmd : Command) (serial : Z) : Command := {|
  cmdUpload := cmdUpload cmd; cmdTemplate := cmdTemplate cmd;
  cmdScript := cmdScript cmd; cmdLocal := cmdLocal cmd; cmdRun := cmdRun cmd;
  cmdOnce := cmdOnce cmd; cmdSerial := serial; cmdStdin := cmdStdin cmd
|}.

(** The command with another template part. *)
Definition withTemplate (cmd : Command) (t : TemplateSpec) : Command := {|
  cmdUpload := cmdUpload cmd; cmdTemplate := t;
  cmdScript := cmdScript cmd; cmdLocal := cmdLocal cmd; cmdRun := cmdRun cmd;
  cmdOnce := cmdOnce cmd; cmdSerial := cmdSerial cmd; cmdStdin := cmdStdin cmd
|}.

(** The zero value of the template part. *)
Definition emptyTemplate : TemplateSpec :=
  {| tplSrc := ""; tplDst := ""; tplVars := "" |}.

(** The world in which [Connect] does to the client what it does in [w]
    but returns the error [err]. *)
Definition withConnectError (w : World) (err : option error) : World := {|
  os_Getwd := os_Getwd w;
  ResolveLocalPath := ResolveLocalPath w;
  NewTarStreamReader := NewTarStreamReader w;
  RemoteTarCommand := RemoteTarCommand w;
  os_Open := os_Open w;
  ioutil_ReadAll := ioutil_ReadAll w;
  template_Parse := template_Parse w;
  template_Execute := template_Execute w;
  yaml_Unmarshal := yaml_Unmarshal w;
  shellescape_Quote := shellescape_Quote w;
  LocalhostClient_Connect := fun c host => (fst (LocalhostClient_Connect w c host), err)
|}.

(** ** Further shapes of a group of tasks *)

(** A group of exactly one task, bound to the whole client list. *)
Definition wholeGroup (cl : list Client) (g : list Task) : Prop :=
  exists t, g = [t] /\ Clients t = cl.

(** Every task of the group but the last is bound to exactly [n] clients. *)
Definition fullBatches (n : nat) (g : list Task) : Prop :=
  forall i t, nth_error g i = Some t -> (S i < length g)%nat ->
              length (Clients t) = n.

(** The number of tasks one prototype is copied into. *)
Definition groupCount (once : bool) (serial : Z) (cl : list Client) : nat :=
  if once then 1%nat
  else if serial >? 0 then ceilDiv (length cl) (Z.to_nat serial)
  else 1%nat.

(** [1] for a populated sub-kind, [0] otherwise. *)
Definition count (b : bool) : nat := if b then 1%nat else 0%nat.

(** The shell trace directive in debug mode. *)
Definition debugPrefix (sup : Stackup) : string :=
  if debug sup then "set -x;" else "".

(** The input of a script, local or remote command task. *)
Definition stdinInput (cmd : Command) : option Reader :=
  if cmdStdin cmd then Some os_Stdin else None.

(** The command line of a command task. *)
Definition commandLine (t : Task) : option string :=
  match t with
  | TCommand c => Some (CommandTask_Run c)
  | TTemplate _ => None
  end.

(** The static input of a command task. *)
Definition staticInput (t : Task) : option Reader :=
  match t with
  | TCommand c => CommandTask_Input c
  | TTemplate _ => None
  end.

(** ** The calls of a run *)

(** The calls a run makes for an upload entry. *)
Definition uploadCalls (u : Upload) : list call :=
  [CResolveLocalPath (upSrc u); CNewTarStreamReader (upSrc u)].

(** The calls a run makes for the template. *)
Definition templateCalls (cmd : Command) : list call :=
  if templatePopulated cmd then
    [COpenTemplate (tplSrc (cmdTemplate cmd)); CReadTemplate (tplSrc (cmdTemplate cmd));
     CParseTemplate (tplSrc (cmdTemplate cmd))]
    ++ (if nonEmpty (tplVars (cmdTemplate cmd))
        then [COpenVars (tplVars (cmdTemplate cmd)); CReadVars (tplVars (cmdTemplate cmd));
              CUnmarshalVars (tplVars (cmdTemplate cmd))]
        else [])
  else [].

(** The calls a run makes for the script. *)
Definition scriptCalls (cmd : Command) : list call :=
  if nonEmpty (cmdScript cmd)
  then [COpenScript (cmdScript cmd); CReadScript (cmdScript cmd)]
  else [].

(** The calls a run makes for the local command. *)
Definition localCalls (cmd : Command) : list call :=
  if nonEmpty (cmdLocal cmd) then [CConnect "localhost"] else [].

(** The calls of a run that goes through, in the order they are made. *)
Definition expectedCalls (cmd : Command) : list call :=
  [CGetwd] ++ flat_map uploadCalls (cmdUpload cmd) ++ templateCalls cmd
  ++ scriptCalls cmd ++ localCalls cmd.

(** The calls of the run are [cs] when it goes through, and the first
    calls of [cs] when it does not. *)
Definition calls {A : Type} (m : M A) (cs : list call) : Prop :=
  match m with
  | (tr, Val _) => map fst tr = cs
  | (tr, _) => exists rest, map fst tr ++ rest = cs
  end.

(** ** Where the payload of a task comes from *)

(** [g] is the group of upload entry [u]: the command is the extraction
    command for the destination, the input is the tar stream of the
    resolved source. *)
Definition uploadPayload (w : World) (cmd : Command) (cl : list Client)
    (env cwd : string) (u : Upload) (g : list Task) : Prop :=
  exists path rdr,
    ResolveLocalPath w cwd (upSrc u) env = Ok path
    /\ NewTarStreamReader w cwd path (upExc u) = Ok rdr
    /\ g = expandCommand cmd cl
             {| run := RemoteTarCommand w (upDst u); input := Some rdr;
                clients := []; tty := false |}.

(** [vs] is the variable mapping of the template: what the decoder makes
    of the content of the variable file, starting from the empty mapping;
    the empty mapping when no variable file is named. *)
Definition varsPayload (w : World) (cmd : Command) (vs : Vars) : Prop :=
  if nonEmpty (tplVars (cmdTemplate cmd))
  then exists f data,
         os_Open w (tplVars (cmdTemplate cmd)) = Ok f
         /\ ioutil_ReadAll w f = Ok data
         /\ yaml_Unmarshal w data ∅ = Ok vs
  else vs = ∅.

(** [T] is the template group: the template is the content of the source
    file, parsed under the name [tpl]. *)
Definition templatePayload (w : World) (cmd : Command) (cl : list Client)
    (T : list Task) : Prop :=
  if templatePopulated cmd
  then exists f data tp vs,
         os_Open w (tplSrc (cmdTemplate cmd)) = Ok f
         /\ ioutil_ReadAll w f = Ok data
         /\ template_Parse w "tpl" data = Ok tp
         /\ varsPayload w cmd vs
         /\ T = expandTemplate cmd cl
                  {| tmpl := tp; dst := tplDst (cmdTemplate cmd); vars := vs;
                     tclients := [] |}
  else T = [].

(** [S] is the script group: the command is the content of the script
    file. *)
Definition scriptPayload (w : World) (sup : Stackup) (cmd : Command)
    (cl : list Client) (S : list Task) : Prop :=
  if nonEmpty (cmdScript cmd)
  then exists f data,
         os_Open w (cmdScript cmd) = Ok f
         /\ ioutil_ReadAll w f = Ok data
         /\ S = expandCommand cmd cl (scriptProto sup cmd data)
  else S = [].

(** The layout of the returned list, with the payload of every group. *)
Definition payloadLayout (w : World) (sup : Stackup) (cmd : Command)
    (cl : list Client) (env : string) (tasks : list Task) : Prop :=
  exists cwd Us T S,
    os_Getwd w = Ok cwd
    /\ tasks = concat Us ++ T ++ S ++ localGroup w sup cmd env ++ runGroup sup cmd cl
    /\ Forall2 (uploadPayload w cmd cl env cwd) (cmdUpload cmd) Us
    /\ templatePayload w cmd cl T
    /\ scriptPayload w sup cmd cl S.

(** ** Rendering for one client after the other *)

(** What a run of calls of [InputForClient] leaves behind and hands back. *)
Record Renders : Type := {
  rsHeap : gmap nat string;
  rsObjects : Objects;
  rsReaders : list (result Reader)
}.

(** [InputForClient] called on one task for each client of a list in turn,
    every call on the heap and the live objects the call before left
    behind. *)
Fixpoint renderEach (w : World) (t : TemplateTask) (cs : list Client)
    (h : gmap nat string) (o : Objects) : Renders :=
  match cs with
  | [] => {| rsHeap := h; rsObjects := o; rsReaders := [] |}
  | c :: rest =>
      let r := InputForClient w t c h o in
      let rs := renderEach w t rest (rHeap r) (rObjects r) in
      {| rsHeap := rsHeap rs; rsObjects := rsObjects rs;
         rsReaders := rReader r :: rsReaders rs |}
  end.



(** ** The older text of [createTasks]

    The second file of the repository holds an older text of [task.go].
    Its [createTasks] differs from the one above in the template section
    only: it announces the template on the standard output, renders it once,
    without a client, into one buffer while the tasks are built, and makes
    command tasks that write that buffer to the unquoted destination. *)

(** What the older text asks of the world on top of [World]: [Execute] on
    the [nil] value. *)
Record OldWorld : Type := {
  owBase : World;
  template_ExecuteNil : Template -> string * option error
}.

(** The calls of the older text: those of the newer one, the
    [fmt.Printf] of the template and [Execute]. *)
Inductive oldCall : Type :=
| OCall (c : call)
| OPrintfTemplate (t : TemplateSpec)
| OExecute (path : string).

Definition oldEvent : Type := oldCall * option error.

(** A piece of the older body: it runs on a heap of buffers. *)
Definition MO (A : Type) : Type :=
  gmap nat string -> gmap nat string * list oldEvent * res A.

Definition retO {A : Type} (a : A) : MO A := fun h => (h, [], Val a).

Definition bindO {A B : Type} (m : MO A) (f : A -> MO B) : MO B :=
  fun h =>
    match m h with
    | (h1, t1, Val a) => let '(h2, t2, r) := f a h1 in (h2, t1 ++ t2, r)
    | (h1, t1, ReturnErr e) => (h1, t1, ReturnErr e)
    | (h1, t1, Panic) => (h1, t1, Panic)
    | (h1, t1, OutOfFuel) => (h1, t1, OutOfFuel)
    end.

Notation "'doo' x <- m ; k" := (bindO m (fun x => k))
  (at level 10, x name, m at level 100, k at level 200).

Definition liftEvent (e : event) : oldEvent := (OCall (fst e), snd e).

(** A piece of the body that the two texts share. *)
Definition liftO {A : Type} (m : M A) : MO A :=
  fun h => (h, map liftEvent (fst m), snd m).

(** [var buffer bytes.Buffer] *)
Definition newBuffer : MO nat :=
  fun h => (<[fresh (dom h) := ""]> h, [], Val (fresh (dom h))).

(** [fmt.Printf("Template %v encountered\n", cmd.Template)] *)
Definition printfTemplate (t : TemplateSpec) : MO unit :=
  fun h => (h, [(OPrintfTemplate t, None)], Val tt).

(** [err = tmpl.Execute(&buffer, nil)
     if err != nil { return nil, errors.Wrap(err, msg) }] *)
Definition executeNil (ow : OldWorld) (path : string) (t : Template) (buffer : nat)
    (msg : string) : MO unit :=
  fun h =>
    let '(out, err) := template_ExecuteNil ow t in
    let h := <[buffer := out]> h in
    match err with
    | Some e => (h, [(OExecute path, Some e)], ReturnErr (errors_Wrap e msg))
    | None => (h, [(OExecute path, None)], Val tt)
    end.

(** The client partitioning of the older template task, a command task:
    [if cmd.Serial > 0 { the serial loop }
     else { task.clients = clients; append }]. *)
Definition appendOldTemplateTask (cmd : Command) (cl : list Client)
    (task : CommandTask) (tasks : list Task) : M (list Task) :=
  if cmdSerial cmd >? 0 then
    serialLoop (length cl) (cmdSerial cmd) cl
      (fun cs => TCommand (setClients task cs)) 0 tasks
  else
    ret (tasks ++ [TCommand (setClients task cl)]).

(** The template section of the older text. *)
Definition oldTemplateSection (ow : OldWorld) (cmd : Command) (cl : list Client)
    (tasks : list Task) : MO (list Task) :=
  if nonEmpty (tplSrc (cmdTemplate cmd)) && nonEmpty (tplDst (cmdTemplate cmd)) then
    doo buffer <- newBuffer;
    doo _ <- printfTemplate (cmdTemplate cmd);
    doo f <- liftO (checked (COpenTemplate (tplSrc (cmdTemplate cmd)))
                      (os_Open (owBase ow) (tplSrc (cmdTemplate cmd)))
                      "can't open template");
    doo data <- liftO (checked (CReadTemplate (tplSrc (cmdTemplate cmd)))
                      (ioutil_ReadAll (owBase ow) f) "can't open template");
    doo tmpl <- liftO (checked (CParseTemplate (tplSrc (cmdTemplate cmd)))
                      (template_Parse (owBase ow) "tpl" data) "can't parse template");
    doo _ <- executeNil ow (tplSrc (cmdTemplate cmd)) tmpl buffer "can't parse template";
    let task := {| run := "cat > " +:+ tplDst (cmdTemplate cmd);
                   input := Some (BufferPtr buffer);
                   clients := []; tty := false |} in
    liftO (appendOldTemplateTask cmd cl task tasks)
  else retO tasks.

(** [createTasks] of the older text. *)
Definition oldCreateTasks (ow : OldWorld) (sup : Stackup) (cmd : Command)
    (cl : list Client) (env : string) : MO (list Task) :=
  let tasks : list Task := [] in
  doo cwd <- liftO (checked CGetwd (os_Getwd (owBase ow)) "resolving CWD failed");
  doo tasks <- liftO (uploadLoop (owBase ow) cmd cl env cwd (cmdUpload cmd) tasks);
  doo tasks <- oldTemplateSection ow cmd cl tasks;
  doo tasks <- liftO (scriptSection (owBase ow) sup cmd cl tasks);
  doo tasks <- liftO (localSection (owBase ow) sup cmd env tasks);
  doo tasks <- liftO (runSection sup cmd cl tasks);
  retO tasks.

(** The methods of the older [TemplateTask], which [createTasks] does not
    build. *)
Record OldTemplateTask : Type := {
  otInput : option Reader;
  otClients : list Client
}.

Definition OldTemplateTask_Run (t : OldTemplateTask) : string := "".
Definition OldTemplateTask_Input (t : OldTemplateTask) : option Reader := None.
Definition OldTemplateTask_Clients (t : OldTemplateTask) : list Client := otClients t.
Definition OldTemplateTask_TTY (t : OldTemplateTask) : bool := false.

(** The tasks the older template section makes out of the buffer [b]. *)
Definition oldTemplateTasks (cmd : Command) (cl : list Client) (b : nat) : list Task :=
  map (fun cs => TCommand {| run := "cat > " +:+ tplDst (cmdTemplate cmd);
                             input := Some (BufferPtr b);
                             clients := cs; tty := false |})
      (clientGroups false (cmdSerial cmd) cl).

(** The calls of the older text whose error it tests. *)
Definition oldIsChecked (c : oldCall) : bool :=
  match c with
  | OCall c => isChecked c
  | OPrintfTemplate _ => false
  | OExecute _ => true
  end.

(** The context the older text wraps around the error of each call site. *)
Definition oldWrapMsg (c : oldCall) : string :=
  match c with
  | OCall c => wrapMsg c
  | OPrintfTemplate _ => ""
  | OExecute _ => "can't parse template"
  end.

(** Some call whose error the older text tests failed during the run. *)
Definition oldCallFailed (tr : list oldEvent) : Prop :=
  exists c e, In (c, Some e) tr /\ oldIsChecked c = true.

(** The trace of a run of the older text agrees with the way it ended. *)
Definition soundO {A : Type} (x : gmap nat string * list oldEvent * res A) : Prop :=
  match x with
  | (_, tr, ReturnErr e) =>
      exists tr' c e0,
        tr = tr' ++ [(c, Some e0)] /\ oldIsChecked c = true
        /\ e = ErrWrap e0 (oldWrapMsg c) /\ ~ oldCallFailed tr'
  | (_, tr, _) => ~ oldCallFailed tr
  end.

(** ** More worlds and commands to run the builder in *)

Module Cases.

(** The demo world, except that the upload source [ghost] does not
    resolve. *)
Definition ghostWorld : World := {|
  os_Getwd := os_Getwd Demo.world;
  ResolveLocalPath := fun cwd src env =>
    if String.eqb src "ghost"
    then Err (ErrNew "stat ghost: no such file or directory")
    else ResolveLocalPath Demo.world cwd src env;
  NewTarStreamReader := NewTarStreamReader Demo.world;
  RemoteTarCommand := RemoteTarCommand Demo.world;
  os_Open := os_Open Demo.world;
  ioutil_ReadAll := ioutil_ReadAll Demo.world;
  template_Parse := template_Parse Demo.world;
  template_Execute := template_Execute Demo.world;
  yaml_Unmarshal := yaml_Unmarshal Demo.world;
  shellescape_Quote := shellescape_Quote Demo.world;
  LocalhostClient_Connect := LocalhostClient_Connect Demo.world
|}.

(** Three upload entries, the second of which is [ghost]. *)
Definition threeUploads : Command := {|
  cmdUpload := [Demo.up "app" "/srv/app"; Demo.up "ghost" "/srv/ghost";
                Demo.up "conf" "/etc/app"];
  cmdTemplate := Demo.noTemplate; cmdScript := ""; cmdLocal := ""; cmdRun := "uptime";
  cmdOnce := false; cmdSerial := 0; cmdStdin := false
|}.

(** A script that cannot be opened, then a local and a remote command. *)
Definition missingScript : Command := {|
  cmdUpload := []; cmdTemplate := Demo.noTemplate; cmdScript := "missing";
  cmdLocal := "echo hi"; cmdRun := "uptime"; cmdOnce := false;
  cmdSerial := 0; cmdStdin := false
|}.

(** A template with a source and a variable file but no destination. *)
Definition halfTemplate : Command := {|
  cmdUpload := [];
  cmdTemplate := {| tplSrc := "missing"; tplDst := ""; tplVars := "bad.yml" |};
  cmdScript := ""; cmdLocal := ""; cmdRun := "uptime"; cmdOnce := false;
  cmdSerial := 0; cmdStdin := false
|}.

(** Every sub-kind, with the standard input attached. *)
Definition withInput (serial : Z) : Command := {|
  cmdUpload := [Demo.up "app" "/srv/app"];
  cmdTemplate := {| tplSrc := "motd.tpl"; tplDst := "/etc/motd"; tplVars := "vars.yml" |};
  cmdScript := "deploy.sh"; cmdLocal := "echo hi"; cmdRun := "uptime";
  cmdOnce := false; cmdSerial := serial; cmdStdin := true
|}.

Definition debugging : Stackup := {| debug := true |}.

(** The demo world, except that the template calls a method of the client
    that counts its calls, and prints the count. *)
Definition countingWorld : World := {|
  os_Getwd := os_Getwd Demo.world;
  ResolveLocalPath := ResolveLocalPath Demo.world;
  NewTarStreamReader := NewTarStreamReader Demo.world;
  RemoteTarCommand := RemoteTarCommand Demo.world;
  os_Open := os_Open Demo.world;
  ioutil_ReadAll := ioutil_ReadAll Demo.world;
  template_Parse := template_Parse Demo.world;
  template_Execute := fun t c _ o =>
    match c with
    | RemoteClient h =>
        let n := S (default 0%nat (o !! h)) in
        {| aBytes := "n=" +:+ String (ascii_of_nat (48 + n)) EmptyString;
           aErr := None; aObjects := <[h := n]> o |}
    | LocalClient _ => {| aBytes := "n=0"; aErr := None; aObjects := o |}
    end;
  yaml_Unmarshal := yaml_Unmarshal Demo.world;
  shellescape_Quote := shellescape_Quote Demo.world;
  LocalhostClient_Connect := LocalhostClient_Connect Demo.world
|}.

(** A template task on two clients. *)
Definition motd : TemplateTask :=
  {| tmpl := {| tmplName := "tpl"; tmplText := "motd" |};
     dst := "/etc/motd"; vars := ∅; tclients := Demo.hosts 2 |}.

(** The demo world for the older text; the template [<bad.tpl>] parses
    there but does not render. *)
Definition oldWorld : OldWorld := {|
  owBase := {|
    os_Getwd := os_Getwd Demo.world;
    ResolveLocalPath := ResolveLocalPath Demo.world;
    NewTarStreamReader := NewTarStreamReader Demo.world;
    RemoteTarCommand := RemoteTarCommand Demo.world;
    os_Open := os_Open Demo.world;
    ioutil_ReadAll := ioutil_ReadAll Demo.world;
    template_Parse := fun name text => Ok {| tmplName := name; tmplText := text |};
    template_Execute := template_Execute Demo.world;
    yaml_Unmarshal := yaml_Unmarshal Demo.world;
    shellescape_Quote := shellescape_Quote Demo.world;
    LocalhostClient_Connect := LocalhostClient_Connect Demo.world
  |};
  template_ExecuteNil := fun t =>
    if String.eqb (tmplText t) "<bad.tpl>"
    then ("<", Some (ErrNew "template: tpl:1:3: executing tpl: nil data"))
    else (tmplText t +:+ "@<no value>", None)
|}.

End Cases.

(** * Properties *)

(** ** Integers and slices *)

Lemma int_wrap_id (z : Z) : - 2 ^ 63 <= z <= max_int -> int_wrap z = z.
Proof.
  unfold int_wrap, max_int. intros Hz.
  rewrite Z.mod_small by lia. lia.
Qed.

Lemma len_nonneg {A : Type} (l : list A) : 0 <= len l.
Proof. unfold len. lia. Qed.

Lemma firstn_min {A : Type} (n : nat) (l : list A) :
  firstn (Nat.min n (length l)) l = firstn n l.
Proof.
  destruct (Nat.le_ge_cases n (length l)) as [H|H].
  - now rewrite Nat.min_l.
  - rewrite Nat.min_r by exact H.
    now rewrite !firstn_all2 by lia.
Qed.

(** The slice the loop body takes is the next chunk. *)
Lemma slice_chunk {A : Type} (l : list A) (i s : Z) :
  0 <= i < len l -> 0 < s ->
  slice l i (if i + s >? len l then len l else i + s)
  = Some (firstn (Z.to_nat s) (skipn (Z.to_nat i) l)).
Proof.
  intros Hi Hs. unfold slice.
  assert (Hlen : length (skipn (Z.to_nat i) l) = (length l - Z.to_nat i)%nat)
    by apply length_skipn.
  unfold len in *.
  destruct (i + s >? Z.of_nat (length l)) eqn:E.
  - apply Z.gtb_lt in E.
    replace ((0 <=? i) && (i <=? Z.of_nat (length l))
             && (Z.of_nat (length l) <=? Z.of_nat (length l))) with true
      by (symmetry; rewrite !andb_true_iff, !Z.leb_le; lia).
    f_equal. rewrite <- (firstn_min (Z.to_nat s)).
    f_equal. rewrite Hlen. lia.
  - rewrite Z.gtb_ltb, Z.ltb_ge in E.
    replace ((0 <=? i) && (i <=? i + s) && (i + s <=? Z.of_nat (length l)))
      with true by (symmetry; rewrite !andb_true_iff, !Z.leb_le; lia).
    f_equal. f_equal. lia.
Qed.

(** ** The run monad *)

Lemma bind_ret {A B : Type} (a : A) (f : A -> M B) : bind (ret a) f = f a.
Proof. unfold bind, ret. now destruct (f a). Qed.

Lemma bind_Val {A B : Type} (m : M A) (f : A -> M B) (tr : list event) (b : B) :
  bind m f = (tr, Val b) ->
  exists t1 a t2, m = (t1, Val a) /\ f a = (t2, Val b) /\ tr = t1 ++ t2.
Proof.
  destruct m as [t1 [a|e| |]]; simpl; try discriminate.
  destruct (f a) as [t2 r] eqn:E. intros H. inversion H; subst.
  now exists t1, a, t2.
Qed.

(** ** Chunks *)

Section Chunks.

Context {A : Type}.
Implicit Types (l : list A) (n fuel : nat).

Lemma chunksFuel_concat fuel n l :
  (0 < n)%nat -> (length l <= fuel)%nat -> concat (chunksFuel fuel n l) = l.
Proof.
  intros Hn. revert l. induction fuel as [|fuel IH]; intros l Hl.
  - destruct l; [reflexivity | simpl in Hl; lia].
  - destruct l as [|x l']; [reflexivity|].
    cbn [chunksFuel concat]. rewrite IH.
    + apply firstn_skipn.
    + rewrite length_skipn. simpl in *. lia.
Qed.

Lemma chunksFuel_bounds fuel n l :
  (0 < n)%nat ->
  Forall (fun c => c <> [] /\ (length c <= n)%nat) (chunksFuel fuel n l).
Proof.
  intros Hn. revert l. induction fuel as [|fuel IH]; intros l; [constructor|].
  destruct l as [|x l']; [constructor|].
  cbn [chunksFuel]. constructor; [|apply IH].
  split.
  - destruct n; [lia|]. discriminate.
  - rewrite length_firstn. lia.
Qed.

Lemma ceilDiv_step (L n : nat) :
  (0 < n)%nat -> (0 < L)%nat -> ceilDiv L n = S (ceilDiv (L - n) n).
Proof.
  intros Hn HL. unfold ceilDiv.
  destruct (Nat.le_gt_cases L n) as [H|H].
  - replace (L - n)%nat with 0%nat by lia.
    replace (0 + n - 1)%nat with (n - 1)%nat by lia.
    rewrite (Nat.div_small (n - 1) n) by lia.
    replace (L + n - 1)%nat with ((L - 1) + 1 * n)%nat by lia.
    rewrite Nat.div_add by lia.
    rewrite Nat.div_small by lia. reflexivity.
  - replace (L + n - 1)%nat with ((L - n + n - 1) + 1 * n)%nat by lia.
    rewrite Nat.div_add by lia. lia.
Qed.

Lemma chunksFuel_length fuel n l :
  (0 < n)%nat -> (length l <= fuel)%nat ->
  length (chunksFuel fuel n l) = ceilDiv (length l) n.
Proof.
  intros Hn. revert l. induction fuel as [|fuel IH]; intros l Hl.
  - destruct l; [|simpl in Hl; lia].
    simpl. unfold ceilDiv. simpl. symmetry. apply Nat.div_small. lia.
  - destruct l as [|x l'].
    + simpl. unfold ceilDiv. simpl. symmetry. apply Nat.div_small. lia.
    + cbn [chunksFuel length]. rewrite IH.
      * rewrite length_skipn. symmetry.
        apply (ceilDiv_step (S (length l')) n); lia.
      * rewrite length_skipn. simpl in *. lia.
Qed.

Lemma chunks_concat n l : (0 < n)%nat -> concat (chunks n l) = l.
Proof. intros. apply chunksFuel_concat; [assumption | apply Nat.le_refl]. Qed.

Lemma chunks_bounds n l :
  (0 < n)%nat -> Forall (fun c => c <> [] /\ (length c <= n)%nat) (chunks n l).
Proof. intros. now apply chunksFuel_bounds. Qed.

Lemma chunks_length n l :
  (0 < n)%nat -> length (chunks n l) = ceilDiv (length l) n.
Proof. intros. apply chunksFuel_length; [assumption | apply Nat.le_refl]. Qed.

(** A member of a list of lists is a contiguous part of their
    concatenation. *)
Lemma in_concat_contiguous (ls : list (list A)) (c : list A) :
  In c ls -> exists pre post, concat ls = pre ++ c ++ post.
Proof.
  intros Hin. apply in_split in Hin as (l1 & l2 & ->).
  exists (concat l1), (concat l2).
  now rewrite concat_app.
Qed.

(** The members of a list of lists whose concatenation has no repetition
    are pairwise disjoint. *)
Lemma NoDup_concat_disjoint (ls : list (list A)) :
  List.NoDup (concat ls) ->
  forall i j a b, nth_error ls i = Some a -> nth_error ls j = Some b ->
                  i <> j -> forall x, In x a -> ~ In x b.
Proof.
  induction ls as [|c ls IH]; intros Hnd i j a b Hi Hj Hij x Ha Hb.
  - destruct i; discriminate.
  - simpl in Hnd.
    assert (Hsep : forall y, In y c -> ~ In y (concat ls)).
    { intros y Hy Hy'. revert Hnd y Hy Hy'. clear.
      induction c as [|z c IHc]; intros Hnd y Hy Hy'; [contradiction|].
      simpl in Hnd. inversion Hnd as [|? ? Hz Hnd']; subst.
      destruct Hy as [->|Hy].
      - apply Hz. apply in_or_app. now right.
      - now apply (IHc Hnd' y). }
    assert (Hrest : List.NoDup (concat ls)).
    { revert Hnd. clear. induction c as [|z c IHc]; simpl; intros Hnd; [assumption|].
      inversion Hnd; subst. now apply IHc. }
    assert (Hmem : forall k d, nth_error ls k = Some d -> In x d -> In x (concat ls)).
    { intros k d Hk Hd. apply in_concat. exists d. split; [|assumption].
      eapply nth_error_In; eassumption. }
    destruct i as [|i], j as [|j]; simpl in Hi, Hj.
    + congruence.
    + inversion Hi; subst. apply (Hsep x Ha). eapply Hmem; eassumption.
    + inversion Hj; subst. apply (Hsep x Hb). eapply Hmem; eassumption.
    + apply (IH Hrest i j a b Hi Hj) with (x := x); [congruence | assumption | assumption].
Qed.

End Chunks.

(** ** The serial loop *)

Lemma serialLoop_chunks (fuel : nat) (serial : Z) (cl : list Client)
    (mk : list Client -> Task) :
  0 < serial <= max_int -> len cl <= 2 ^ 62 ->
  forall (i : Z) (tasks : list Task),
    0 <= i -> i = 0 \/ serial <= i ->
    (length (skipn (Z.to_nat i) cl) <= fuel)%nat ->
    serialLoop fuel serial cl mk i tasks
    = ret (tasks ++ map mk (chunksFuel fuel (Z.to_nat serial) (skipn (Z.to_nat i) cl))).
Proof.
  intros Hs Hcl. induction fuel as [|fuel IH]; intros i tasks Hi Hmul Hfuel.
  - rewrite length_skipn in Hfuel. cbn [serialLoop chunksFuel map].
    replace (i <? len cl) with false
      by (symmetry; apply Z.ltb_ge; unfold len; lia).
    now rewrite app_nil_r.
  - cbn [serialLoop]. destruct (i <? len cl) eqn:E.
    + apply Z.ltb_lt in E.
      assert (Hw : int_wrap (i + serial) = i + serial).
      { apply int_wrap_id. unfold max_int in *. lia. }
      rewrite Hw, slice_chunk by lia.
      cbn [orPanic]. rewrite bind_ret.
      assert (Hrest : skipn (Z.to_nat i) cl <> []).
      { intros Hnil. apply (f_equal (@length Client)) in Hnil.
        rewrite length_skipn in Hnil. unfold len in E. simpl in Hnil. lia. }
      rewrite IH.
      * rewrite <- app_assoc.
        destruct (skipn (Z.to_nat i) cl) as [|x r] eqn:Er; [congruence|].
        cbn [chunksFuel map app]. rewrite <- Er, skipn_skipn.
        replace (Z.to_nat serial + Z.to_nat i)%nat with (Z.to_nat (i + serial)) by lia.
        reflexivity.
      * lia.
      * right. lia.
      * rewrite length_skipn in *. unfold len in E. lia.
    + apply Z.ltb_ge in E.
      rewrite skipn_all2 by (unfold len in E; lia).
      cbn [chunksFuel map]. now rewrite app_nil_r.
Qed.

Lemma serialLoop_from_zero (cmd : Command) (cl : list Client)
    (mk : list Client -> Task) (tasks : list Task) :
  representable cmd cl -> 0 < cmdSerial cmd ->
  serialLoop (length cl) (cmdSerial cmd) cl mk 0 tasks
  = ret (tasks ++ map mk (chunks (Z.to_nat (cmdSerial cmd)) cl)).
Proof.
  intros [Hs Hl] Hpos.
  rewrite serialLoop_chunks; [reflexivity | lia | lia | lia | now left | ].
  change (Z.to_nat 0) with 0%nat. rewrite skipn_O. apply Nat.le_refl.
Qed.

Lemma appendCommandTask_spec (cmd : Command) (cl : list Client)
    (task : CommandTask) (tasks : list Task) :
  representable cmd cl ->
  appendCommandTask cmd cl task tasks
  = if cmdOnce cmd && match cl with [] => true | _ => false end
    then ([], Panic)
    else ret (tasks ++ expandCommand cmd cl task).
Proof.
  intros Hrep. unfold appendCommandTask, expandCommand, clientGroups.
  destruct (cmdOnce cmd).
  - destruct cl; reflexivity.
  - cbn [andb]. destruct (cmdSerial cmd >? 0) eqn:E; [|reflexivity].
    apply serialLoop_from_zero; [assumption | lia].
Qed.

Lemma appendTemplateTask_spec (cmd : Command) (cl : list Client)
    (task : TemplateTask) (tasks : list Task) :
  representable cmd cl ->
  appendTemplateTask cmd cl task tasks = ret (tasks ++ expandTemplate cmd cl task).
Proof.
  intros Hrep. unfold appendTemplateTask, expandTemplate, clientGroups.
  destruct (cmdSerial cmd >? 0) eqn:E; [|reflexivity].
  apply serialLoop_from_zero; [assumption | lia].
Qed.

(** ** Traces *)

Lemma callFailed_nil : ~ callFailed [].
Proof. intros (c & e & H & _). contradiction. Qed.

Lemma callFailed_app (t1 t2 : list event) :
  callFailed (t1 ++ t2) <-> callFailed t1 \/ callFailed t2.
Proof.
  unfold callFailed. split.
  - intros (c & e & Hin & Hc). apply in_app_or in Hin as [Hin|Hin];
      [left | right]; eauto.
  - intros [(c & e & Hin & Hc)|(c & e & Hin & Hc)];
      exists c, e; (split; [apply in_or_app; auto | assumption]).
Qed.

Lemma sound_ret {A : Type} (a : A) : sound (ret a).
Proof. exact callFailed_nil. Qed.

Lemma sound_orPanic {A : Type} (o : option A) : sound (orPanic o).
Proof. destruct o; exact callFailed_nil. Qed.

Lemma sound_checked {A : Type} (c : call) (r : result A) :
  isChecked c = true -> sound (checked c r (wrapMsg c)).
Proof.
  intros Hc. destruct r as [a|e]; simpl.
  - intros (c' & e' & [H|[]] & _). discriminate.
  - exists [], c, e. repeat split; [assumption | exact callFailed_nil].
Qed.

Lemma sound_unchecked {A : Type} (c : call) (r : A * option error) :
  isChecked c = false -> sound (unchecked c r).
Proof.
  intros Hc. simpl. intros (c' & e' & [H|[]] & Hc').
  inversion H; subst. congruence.
Qed.

Lemma sound_bind {A B : Type} (m : M A) (f : A -> M B) :
  sound m -> (forall a, sound (f a)) -> sound (bind m f).
Proof.
  intros Hm Hf. destruct m as [t1 [a|e| |]]; simpl in *; try assumption.
  specialize (Hf a). destruct (f a) as [t2 [b|e| |]]; simpl in *;
    try (rewrite callFailed_app; tauto).
  destruct Hf as (tr' & c & e0 & -> & Hc & -> & Hno).
  exists (t1 ++ tr'), c, e0. rewrite app_assoc.
  repeat split; try assumption. rewrite callFailed_app. tauto.
Qed.

Lemma sound_serialLoop (fuel : nat) (serial : Z) (cl : list Client)
    (mk : list Client -> Task) (i : Z) (tasks : list Task) :
  sound (serialLoop fuel serial cl mk i tasks).
Proof.
  revert i tasks. induction fuel as [|fuel IH]; intros i tasks; cbn [serialLoop];
    destruct (i <? len cl); try exact callFailed_nil.
  apply sound_bind; [apply sound_orPanic | intros cs; apply IH].
Qed.

Lemma sound_appendCommandTask (cmd : Command) (cl : list Client)
    (task : CommandTask) (tasks : list Task) :
  sound (appendCommandTask cmd cl task tasks).
Proof.
  unfold appendCommandTask. destruct (cmdOnce cmd).
  - apply sound_bind; [apply sound_orPanic | intros; apply sound_ret].
  - destruct (cmdSerial cmd >? 0); [apply sound_serialLoop | apply sound_ret].
Qed.

Lemma sound_appendTemplateTask (cmd : Command) (cl : list Client)
    (task : TemplateTask) (tasks : list Task) :
  sound (appendTemplateTask cmd cl task tasks).
Proof.
  unfold appendTemplateTask.
  destruct (cmdSerial cmd >? 0); [apply sound_serialLoop | apply sound_ret].
Qed.

Create HintDb sound.

#[local] Hint Resolve sound_ret sound_orPanic sound_serialLoop
  sound_appendCommandTask sound_appendTemplateTask : sound.

(** One step of a soundness proof: split a bind, or close a leaf. *)
Ltac sound_step :=
  match goal with
  | |- sound (bind _ _) => apply sound_bind; [|intros ?]
  | |- sound (checked ?c _ _) => apply (sound_checked c); reflexivity
  | |- sound (unchecked ?c _) => apply (sound_unchecked c); reflexivity
  | |- sound (if ?b then _ else _) => destruct b
  | |- sound _ => solve [auto with sound]
  end.

Section BuilderSound.

Variables (w : World) (sup : Stackup) (cmd : Command) (cl : list Client) (env : string).

Lemma sound_uploadLoop (cwd : string) (uploads : list Upload) (tasks : list Task) :
  sound (uploadLoop w cmd cl env cwd uploads tasks).
Proof.
  revert tasks. induction uploads as [|u rest IH]; intros tasks; cbn [uploadLoop].
  - apply sound_ret.
  - repeat sound_step.
Qed.

Lemma sound_loadVars : sound (loadVars w cmd).
Proof. unfold loadVars. repeat sound_step. Qed.

Lemma sound_templateSection (tasks : list Task) :
  sound (templateSection w cmd cl tasks).
Proof.
  unfold templateSection. repeat sound_step. apply sound_loadVars.
Qed.

Lemma sound_scriptSection (tasks : list Task) :
  sound (scriptSection w sup cmd cl tasks).
Proof. unfold scriptSection. repeat sound_step. Qed.

Lemma sound_localSection (tasks : list Task) :
  sound (localSection w sup cmd env tasks).
Proof. unfold localSection. repeat sound_step. Qed.

Lemma sound_runSection (tasks : list Task) :
  sound (runSection sup cmd cl tasks).
Proof. unfold runSection. repeat sound_step. Qed.

Lemma sound_createTasks : sound (createTasks w sup cmd cl env).
Proof.
  unfold createTasks.
  repeat sound_step;
    auto using sound_uploadLoop, sound_templateSection, sound_scriptSection,
      sound_localSection, sound_runSection.
Qed.

End BuilderSound.

(** ** Triples *)

Lemma post_ret {A : Type} (R : Prop) (a : A) (Q : A -> Prop) :
  Q a -> post R (ret a) Q.
Proof. exact (fun H => H). Qed.

Lemma post_checked {A : Type} (R : Prop) (c : call) (r : result A)
    (msg : string) (Q : A -> Prop) :
  (forall a, r = Ok a -> Q a) -> post R (checked c r msg) Q.
Proof. intros H. destruct r; simpl; auto. Qed.

Lemma post_unchecked {A : Type} (R : Prop) (c : call) (r : A * option error)
    (Q : A -> Prop) :
  Q (fst r) -> post R (unchecked c r) Q.
Proof. exact (fun H => H). Qed.

Lemma post_bind {A B : Type} (R : Prop) (m : M A) (f : A -> M B) (Q : B -> Prop) :
  post R m (fun a => post R (f a) Q) -> post R (bind m f) Q.
Proof.
  destruct m as [t1 [a|e| |]]; simpl; try exact (fun H => H).
  now destruct (f a) as [t2 r].
Qed.

Lemma post_mono {A : Type} (R : Prop) (m : M A) (Q Q' : A -> Prop) :
  post R m Q -> (forall a, Q a -> Q' a) -> post R m Q'.
Proof. destruct m as [t [a|e| |]]; simpl; auto. Qed.

Lemma post_weaken {A : Type} (R R' : Prop) (m : M A) (Q : A -> Prop) :
  (R -> R') -> post R m Q -> post R' m Q.
Proof. destruct m as [t [a|e| |]]; simpl; auto. Qed.

Section BuilderLayout.

Variables (w : World) (sup : Stackup) (cmd : Command) (cl : list Client) (env : string).
Hypothesis Hrep : representable cmd cl.

Lemma post_appendCommandTask (task : CommandTask) (tasks : list Task) :
  post (indexesEmpty cmd cl) (appendCommandTask cmd cl task tasks)
    (fun ts => ts = tasks ++ expandCommand cmd cl task /\ ~ indexesEmpty cmd cl).
Proof.
  rewrite appendCommandTask_spec by exact Hrep.
  unfold indexesEmpty. destruct (cmdOnce cmd); cbn [andb].
  - destruct cl; simpl; [auto|]. split; [reflexivity|]. intros [_ H]. discriminate.
  - simpl. split; [reflexivity|]. intros [H _]. discriminate.
Qed.

Lemma post_appendTemplateTask (task : TemplateTask) (tasks : list Task) :
  post False (appendTemplateTask cmd cl task tasks)
    (fun ts => ts = tasks ++ expandTemplate cmd cl task).
Proof. rewrite appendTemplateTask_spec by exact Hrep. reflexivity. Qed.

Lemma post_uploadLoop (cwd : string) (uploads : list Upload) (tasks : list Task) :
  post (indexesEmpty cmd cl /\ uploads <> [])
    (uploadLoop w cmd cl env cwd uploads tasks)
    (fun ts => exists Us, ts = tasks ++ concat Us
                          /\ Forall2 (uploadGroup w cmd cl) uploads Us
                          /\ (uploads <> [] -> ~ indexesEmpty cmd cl)).
Proof.
  revert tasks. induction uploads as [|u rest IH]; intros tasks; cbn [uploadLoop].
  - apply post_ret. exists []. simpl. rewrite app_nil_r.
    split; [reflexivity|]. split; [constructor | congruence].
  - apply post_bind, post_checked. intros uploadFile _.
    apply post_bind, post_checked. intros rdr _.
    apply post_bind.
    eapply post_weaken; [|eapply post_mono; [apply post_appendCommandTask|]].
    { intros H. split; [exact H | discriminate]. }
    intros ts [-> HnR].
    eapply post_weaken; [|eapply post_mono; [apply IH|]].
    { intros [H _]. contradiction. }
    intros ts' (Us & -> & HUs & _).
    exists (expandCommand cmd cl
              {| run := RemoteTarCommand w (upDst u); input := Some rdr;
                 clients := []; tty := false |} :: Us).
    cbn [concat]. rewrite <- app_assoc.
    split; [reflexivity|]. split; [|exact (fun _ => HnR)].
    constructor; [now exists rdr | assumption].
Qed.

Lemma post_templateSection (tasks : list Task) :
  post False (templateSection w cmd cl tasks)
    (fun ts => exists T, ts = tasks ++ T /\ templateGroup cmd cl T).
Proof.
  unfold templateSection, templateGroup.
  destruct (nonEmpty (tplSrc (cmdTemplate cmd)) && nonEmpty (tplDst (cmdTemplate cmd))).
  - apply post_bind, post_checked. intros f _.
    apply post_bind, post_checked. intros data _.
    apply post_bind, post_checked. intros t _.
    apply post_bind. apply post_mono with (Q := fun _ => True).
    + unfold loadVars. destruct (nonEmpty (tplVars (cmdTemplate cmd))).
      * apply post_bind, post_checked. intros varf _.
        apply post_bind, post_checked. intros vardata _.
        apply post_checked. auto.
      * apply post_ret. exact I.
    + intros vs _. eapply post_mono; [apply post_appendTemplateTask|].
      intros ts ->. eexists. split; [reflexivity|]. now exists t, vs.
  - apply post_ret. exists []. now rewrite app_nil_r.
Qed.

Lemma post_scriptSection (tasks : list Task) :
  post (indexesEmpty cmd cl /\ nonEmpty (cmdScript cmd) = true)
    (scriptSection w sup cmd cl tasks)
    (fun ts => exists S, ts = tasks ++ S /\ scriptGroup sup cmd cl S
                         /\ (nonEmpty (cmdScript cmd) = true -> ~ indexesEmpty cmd cl)).
Proof.
  unfold scriptSection, scriptGroup. destruct (nonEmpty (cmdScript cmd)).
  - apply post_bind, post_checked. intros f _.
    apply post_bind, post_checked. intros data _.
    eapply post_weaken; [|eapply post_mono; [apply post_appendCommandTask|]].
    { intros H. now split. }
    intros ts [-> HnR]. eexists. split; [reflexivity|].
    split; [now exists data | exact (fun _ => HnR)].
  - apply post_ret. exists []. rewrite app_nil_r.
    split; [reflexivity|]. split; [reflexivity | discriminate].
Qed.

Lemma post_localSection (tasks : list Task) :
  post False (localSection w sup cmd env tasks)
    (fun ts => ts = tasks ++ localGroup w sup cmd env).
Proof.
  unfold localSection, localGroup. destruct (nonEmpty (cmdLocal cmd)).
  - apply post_bind, post_unchecked. apply post_ret. reflexivity.
  - apply post_ret. now rewrite app_nil_r.
Qed.

Lemma post_runSection (tasks : list Task) :
  post (indexesEmpty cmd cl /\ nonEmpty (cmdRun cmd) = true)
    (runSection sup cmd cl tasks)
    (fun ts => ts = tasks ++ runGroup sup cmd cl
               /\ (nonEmpty (cmdRun cmd) = true -> ~ indexesEmpty cmd cl)).
Proof.
  unfold runSection, runGroup. destruct (nonEmpty (cmdRun cmd)).
  - eapply post_weaken; [|eapply post_mono; [apply post_appendCommandTask|]].
    { intros H. now split. }
    intros ts [-> HnR]. split; [reflexivity | exact (fun _ => HnR)].
  - apply post_ret. rewrite app_nil_r. split; [reflexivity | discriminate].
Qed.

(** A run of [createTasks] that returns a task list returns it in the
    layout above; it panics only by indexing an empty client list in the
    [Once] branch of a populated sub-kind; its loops never run out of
    fuel. *)
Lemma post_createTasks :
  post (indexesEmpty cmd cl /\ usesOnceBranch cmd)
    (createTasks w sup cmd cl env) (taskLayout w sup cmd cl env).
Proof.
  unfold createTasks.
  apply post_bind, post_checked. intros cwd _.
  apply post_bind.
  eapply post_weaken; [|eapply post_mono; [apply post_uploadLoop|]].
  { intros [H H']. split; [exact H | now left]. }
  intros ts (Us & -> & HUs & HU). cbn [app].
  apply post_bind.
  eapply post_weaken; [|eapply post_mono; [apply post_templateSection|]].
  { contradiction. }
  intros ts (T & -> & HT).
  apply post_bind.
  eapply post_weaken; [|eapply post_mono; [apply post_scriptSection|]].
  { intros [H H']. split; [exact H | right; now left]. }
  intros ts (S & -> & HS & HSn).
  apply post_bind.
  eapply post_weaken; [|eapply post_mono; [apply post_localSection|]].
  { contradiction. }
  intros ts ->.
  apply post_bind.
  eapply post_weaken; [|eapply post_mono; [apply post_runSection|]].
  { intros [H H']. split; [exact H | right; now right]. }
  intros ts [-> HRn]. apply post_ret.
  exists Us, T, S. rewrite <- !app_assoc.
  split; [reflexivity|]. split; [exact HUs|]. split; [exact HT|].
  split; [exact HS|].
  intros [H|[H|H]]; auto.
Qed.

End BuilderLayout.

(** ** Putting the two readings of a run together *)

Lemma createTasks_yields (w : World) (sup : Stackup) (cmd : Command)
    (cl : list Client) (env : string) :
  representable cmd cl -> ~ (indexesEmpty cmd cl /\ usesOnceBranch cmd) ->
  yields (createTasks w sup cmd cl env) (taskLayout w sup cmd cl env).
Proof.
  intros Hrep Hne.
  pose proof (post_createTasks w sup cmd cl env Hrep) as Hpost.
  pose proof (sound_createTasks w sup cmd cl env) as Hsound.
  destruct (createTasks w sup cmd cl env) as [tr [tasks|e| |]]; simpl in *.
  - now split.
  - destruct Hsound as (tr' & c & e0 & -> & Hc & _ & _).
    exists c, e0. split; [|assumption]. apply in_or_app. right. now left.
  - contradiction.
  - contradiction.
Qed.

Lemma yields_mono (m : M (list Task)) (P Q : list Task -> Prop) :
  yields m P -> (forall tasks, P tasks -> Q tasks) -> yields m Q.
Proof.
  destruct m as [tr [tasks|e| |]]; simpl; try tauto.
  intros [H1 H2] HPQ. split; [assumption | now apply HPQ].
Qed.

Lemma yields_mono_dep (m : M (list Task)) (P Q : list Task -> Prop) :
  (forall tasks, snd m = Val tasks -> P tasks -> Q tasks) -> yields m P -> yields m Q.
Proof.
  destruct m as [tr [tasks|e| |]]; simpl; try tauto.
  intros HPQ [H1 H2]. split; [assumption | now apply HPQ].
Qed.

Lemma yields_Val (m : M (list Task)) (P : list Task -> Prop)
    (tr : list event) (tasks : list Task) :
  yields m P -> m = (tr, Val tasks) -> P tasks.
Proof. intros H ->. exact (proj2 H). Qed.

Lemma nonempty_not_indexesEmpty (cmd : Command) (cl : list Client) :
  cl <> [] -> ~ (indexesEmpty cmd cl /\ usesOnceBranch cmd).
Proof. intros H [[_ H'] _]. contradiction. Qed.

(** ** Groups *)

Lemma Clients_setClients (p : CommandTask) (cs : list Client) :
  Clients (TCommand (setClients p cs)) = cs.
Proof. reflexivity. Qed.

Lemma Clients_setTClients (p : TemplateTask) (cs : list Client) :
  Clients (TTemplate (setTClients p cs)) = cs.
Proof. reflexivity. Qed.

Lemma map_Clients_map (mk : list Client -> Task) (gs : list (list Client)) :
  (forall cs, Clients (mk cs) = cs) -> map Clients (map mk gs) = gs.
Proof.
  intros Hmk. rewrite map_map. rewrite <- (map_id gs) at 2.
  apply map_ext. exact Hmk.
Qed.

Lemma map_Clients_expandCommand (cmd : Command) (cl : list Client) (p : CommandTask) :
  map Clients (expandCommand cmd cl p) = clientGroups (cmdOnce cmd) (cmdSerial cmd) cl.
Proof. apply map_Clients_map. reflexivity. Qed.

Lemma map_Clients_expandTemplate (cmd : Command) (cl : list Client) (p : TemplateTask) :
  map Clients (expandTemplate cmd cl p) = clientGroups false (cmdSerial cmd) cl.
Proof. apply map_Clients_map. reflexivity. Qed.

(** A group whose client sets are the chunks of [cl] is a serial group. *)
Lemma serialGroup_of_chunks (n : nat) (cl : list Client) (g : list Task) :
  (0 < n)%nat -> map Clients g = chunks n cl -> serialGroup n cl g.
Proof.
  intros Hn Hg. unfold serialGroup. repeat split.
  - rewrite <- (length_map Clients), Hg. now apply chunks_length.
  - pose proof (chunks_bounds n cl Hn) as Hb. rewrite <- Hg in Hb.
    rewrite List.Forall_map in Hb. eapply List.Forall_impl; [|exact Hb].
    intros t [_ H]. exact H.
  - rewrite Hg. now apply chunks_concat.
  - intros Hnd i j a b Hi Hj Hij c Ha Hb.
    assert (Hc : concat (map Clients g) = cl)
      by (rewrite Hg; now apply chunks_concat).
    rewrite <- Hc in Hnd.
    apply (NoDup_concat_disjoint _ Hnd i j (Clients a) (Clients b)) with (x := c);
      try assumption.
    + now rewrite nth_error_map, Hi.
    + now rewrite nth_error_map, Hj.
Qed.

Lemma clientGroups_serial (serial : Z) (cl : list Client) :
  0 < serial -> clientGroups false serial cl = chunks (Z.to_nat serial) cl.
Proof.
  intros H. unfold clientGroups.
  now replace (serial >? 0) with true by (symmetry; apply Z.gtb_lt; lia).
Qed.

Lemma serialGroup_expandCommand (cmd : Command) (cl : list Client) (p : CommandTask) :
  0 < cmdSerial cmd -> cmdOnce cmd = false ->
  serialGroup (Z.to_nat (cmdSerial cmd)) cl (expandCommand cmd cl p).
Proof.
  intros Hs Ho. apply serialGroup_of_chunks; [lia|].
  rewrite map_Clients_expandCommand, Ho. now apply clientGroups_serial.
Qed.

Lemma serialGroup_expandTemplate (cmd : Command) (cl : list Client) (p : TemplateTask) :
  0 < cmdSerial cmd ->
  serialGroup (Z.to_nat (cmdSerial cmd)) cl (expandTemplate cmd cl p).
Proof.
  intros Hs. apply serialGroup_of_chunks; [lia|].
  rewrite map_Clients_expandTemplate. now apply clientGroups_serial.
Qed.

Lemma Forall2_uploadGroup_length (w : World) (cmd : Command) (cl : list Client)
    (ups : list Upload) (Us : list (list Task)) :
  Forall2 (uploadGroup w cmd cl) ups Us -> length Us = length ups.
Proof. intros H. symmetry. eapply Forall2_length. exact H. Qed.

Lemma Forall2_uploadGroup_all (w : World) (cmd : Command) (cl : list Client)
    (P : list Task -> Prop) (ups : list Upload) (Us : list (list Task)) :
  (forall p, P (expandCommand cmd cl p)) ->
  Forall2 (uploadGroup w cmd cl) ups Us -> Forall P Us.
Proof.
  intros HP H. induction H as [|u g ups Us [rdr ->] _ IH]; constructor; auto.
Qed.

(** * The specification, sentence by sentence *)

(** ** C1: serial batches *)

(** C1, as stated, fails.  With two upload entries, one client and
    [Serial = 1] the Upload sub-kind yields two tasks, not [ceil(1/1) = 1];
    their client sets concatenate to the client list twice over, and the
    one client is in both tasks.  And with a client list that names the
    same client twice, the two batches of a remote command share it. *)
Lemma C1_counterexample :
  (exists tr tasks,
     createTasks Demo.world Demo.sup (Demo.twoUploads false 1) (Demo.hosts 1) ""
     = (tr, Val tasks)
     /\ length tasks <> ceilDiv (length (Demo.hosts 1)) 1
     /\ concat (map Clients tasks) <> Demo.hosts 1
     /\ ~ pairwiseDisjoint tasks)
  /\ (exists tr tasks,
        createTasks Demo.world Demo.sup (Demo.runOnly false 1)
          [RemoteClient 7; RemoteClient 7] ""
        = (tr, Val tasks)
        /\ ~ pairwiseDisjoint tasks).
Proof.
  split.
  - eexists _, _. split; [vm_compute; reflexivity|].
    split; [vm_compute; discriminate|].
    split; [vm_compute; discriminate|].
    intros H. refine (H 0%nat 1%nat _ _ eq_refl eq_refl _ (RemoteClient 0) _ _).
    + discriminate.
    + now left.
    + now left.
  - eexists _, _. split; [vm_compute; reflexivity|].
    intros H. refine (H 0%nat 1%nat _ _ eq_refl eq_refl _ (RemoteClient 7) _ _).
    + discriminate.
    + now left.
    + now left.
Qed.

(** C1, amended: for a non-empty client list of length L, [Serial = N > 0]
    and [Once = false], a run of [createTasks] in which no call fails
    returns, for every upload entry and for each of Template, Script and
    Run that is populated, a group of exactly [ceil(L/N)] tasks, each with
    at most N clients, whose client sets concatenate in task order to the
    client list; when the client list has no repeated client, no client is
    in two tasks of one such group. *)
Theorem C1_serial_batches (w : World) (sup : Stackup) (cmd : Command)
    (cl : list Client) (env : string) :
  representable cmd cl -> cl <> [] -> 0 < cmdSerial cmd -> cmdOnce cmd = false ->
  yields (createTasks w sup cmd cl env) (fun tasks =>
    exists Us T S,
      tasks = concat Us ++ T ++ S ++ localGroup w sup cmd env ++ runGroup sup cmd cl
      /\ Forall2 (uploadGroup w cmd cl) (cmdUpload cmd) Us
      /\ templateGroup cmd cl T
      /\ scriptGroup sup cmd cl S
      /\ Forall (serialGroup (Z.to_nat (cmdSerial cmd)) cl) Us
      /\ (templatePopulated cmd = true -> serialGroup (Z.to_nat (cmdSerial cmd)) cl T)
      /\ (nonEmpty (cmdScript cmd) = true -> serialGroup (Z.to_nat (cmdSerial cmd)) cl S)
      /\ (nonEmpty (cmdRun cmd) = true ->
          serialGroup (Z.to_nat (cmdSerial cmd)) cl (runGroup sup cmd cl))).
Proof.
  intros Hrep Hne Hs Ho.
  eapply yields_mono.
  - apply createTasks_yields; [exact Hrep | now apply nonempty_not_indexesEmpty].
  - intros tasks (Us & T & S & -> & HUs & HT & HS & _).
    exists Us, T, S.
    split; [reflexivity|]. split; [exact HUs|]. split; [exact HT|].
    split; [exact HS|]. split; [|split; [|split]].
    + eapply Forall2_uploadGroup_all; [|exact HUs].
      intros p. now apply serialGroup_expandCommand.
    + intros Hp. unfold templateGroup, templatePopulated in *. rewrite Hp in HT.
      destruct HT as (t & vs & ->). now apply serialGroup_expandTemplate.
    + intros Hp. unfold scriptGroup in HS. rewrite Hp in HS.
      destruct HS as (data & ->). now apply serialGroup_expandCommand.
    + intros Hp. unfold runGroup. rewrite Hp.
      now apply serialGroup_expandCommand.
Qed.

(** Five clients and [Serial = 2]: every group has the sizes [2; 2; 1]. *)
Lemma C1_serial_batches_witness :
  exists tr tasks,
    createTasks Demo.world Demo.sup (Demo.full "motd.tpl" "" false 2) (Demo.hosts 5) ""
    = (tr, Val tasks)
    /\ map (fun t => length (Clients t)) tasks
       = [2; 2; 1; 2; 2; 1; 2; 2; 1; 1; 2; 2; 1]%nat
    /\ exists Us T S,
         tasks = concat Us ++ T ++ S
                 ++ localGroup Demo.world Demo.sup (Demo.full "motd.tpl" "" false 2) ""
                 ++ runGroup Demo.sup (Demo.full "motd.tpl" "" false 2) (Demo.hosts 5)
         /\ Forall (serialGroup 2 (Demo.hosts 5)) Us
         /\ serialGroup 2 (Demo.hosts 5) T
         /\ serialGroup 2 (Demo.hosts 5) S
         /\ serialGroup 2 (Demo.hosts 5)
              (runGroup Demo.sup (Demo.full "motd.tpl" "" false 2) (Demo.hosts 5)).
Proof.
  assert (Hrep : representable (Demo.full "motd.tpl" "" false 2) (Demo.hosts 5))
    by (split; vm_compute; discriminate).
  assert (Hne : Demo.hosts 5 <> []) by discriminate.
  pose proof (C1_serial_batches Demo.world Demo.sup (Demo.full "motd.tpl" "" false 2)
                (Demo.hosts 5) "" Hrep Hne eq_refl eq_refl) as H.
  eexists _, _. split; [vm_compute; reflexivity|].
  split; [vm_compute; reflexivity|].
  eapply yields_Val in H; [|vm_compute; reflexivity].
  destruct H as (Us & T & S & Htasks & _ & _ & _ & HUs & HT & HS & HR).
  exists Us, T, S.
  split; [exact Htasks|]. split; [exact HUs|].
  split; [exact (HT eq_refl)|]. split; [exact (HS eq_refl) | exact (HR eq_refl)].
Defined.

(** ** C2: once *)

Lemma expandCommand_once (cmd : Command) (c0 : Client) (rest : list Client)
    (p : CommandTask) :
  cmdOnce cmd = true ->
  expandCommand cmd (c0 :: rest) p = [TCommand (setClients p [c0])].
Proof. intros Ho. unfold expandCommand, clientGroups. now rewrite Ho. Qed.

Lemma onceGroup_expandCommand (cmd : Command) (c0 : Client) (rest : list Client)
    (p : CommandTask) :
  cmdOnce cmd = true -> onceGroup c0 (expandCommand cmd (c0 :: rest) p).
Proof.
  intros Ho. rewrite expandCommand_once by exact Ho.
  now exists (TCommand (setClients p [c0])).
Qed.

(** C2, as stated, fails: with two upload entries and [Once = true] the
    Upload sub-kind yields two tasks, not exactly one. *)
Lemma C2_counterexample :
  exists tr tasks,
    createTasks Demo.world Demo.sup (Demo.twoUploads true 0) (Demo.hosts 3) ""
    = (tr, Val tasks)
    /\ length tasks = 2%nat
    /\ ~ onceGroup (RemoteClient 0) tasks.
Proof.
  eexists _, _. split; [vm_compute; reflexivity|].
  split; [reflexivity|].
  intros (t & H & _). discriminate H.
Qed.

(** C2, amended: for a non-empty client list and [Once = true], whatever
    [Serial] is, a run of [createTasks] in which no call fails returns, for
    every upload entry and for each of Script and Run that is populated,
    exactly one task, and its client set is exactly the first client of the
    supplied list. *)
Theorem C2_once_first_client (w : World) (sup : Stackup) (cmd : Command)
    (c0 : Client) (rest : list Client) (env : string) :
  representable cmd (c0 :: rest) -> cmdOnce cmd = true ->
  yields (createTasks w sup cmd (c0 :: rest) env) (fun tasks =>
    exists Us T S,
      tasks = concat Us ++ T ++ S ++ localGroup w sup cmd env
              ++ runGroup sup cmd (c0 :: rest)
      /\ Forall2 (uploadGroup w cmd (c0 :: rest)) (cmdUpload cmd) Us
      /\ templateGroup cmd (c0 :: rest) T
      /\ scriptGroup sup cmd (c0 :: rest) S
      /\ Forall (onceGroup c0) Us
      /\ (nonEmpty (cmdScript cmd) = true -> onceGroup c0 S)
      /\ (nonEmpty (cmdRun cmd) = true ->
          onceGroup c0 (runGroup sup cmd (c0 :: rest)))).
Proof.
  intros Hrep Ho.
  eapply yields_mono.
  - apply createTasks_yields; [exact Hrep|].
    apply nonempty_not_indexesEmpty. discriminate.
  - intros tasks (Us & T & S & -> & HUs & HT & HS & _).
    exists Us, T, S.
    split; [reflexivity|]. split; [exact HUs|]. split; [exact HT|].
    split; [exact HS|]. split; [|split].
    + eapply Forall2_uploadGroup_all; [|exact HUs].
      intros p. now apply onceGroup_expandCommand.
    + intros Hp. unfold scriptGroup in HS. rewrite Hp in HS.
      destruct HS as (data & ->). now apply onceGroup_expandCommand.
    + intros Hp. unfold runGroup. rewrite Hp.
      now apply onceGroup_expandCommand.
Qed.

(** Five clients, [Once = true] and [Serial = 2]: the upload entry, the
    script and the remote command each give one task on the first client;
    the template is batched and the local task is on localhost. *)
Lemma C2_once_first_client_witness :
  exists tr tasks,
    createTasks Demo.world Demo.sup (Demo.full "motd.tpl" "" true 2) (Demo.hosts 5) ""
    = (tr, Val tasks)
    /\ nth_error (map Clients tasks) 0 = Some [RemoteClient 0]
    /\ length tasks = 7%nat
    /\ exists Us T S,
         tasks = concat Us ++ T ++ S
                 ++ localGroup Demo.world Demo.sup (Demo.full "motd.tpl" "" true 2) ""
                 ++ runGroup Demo.sup (Demo.full "motd.tpl" "" true 2) (Demo.hosts 5)
         /\ Forall (onceGroup (RemoteClient 0)) Us
         /\ onceGroup (RemoteClient 0) S
         /\ onceGroup (RemoteClient 0)
              (runGroup Demo.sup (Demo.full "motd.tpl" "" true 2) (Demo.hosts 5)).
Proof.
  assert (Hrep : representable (Demo.full "motd.tpl" "" true 2) (Demo.hosts 5))
    by (split; vm_compute; discriminate).
  pose proof (C2_once_first_client Demo.world Demo.sup (Demo.full "motd.tpl" "" true 2)
                (RemoteClient 0) (map RemoteClient (seq 1 4)) "" Hrep eq_refl) as H.
  eexists _, _. split; [vm_compute; reflexivity|].
  split; [vm_compute; reflexivity|].
  split; [vm_compute; reflexivity|].
  eapply yields_Val in H; [|vm_compute; reflexivity].
  destruct H as (Us & T & S & Htasks & _ & _ & _ & HUs & HS & HR).
  exists Us, T, S.
  split; [exact Htasks|]. split; [exact HUs|].
  split; [exact (HS eq_refl) | exact (HR eq_refl)].
Defined.

(** ** C3: the order of the groups *)

Lemma uploadGroups_protos (w : World) (cmd : Command) (cl : list Client)
    (ups : list Upload) (Us : list (list Task)) :
  Forall2 (uploadGroup w cmd cl) ups Us ->
  exists protos,
    concat Us = flat_map (expandCommand cmd cl) protos
    /\ Forall2 (fun u p => run p = RemoteTarCommand w (upDst u) /\ tty p = false)
         ups protos.
Proof.
  intros H. induction H as [|u g ups Us [rdr ->] _ (protos & Hc & Hp)].
  - exists []. split; [reflexivity | constructor].
  - eexists (_ :: protos). cbn [concat flat_map]. rewrite Hc.
    split; [reflexivity|]. constructor; [|exact Hp]. now split.
Qed.

(** C3: when the template, the script, the local command and the remote
    command are populated (with any upload entries) and construction
    succeeds, the returned list is: the tasks of the upload entries in entry
    order, then the template tasks, then the script tasks, then the local
    task, then the remote command tasks; the tasks of each prototype are its
    copies over the client groups of the partitioning policy, computed from
    the whole client list for each group on its own ([Once] and [Serial]
    for command tasks, [Serial] alone for the template). *)
Theorem C3_declared_order (w : World) (sup : Stackup) (cmd : Command)
    (cl : list Client) (env : string) (tr : list event) (tasks : list Task) :
  representable cmd cl ->
  templatePopulated cmd = true ->
  nonEmpty (cmdScript cmd) = true ->
  nonEmpty (cmdLocal cmd) = true ->
  nonEmpty (cmdRun cmd) = true ->
  createTasks w sup cmd cl env = (tr, Val tasks) ->
  exists (ups : list CommandTask) (t : TemplateTask) (data : string),
    tasks = flat_map (expandCommand cmd cl) ups
            ++ expandTemplate cmd cl t
            ++ expandCommand cmd cl (scriptProto sup cmd data)
            ++ [TCommand (localTask w sup cmd env)]
            ++ expandCommand cmd cl (runProto sup cmd)
    /\ Forall2 (fun u p => run p = RemoteTarCommand w (upDst u) /\ tty p = false)
         (cmdUpload cmd) ups
    /\ dst t = tplDst (cmdTemplate cmd).
Proof.
  intros Hrep HT HS HL HR Hrun.
  pose proof (post_createTasks w sup cmd cl env Hrep) as Hpost.
  rewrite Hrun in Hpost. simpl in Hpost.
  destruct Hpost as (Us & T & S & -> & HUs & HTg & HSg & _).
  unfold templateGroup, templatePopulated in *. rewrite HT in HTg.
  unfold scriptGroup in HSg. rewrite HS in HSg.
  unfold localGroup, runGroup. rewrite HL, HR.
  destruct HTg as (t & vs & ->). destruct HSg as (data & ->).
  destruct (uploadGroups_protos w cmd cl _ _ HUs) as (protos & -> & Hp).
  eexists protos, _, data. split; [reflexivity|]. split; [exact Hp | reflexivity].
Qed.

(** Every sub-kind populated, three clients, [Serial = 2]. *)
Lemma C3_declared_order_witness :
  exists tr tasks,
    createTasks Demo.world Demo.sup (Demo.full "motd.tpl" "" false 2) (Demo.hosts 3) "E;"
    = (tr, Val tasks)
    /\ map (Run Demo.world) tasks
       = ["tar -C /srv/app -xzf -"; "tar -C /srv/app -xzf -";
          "cat > '/etc/motd'"; "cat > '/etc/motd'";
          "<deploy.sh>"; "<deploy.sh>"; "echo hi"; "uptime"; "uptime"]
    /\ exists ups t data,
         tasks = flat_map (expandCommand (Demo.full "motd.tpl" "" false 2) (Demo.hosts 3)) ups
                 ++ expandTemplate (Demo.full "motd.tpl" "" false 2) (Demo.hosts 3) t
                 ++ expandCommand (Demo.full "motd.tpl" "" false 2) (Demo.hosts 3)
                      (scriptProto Demo.sup (Demo.full "motd.tpl" "" false 2) data)
                 ++ [TCommand (localTask Demo.world Demo.sup
                                 (Demo.full "motd.tpl" "" false 2) "E;")]
                 ++ expandCommand (Demo.full "motd.tpl" "" false 2) (Demo.hosts 3)
                      (runProto Demo.sup (Demo.full "motd.tpl" "" false 2)).
Proof.
  assert (Hrep : representable (Demo.full "motd.tpl" "" false 2) (Demo.hosts 3))
    by (split; vm_compute; discriminate).
  eexists _, _. split; [vm_compute; reflexivity|].
  split; [vm_compute; reflexivity|].
  destruct (C3_declared_order Demo.world Demo.sup (Demo.full "motd.tpl" "" false 2)
              (Demo.hosts 3) "E;" _ _ Hrep eq_refl eq_refl eq_refl eq_refl
              ltac:(vm_compute; reflexivity))
    as (ups & t & data & Htasks & _ & _).
  exists ups, t, data. exact Htasks.
Defined.

(** ** C4: all or nothing *)

(** A failed tested call ends the run at once: the function returns the
    error of that call, wrapped in the context of its call site. *)
Lemma failed_call_returns (w : World) (sup : Stackup) (cmd : Command)
    (cl : list Client) (env : string) (c : call) (e0 : error) :
  In (c, Some e0) (fst (createTasks w sup cmd cl env)) -> isChecked c = true ->
  snd (createTasks w sup cmd cl env) = ReturnErr (errors_Wrap e0 (wrapMsg c)).
Proof.
  intros Hin Hc.
  pose proof (sound_createTasks w sup cmd cl env) as Hsound.
  destruct (createTasks w sup cmd cl env) as [tr r]. cbn [fst snd] in *.
  assert (Hfail : callFailed tr) by (now exists c, e0).
  destruct r as [tasks|e| |]; simpl in Hsound; try contradiction.
  destruct Hsound as (tr' & c1 & e1 & -> & _ & -> & Hno).
  apply in_app_or in Hin as [Hin|[Hin|[]]].
  - exfalso. apply Hno. now exists c, e0.
  - now inversion Hin.
Qed.

(** C4: if a path resolution, a file open, the template parse or the
    variable decode (or any other call whose error [createTasks] tests)
    fails during a run, the caller gets the nil task list together with the
    error of that call wrapped in its context.  This holds in particular for
    a template parse failure, which comes after the upload tasks have been
    built. *)
Theorem C4_all_or_nothing (w : World) (sup : Stackup) (cmd : Command)
    (cl : list Client) (env : string) (c : call) (e0 : error) :
  In (c, Some e0) (fst (createTasks w sup cmd cl env)) -> isChecked c = true ->
  go_return (snd (createTasks w sup cmd cl env))
  = Some ([], Some (errors_Wrap e0 (wrapMsg c))).
Proof.
  intros Hin Hc. now rewrite (failed_call_returns w sup cmd cl env c e0 Hin Hc).
Qed.

(** An upload entry that resolves and streams, then a template that does
    not parse: nothing is returned but the error.  The same command with a
    template that parses returns nine tasks, the first two for the upload. *)
Lemma C4_all_or_nothing_witness :
  In (CNewTarStreamReader "app", None)
     (fst (createTasks Demo.world Demo.sup (Demo.full "bad.tpl" "" false 2)
             (Demo.hosts 3) ""))
  /\ go_return (snd (createTasks Demo.world Demo.sup (Demo.full "bad.tpl" "" false 2)
                       (Demo.hosts 3) ""))
     = Some ([], Some (ErrWrap (ErrNew "template: tpl:1: unexpected {{end}}")
                         "can't parse template"))
  /\ option_map (fun r => length (fst r))
       (go_return (snd (createTasks Demo.world Demo.sup (Demo.full "motd.tpl" "" false 2)
                          (Demo.hosts 3) "")))
     = Some 9%nat.
Proof.
  split; [vm_compute; tauto|].
  split; [|vm_compute; reflexivity].
  apply (C4_all_or_nothing Demo.world Demo.sup (Demo.full "bad.tpl" "" false 2)
           (Demo.hosts 3) "" (CParseTemplate "bad.tpl")
           (ErrNew "template: tpl:1: unexpected {{end}}")).
  - vm_compute. tauto.
  - reflexivity.
Defined.

(** ** C8: the error of a variable file that does not decode *)

(** C8, as stated, fails: the variable file [bad.yml] does not decode, the
    run is aborted, and the message of the returned error is the context
    ["can't parse variables"] followed by the message of the decoder; the
    path is not in it. *)
Lemma C8_counterexample :
  exists tr e,
    createTasks Demo.world Demo.sup (Demo.templateOnly "bad.yml" false 0)
      (Demo.hosts 2) ""
    = (tr, ReturnErr e)
    /\ In (CUnmarshalVars "bad.yml", Some (ErrNew "yaml: line 1: did not find expected key")) tr
    /\ Error e = "can't parse variables: yaml: line 1: did not find expected key"
    /\ isInfix "bad.yml" (Error e) = false.
Proof.
  eexists _, _. split; [vm_compute; reflexivity|].
  split; [vm_compute; tauto|].
  split; vm_compute; reflexivity.
Qed.

(** C8, amended: when the variable file named by [Template.Vars] is read
    but fails to decode, [createTasks] aborts construction: the caller gets
    the nil task list and an error whose message is
    ["can't parse variables: "] followed by the message of the decoder.
    [createTasks] adds no path to it. *)
Theorem C8_decode_failure (w : World) (sup : Stackup) (cmd : Command)
    (cl : list Client) (env : string) (e0 : error) :
  In (CUnmarshalVars (tplVars (cmdTemplate cmd)), Some e0)
     (fst (createTasks w sup cmd cl env)) ->
  exists e,
    go_return (snd (createTasks w sup cmd cl env)) = Some ([], Some e)
    /\ e = errors_Wrap e0 "can't parse variables"
    /\ Error e = "can't parse variables: " +:+ Error e0.
Proof.
  intros Hin.
  rewrite (failed_call_returns w sup cmd cl env _ e0 Hin eq_refl).
  eexists. split; [reflexivity|]. split; reflexivity.
Qed.

Lemma C8_decode_failure_witness :
  exists e,
    go_return (snd (createTasks Demo.world Demo.sup (Demo.templateOnly "bad.yml" false 0)
                      (Demo.hosts 2) ""))
    = Some ([], Some e)
    /\ e = errors_Wrap (ErrNew "yaml: line 1: did not find expected key")
             "can't parse variables"
    /\ Error e = "can't parse variables: "
                 +:+ Error (ErrNew "yaml: line 1: did not find expected key").
Proof.
  apply (C8_decode_failure Demo.world Demo.sup (Demo.templateOnly "bad.yml" false 0)
           (Demo.hosts 2) "" (ErrNew "yaml: line 1: did not find expected key")).
  vm_compute. tauto.
Defined.

(** ** C10: indexing an empty client list *)

(** C10: under [Once = true] with Upload, Script or Run populated,
    [createTasks] evaluates [clients[0]] unguarded.  On an empty client list
    the run never returns a task list; unless a tested call fails first, it
    panics, so that the caller gets neither a list nor an error.  On a
    non-empty client list the run never panics. *)
Theorem C10_once_indexes_first_client (w : World) (sup : Stackup) (cmd : Command)
    (cl : list Client) (env : string) :
  representable cmd cl -> cmdOnce cmd = true -> usesOnceBranch cmd ->
  (forall task tasks, appendCommandTask cmd [] task tasks = ([], Panic))
  /\ (cl = [] ->
      (forall tasks, snd (createTasks w sup cmd cl env) <> Val tasks)
      /\ (~ callFailed (fst (createTasks w sup cmd cl env)) ->
          snd (createTasks w sup cmd cl env) = Panic
          /\ go_return (snd (createTasks w sup cmd cl env)) = None))
  /\ (cl <> [] ->
      snd (createTasks w sup cmd cl env) <> Panic
      /\ snd (createTasks w sup cmd cl env) <> OutOfFuel).
Proof.
  intros Hrep Ho Hu.
  pose proof (post_createTasks w sup cmd cl env Hrep) as Hpost.
  pose proof (sound_createTasks w sup cmd cl env) as Hsound.
  split; [|split].
  - intros task tasks. unfold appendCommandTask. now rewrite Ho.
  - intros ->.
    destruct (createTasks w sup cmd [] env) as [tr [tasks|e| |]];
      cbn [fst snd post sound] in *.
    + exfalso. destruct Hpost as (Us & T & S & _ & _ & _ & _ & H).
      apply (H Hu). now split.
    + split; [discriminate|]. intros Hno. exfalso. apply Hno.
      destruct Hsound as (tr' & c & e0 & -> & Hc & _ & _).
      exists c, e0. split; [|assumption]. apply in_or_app. right. now left.
    + split; [discriminate|]. intros _. now split.
    + contradiction.
  - intros Hne.
    destruct (createTasks w sup cmd cl env) as [tr [tasks|e| |]];
      cbn [fst snd post] in *; try (split; discriminate).
    + destruct Hpost as [[_ H] _]. contradiction.
    + contradiction.
Qed.

(** A remote command, [Once = true], no client: the run panics. *)
Lemma C10_once_indexes_first_client_witness :
  createTasks Demo.world Demo.sup (Demo.runOnly true 0) [] "" = ([(CGetwd, None)], Panic)
  /\ go_return (snd (createTasks Demo.world Demo.sup (Demo.runOnly true 0) [] "")) = None.
Proof.
  assert (Hrep : representable (Demo.runOnly true 0) [])
    by (split; vm_compute; discriminate).
  assert (Hu : usesOnceBranch (Demo.runOnly true 0)) by (right; right; reflexivity).
  destruct (C10_once_indexes_first_client Demo.world Demo.sup (Demo.runOnly true 0)
              [] "" Hrep eq_refl Hu) as (_ & H & _).
  destruct (H eq_refl) as [_ Hp].
  split; [vm_compute; reflexivity|].
  apply Hp. vm_compute. intros (c & e & [Hin|[]] & _). discriminate Hin.
Defined.

(** ** C5: the template ignores [Once] *)

Lemma filter_template_map_command (f : list Client -> CommandTask)
    (gs : list (list Client)) :
  List.filter isTemplateTask (map (fun cs => TCommand (f cs)) gs) = [].
Proof. induction gs as [|g gs IH]; [reflexivity | exact IH]. Qed.

Lemma filter_template_expandCommand (cmd : Command) (cl : list Client) (p : CommandTask) :
  List.filter isTemplateTask (expandCommand cmd cl p) = [].
Proof. apply filter_template_map_command. Qed.

Lemma filter_template_expandTemplate (cmd : Command) (cl : list Client)
    (p : TemplateTask) :
  List.filter isTemplateTask (expandTemplate cmd cl p) = expandTemplate cmd cl p.
Proof.
  unfold expandTemplate.
  induction (clientGroups false (cmdSerial cmd) cl) as [|g gs IH];
    [reflexivity | cbn [map List.filter isTemplateTask]; now rewrite IH].
Qed.

Lemma filter_template_uploads (w : World) (cmd : Command) (cl : list Client)
    (ups : list Upload) (Us : list (list Task)) :
  Forall2 (uploadGroup w cmd cl) ups Us ->
  List.filter isTemplateTask (concat Us) = [].
Proof.
  intros H. induction H as [|u g ups Us [rdr ->] _ IH]; [reflexivity|].
  cbn [concat]. now rewrite List.filter_app, filter_template_expandCommand, IH.
Qed.

(** The template tasks of a laid out task list are its template group. *)
Lemma filter_template_layout (w : World) (sup : Stackup) (cmd : Command)
    (cl : list Client) (env : string) (Us : list (list Task)) (T S : list Task) :
  Forall2 (uploadGroup w cmd cl) (cmdUpload cmd) Us ->
  templateGroup cmd cl T -> scriptGroup sup cmd cl S ->
  List.filter isTemplateTask
    (concat Us ++ T ++ S ++ localGroup w sup cmd env ++ runGroup sup cmd cl) = T.
Proof.
  intros HUs HT HS.
  rewrite !List.filter_app, (filter_template_uploads w cmd cl _ _ HUs).
  assert (HTf : List.filter isTemplateTask T = T).
  { unfold templateGroup in HT.
    destruct (nonEmpty (tplSrc (cmdTemplate cmd)) && nonEmpty (tplDst (cmdTemplate cmd))).
    - destruct HT as (t & vs & ->). apply filter_template_expandTemplate.
    - now subst. }
  assert (HSf : List.filter isTemplateTask S = []).
  { unfold scriptGroup in HS. destruct (nonEmpty (cmdScript cmd)).
    - destruct HS as (data & ->). apply filter_template_expandCommand.
    - now subst. }
  assert (HLf : List.filter isTemplateTask (localGroup w sup cmd env) = []).
  { unfold localGroup. now destruct (nonEmpty (cmdLocal cmd)). }
  assert (HRf : List.filter isTemplateTask (runGroup sup cmd cl) = []).
  { unfold runGroup. destruct (nonEmpty (cmdRun cmd)); [|reflexivity].
    apply filter_template_expandCommand. }
  rewrite HTf, HSf, HLf, HRf. cbn [app]. now rewrite app_nil_r.
Qed.



(** ** C6: client sets are contiguous slices *)

Lemma clientGroups_slices (once : bool) (serial : Z) (cl : list Client) :
  cl <> [] ->
  Forall (fun g => g <> [] /\ contiguousIn g cl) (clientGroups once serial cl).
Proof.
  intros Hne. unfold clientGroups. destruct once.
  - destruct cl as [|c0 rest]; [congruence|].
    constructor; [|constructor]. split; [discriminate|].
    now exists [], rest.
  - destruct (serial >? 0) eqn:E.
    + apply Z.gtb_lt in E.
      assert (Hn : (0 < Z.to_nat serial)%nat) by lia.
      pose proof (chunks_bounds (Z.to_nat serial) cl Hn) as Hb.
      rewrite List.Forall_forall in *. intros g Hg. split; [apply (Hb g Hg)|].
      destruct (in_concat_contiguous _ g Hg) as (pre & post & Hc).
      rewrite chunks_concat in Hc by exact Hn. now exists pre, post.
    + constructor; [|constructor]. split; [assumption|].
      exists [], []. now rewrite app_nil_r.
Qed.

Lemma sliceOf_map (mk : list Client -> Task) (cl : list Client)
    (gs : list (list Client)) :
  (forall cs, Clients (mk cs) = cs) ->
  Forall (fun g => g <> [] /\ contiguousIn g cl) gs ->
  Forall (sliceOf cl) (map mk gs).
Proof.
  intros Hmk H. rewrite List.Forall_map. eapply List.Forall_impl; [|exact H].
  intros g Hg. unfold sliceOf. now rewrite Hmk.
Qed.

Lemma sliceOf_expandCommand (cmd : Command) (cl : list Client) (p : CommandTask) :
  cl <> [] -> Forall (sliceOf cl) (expandCommand cmd cl p).
Proof.
  intros Hne. apply sliceOf_map; [reflexivity | now apply clientGroups_slices].
Qed.

Lemma sliceOf_expandTemplate (cmd : Command) (cl : list Client) (p : TemplateTask) :
  cl <> [] -> Forall (sliceOf cl) (expandTemplate cmd cl p).
Proof.
  intros Hne. apply sliceOf_map; [reflexivity | now apply clientGroups_slices].
Qed.

Lemma sliceOf_uploads (w : World) (cmd : Command) (cl : list Client)
    (ups : list Upload) (Us : list (list Task)) :
  cl <> [] -> Forall2 (uploadGroup w cmd cl) ups Us ->
  Forall (sliceOf cl) (concat Us).
Proof.
  intros Hne H. induction H as [|u g ups Us [rdr ->] _ IH]; [constructor|].
  cbn [concat]. apply List.Forall_app. split; [|exact IH].
  now apply sliceOf_expandCommand.
Qed.

(** C6: for a non-empty client list, a run of [createTasks] in which no
    call fails returns a task list in which every task other than the one
    of the local command has a non-empty client set that is a contiguous
    slice of the supplied client list. *)
Theorem C6_contiguous_slices (w : World) (sup : Stackup) (cmd : Command)
    (cl : list Client) (env : string) :
  representable cmd cl -> cl <> [] ->
  yields (createTasks w sup cmd cl env) (fun tasks =>
    exists before after,
      tasks = before ++ localGroup w sup cmd env ++ after
      /\ Forall (sliceOf cl) (before ++ after)).
Proof.
  intros Hrep Hne.
  eapply yields_mono.
  - apply createTasks_yields; [exact Hrep | now apply nonempty_not_indexesEmpty].
  - intros tasks (Us & T & S & -> & HUs & HT & HS & _).
    exists (concat Us ++ T ++ S), (runGroup sup cmd cl).
    split; [now rewrite <- !app_assoc|].
    rewrite !List.Forall_app. split; [split; [|split]|].
    + now apply (sliceOf_uploads w cmd cl (cmdUpload cmd)).
    + unfold templateGroup in HT.
      destruct (nonEmpty (tplSrc (cmdTemplate cmd)) && nonEmpty (tplDst (cmdTemplate cmd))).
      * destruct HT as (t & vs & ->). now apply sliceOf_expandTemplate.
      * subst. constructor.
    + unfold scriptGroup in HS. destruct (nonEmpty (cmdScript cmd)).
      * destruct HS as (data & ->). now apply sliceOf_expandCommand.
      * subst. constructor.
    + unfold runGroup. destruct (nonEmpty (cmdRun cmd)); [|constructor].
      now apply sliceOf_expandCommand.
Qed.

Lemma C6_contiguous_slices_witness :
  exists tr tasks before after,
    createTasks Demo.world Demo.sup (Demo.full "motd.tpl" "" false 2) (Demo.hosts 3) ""
    = (tr, Val tasks)
    /\ tasks = before
               ++ localGroup Demo.world Demo.sup (Demo.full "motd.tpl" "" false 2) ""
               ++ after
    /\ Forall (sliceOf (Demo.hosts 3)) (before ++ after)
    /\ map Clients tasks
       = [[RemoteClient 0; RemoteClient 1]; [RemoteClient 2];
          [RemoteClient 0; RemoteClient 1]; [RemoteClient 2];
          [RemoteClient 0; RemoteClient 1]; [RemoteClient 2];
          [localhost Demo.world ""];
          [RemoteClient 0; RemoteClient 1]; [RemoteClient 2]].
Proof.
  assert (Hrep : representable (Demo.full "motd.tpl" "" false 2) (Demo.hosts 3))
    by (split; vm_compute; discriminate).
  assert (Hne : Demo.hosts 3 <> []) by discriminate.
  pose proof (C6_contiguous_slices Demo.world Demo.sup (Demo.full "motd.tpl" "" false 2)
                (Demo.hosts 3) "" Hrep Hne) as H.
  eexists _, _. eapply yields_Val in H; [|vm_compute; reflexivity].
  destruct H as (before & after & H1 & H2).
  exists before, after.
  split; [reflexivity|]. split; [exact H1|]. split; [exact H2|].
  vm_compute. reflexivity.
Defined.

(** ** C9: the local command *)

Lemma tty_withStdin_withDebug (sup : Stackup) (cmd : Command) (t : CommandTask) :
  tty (withStdin cmd (withDebug sup t)) = tty t.
Proof. unfold withStdin, withDebug. now destruct (cmdStdin cmd), (debug sup). Qed.




(** ** C7: rendering the template for a client *)

Section Rendering.

Variables (w : World) (t : TemplateTask).
Implicit Types (c : Client) (h : gmap nat string) (o : Objects).

Lemma InputForClient_reader c h o :
  rReader (InputForClient w t c h o)
  = match aErr (template_Execute w (tmpl t) c (vars t) o) with
    | Some e => Err e
    | None => Ok (BufferPtr (fresh (dom h)))
    end.
Proof.
  unfold InputForClient.
  now destruct (aErr (template_Execute w (tmpl t) c (vars t) o)).
Qed.

Lemma InputForClient_heap c h o :
  rHeap (InputForClient w t c h o)
  = <[fresh (dom h) := aBytes (template_Execute w (tmpl t) c (vars t) o)]>
      (<[fresh (dom h) := ""]> h).
Proof.
  unfold InputForClient.
  now destruct (aErr (template_Execute w (tmpl t) c (vars t) o)).
Qed.

(** The live objects change as [Execute] changes them, and not otherwise. *)
Lemma InputForClient_objects c h o :
  rObjects (InputForClient w t c h o)
  = aObjects (template_Execute w (tmpl t) c (vars t) o).
Proof.
  unfold InputForClient.
  now destruct (aErr (template_Execute w (tmpl t) c (vars t) o)).
Qed.

(** A call leaves every buffer that was there before as it was. *)
Lemma InputForClient_frame c h o (a : nat) :
  a ∈ dom h -> rHeap (InputForClient w t c h o) !! a = h !! a.
Proof.
  intros Ha. rewrite InputForClient_heap.
  assert (Hne : fresh (dom h) <> a).
  { intros <-. exact (is_fresh (dom h) Ha). }
  now rewrite !lookup_insert_ne by exact Hne.
Qed.

(** The buffer handed back is new, and holds the rendered bytes. *)
Lemma InputForClient_buffer c h o (b : nat) :
  rReader (InputForClient w t c h o) = Ok (BufferPtr b) ->
  (b ∉ dom h)
  /\ rHeap (InputForClient w t c h o) !! b
     = Some (aBytes (template_Execute w (tmpl t) c (vars t) o)).
Proof.
  rewrite InputForClient_reader, InputForClient_heap.
  destruct (aErr (template_Execute w (tmpl t) c (vars t) o)); [discriminate|].
  intros H. inversion H; subst. split; [apply is_fresh|].
  apply lookup_insert_eq.
Qed.

(** A call hands back what [Execute] answered. *)
Lemma InputForClient_answered c h o :
  answered h (rHeap (InputForClient w t c h o))
    (template_Execute w (tmpl t) c (vars t) o) (rReader (InputForClient w t c h o)).
Proof.
  unfold answered. rewrite InputForClient_reader, InputForClient_heap.
  destruct (aErr (template_Execute w (tmpl t) c (vars t) o)); [reflexivity|].
  exists (fresh (dom h)). split; [reflexivity|]. split; [apply is_fresh|].
  apply lookup_insert_eq.
Qed.

Lemma InputForClient_rendered c h o :
  aErr (template_Execute w (tmpl t) c (vars t) o) = None ->
  renderedBytes (InputForClient w t c h o)
  = Some (aBytes (template_Execute w (tmpl t) c (vars t) o)).
Proof.
  intros Hok. unfold renderedBytes.
  rewrite InputForClient_reader, Hok, InputForClient_heap.
  apply lookup_insert_eq.
Qed.

Lemma InputForClient_dom c h o (a : nat) :
  a ∈ dom h -> a ∈ dom (rHeap (InputForClient w t c h o)).
Proof.
  intros Ha. rewrite InputForClient_heap. rewrite !dom_insert_L. set_solver.
Qed.

End Rendering.

(** C7, as stated, fails: the template is executed on the live client, and
    a template that calls a method of the client which counts its calls
    renders [n=1] the first time and [n=2] the second time, for the same
    template, variables and client. *)
Lemma C7_counterexample :
  let out1 := InputForClient Cases.countingWorld Cases.motd (RemoteClient 0) ∅ ∅ in
  let out2 := InputForClient Cases.countingWorld Cases.motd (RemoteClient 0)
                (rHeap out1) (rObjects out1) in
  renderedBytes out1 = Some "n=1"
  /\ renderedBytes out2 = Some "n=2"
  /\ renderedBytes out1 <> renderedBytes out2.
Proof.
  split; [vm_compute; reflexivity|]. split; [vm_compute; reflexivity|].
  vm_compute. discriminate.
Qed.

(** C7, amended: [InputForClient] reads the task and hands back what
    [Execute] answers for the client: its error, or else a buffer that did
    not exist before and that holds the bytes written for that client.
    Rendering for a first and then for a second client gives two different
    buffers; the second call leaves the bytes of the first buffer as they
    are, and its own buffer holds the bytes written for the second client
    alone.  No call touches a buffer that existed before, and the live
    objects change only as [Execute] changes them.  When executing the
    template changes no live object, rendering again for the first client
    gives the same bytes (or the same error) as the first time. *)
Theorem C7_render_isolated (w : World) (t : TemplateTask) (c1 c2 : Client)
    (h : gmap nat string) (o : Objects) :
  let out1 := InputForClient w t c1 h o in
  let out2 := InputForClient w t c2 (rHeap out1) (rObjects out1) in
  let again := InputForClient w t c1 (rHeap out2) (rObjects out2) in
  answered h (rHeap out1) (template_Execute w (tmpl t) c1 (vars t) o) (rReader out1)
  /\ answered (rHeap out1) (rHeap out2)
       (template_Execute w (tmpl t) c2 (vars t) (rObjects out1)) (rReader out2)
  /\ rObjects out1 = aObjects (template_Execute w (tmpl t) c1 (vars t) o)
  /\ (forall b1 b2,
        rReader out1 = Ok (BufferPtr b1) -> rReader out2 = Ok (BufferPtr b2) ->
        b1 <> b2
        /\ rHeap out2 !! b1 = Some (aBytes (template_Execute w (tmpl t) c1 (vars t) o))
        /\ rHeap out2 !! b2
           = Some (aBytes (template_Execute w (tmpl t) c2 (vars t) (rObjects out1))))
  /\ (forall a, a ∈ dom h ->
        rHeap out1 !! a = h !! a /\ rHeap out2 !! a = h !! a
        /\ rHeap again !! a = h !! a)
  /\ (rendersWithoutEffect w t ->
      match rReader out1, rReader again with
      | Ok _, Ok _ =>
          renderedBytes out1 = renderedBytes again
          /\ renderedBytes out1
             = Some (aBytes (template_Execute w (tmpl t) c1 (vars t) o))
      | Err e, Err e' => e = e'
      | _, _ => False
      end).
Proof.
  intros out1 out2 again.
  split; [apply InputForClient_answered|].
  split; [apply InputForClient_answered|].
  split; [apply InputForClient_objects|].
  split; [|split].
  - intros b1 b2 H1 H2.
    destruct (InputForClient_buffer w t c1 h o b1 H1) as [Hfresh1 Hb1].
    destruct (InputForClient_buffer w t c2 (rHeap out1) (rObjects out1) b2 H2)
      as [Hfresh2 Hb2].
    assert (Hin : b1 ∈ dom (rHeap out1)) by (eapply elem_of_dom_2; exact Hb1).
    split; [|split].
    + intros ->. contradiction.
    + unfold out2. now rewrite InputForClient_frame.
    + exact Hb2.
  - intros a Ha. subst again out2 out1.
    assert (Ha1 : a ∈ dom (rHeap (InputForClient w t c1 h o)))
      by now apply InputForClient_dom.
    assert (Ha2 : a ∈ dom (rHeap (InputForClient w t c2
                                    (rHeap (InputForClient w t c1 h o))
                                    (rObjects (InputForClient w t c1 h o)))))
      by now apply InputForClient_dom.
    rewrite (InputForClient_frame w t c1 _ _ a Ha2).
    rewrite (InputForClient_frame w t c2 _ _ a Ha1).
    rewrite (InputForClient_frame w t c1 h o a Ha).
    now repeat split.
  - intros Hpure.
    assert (Ho : rObjects out2 = o).
    { unfold out2, out1. now rewrite !InputForClient_objects, !Hpure. }
    unfold again. rewrite Ho. unfold out1. rewrite !InputForClient_reader.
    destruct (aErr (template_Execute w (tmpl t) c1 (vars t) o)) eqn:E; [reflexivity|].
    rewrite !InputForClient_rendered by exact E. now split.
Qed.

(** A template that calls no method of the client, rendered for client 0,
    for client 1 and for client 0 again. *)
Lemma C7_render_isolated_witness :
  let out1 := InputForClient Demo.world Cases.motd (RemoteClient 0) ∅ ∅ in
  let out2 := InputForClient Demo.world Cases.motd (RemoteClient 1)
                (rHeap out1) (rObjects out1) in
  let again := InputForClient Demo.world Cases.motd (RemoteClient 0)
                 (rHeap out2) (rObjects out2) in
  rendersWithoutEffect Demo.world Cases.motd
  /\ rReader out1 = Ok (BufferPtr 0) /\ rReader out2 = Ok (BufferPtr 1)
  /\ rReader again = Ok (BufferPtr 2)
  /\ rHeap again !! 0%nat = Some "motd@0" /\ rHeap again !! 1%nat = Some "motd@1"
  /\ renderedBytes out1 = renderedBytes again.
Proof.
  intros out1 out2 again.
  assert (Hpure : rendersWithoutEffect Demo.world Cases.motd).
  { intros c o. now destruct c. }
  split; [exact Hpure|].
  split; [reflexivity|]. split; [reflexivity|]. split; [reflexivity|].
  split; [vm_compute; reflexivity|]. split; [vm_compute; reflexivity|].
  destruct (C7_render_isolated Demo.world Cases.motd (RemoteClient 0) (RemoteClient 1) ∅ ∅)
    as (_ & _ & _ & _ & _ & H).
  exact (proj1 (H Hpure)).
Defined.

(** Two clients, one template: each call hands back its own buffer, and
    each buffer holds the rendering for its own client. *)
Example render_two_clients :
  let out1 := InputForClient Demo.world Cases.motd (RemoteClient 0) ∅ ∅ in
  let out2 := InputForClient Demo.world Cases.motd (RemoteClient 1)
                (rHeap out1) (rObjects out1) in
  rReader out1 = Ok (BufferPtr 0) /\ rReader out2 = Ok (BufferPtr 1)
  /\ rHeap out2 !! 0%nat = Some "motd@0" /\ rHeap out2 !! 1%nat = Some "motd@1".
Proof. vm_compute. repeat split. Qed.

(** ** Scenarios *)

(** Five clients and [Once = true]: one task, on the first client. *)
Example scenario_once :
  option_map (fun r => map Clients (fst r))
    (go_return (snd (createTasks Demo.world Demo.sup (Demo.runOnly true 0)
                       (Demo.hosts 5) "")))
  = Some [[RemoteClient 0]].
Proof. vm_compute. reflexivity. Qed.

(** A local command: one task with a TTY on localhost, whatever the client
    list is. *)
Example scenario_local :
  forall n,
    option_map (fun r => map (fun t => (Run Demo.world t, TTY t, length (Clients t))) (fst r))
      (go_return (snd (createTasks Demo.world Demo.sup (Demo.localOnly false 0)
                         (Demo.hosts n) "")))
    = Some [("echo hi", true, 1%nat)].
Proof. intros n. reflexivity. Qed.

(** Debug mode and a remote command: the command line starts with the
    trace directive. *)
Example scenario_debug :
  option_map (fun r => map (Run Demo.world) (fst r))
    (go_return (snd (createTasks Demo.world {| debug := true |} (Demo.runOnly false 0)
                       (Demo.hosts 2) "")))
  = Some ["set -x;uptime"].
Proof. vm_compute. reflexivity. Qed.

(** * Further properties of the builder *)

(** ** Without [Once] and without [Serial] *)

Lemma clientGroups_unbatched (serial : Z) (cl : list Client) :
  serial <= 0 -> clientGroups false serial cl = [cl].
Proof.
  intros H. unfold clientGroups.
  now replace (serial >? 0) with false by (symmetry; rewrite Z.gtb_ltb; apply Z.ltb_ge; lia).
Qed.

Lemma wholeGroup_expandCommand (cmd : Command) (cl : list Client) (p : CommandTask) :
  cmdOnce cmd = false -> cmdSerial cmd <= 0 -> wholeGroup cl (expandCommand cmd cl p).
Proof.
  intros Ho Hs. unfold expandCommand. rewrite Ho, clientGroups_unbatched by exact Hs.
  now eexists.
Qed.

Lemma wholeGroup_expandTemplate (cmd : Command) (cl : list Client) (p : TemplateTask) :
  cmdSerial cmd <= 0 -> wholeGroup cl (expandTemplate cmd cl p).
Proof.
  intros Hs. unfold expandTemplate. rewrite clientGroups_unbatched by exact Hs.
  now eexists.
Qed.

(** X1: with [Once = false] and [Serial <= 0] (a negative [Serial] counts
    as none), a run of [createTasks] in which no call fails returns exactly
    one task for every upload entry and for each of Template, Script and
    Run that is populated, and that task is bound to the whole client list,
    be it empty. *)
Theorem X1_unbatched (w : World) (sup : Stackup) (cmd : Command)
    (cl : list Client) (env : string) :
  representable cmd cl -> cmdOnce cmd = false -> cmdSerial cmd <= 0 ->
  yields (createTasks w sup cmd cl env) (fun tasks =>
    exists Us T S,
      tasks = concat Us ++ T ++ S ++ localGroup w sup cmd env ++ runGroup sup cmd cl
      /\ Forall2 (uploadGroup w cmd cl) (cmdUpload cmd) Us
      /\ templateGroup cmd cl T
      /\ scriptGroup sup cmd cl S
      /\ Forall (wholeGroup cl) Us
      /\ (templatePopulated cmd = true -> wholeGroup cl T)
      /\ (nonEmpty (cmdScript cmd) = true -> wholeGroup cl S)
      /\ (nonEmpty (cmdRun cmd) = true -> wholeGroup cl (runGroup sup cmd cl))).
Proof.
  intros Hrep Ho Hs.
  eapply yields_mono.
  - apply createTasks_yields; [exact Hrep|]. intros [[H _] _]. congruence.
  - intros tasks (Us & T & S & -> & HUs & HT & HS & _).
    exists Us, T, S.
    split; [reflexivity|]. split; [exact HUs|]. split; [exact HT|].
    split; [exact HS|]. split; [|split; [|split]].
    + eapply Forall2_uploadGroup_all; [|exact HUs].
      intros p. now apply wholeGroup_expandCommand.
    + intros Hp. unfold templateGroup, templatePopulated in *. rewrite Hp in HT.
      destruct HT as (t & vs & ->). now apply wholeGroup_expandTemplate.
    + intros Hp. unfold scriptGroup in HS. rewrite Hp in HS.
      destruct HS as (data & ->). now apply wholeGroup_expandCommand.
    + intros Hp. unfold runGroup. rewrite Hp.
      now apply wholeGroup_expandCommand.
Qed.

(** A negative [Serial], three clients; and no client at all. *)
Lemma X1_unbatched_witness :
  (exists tr tasks,
     createTasks Demo.world Demo.sup (Demo.full "motd.tpl" "" false (-4)) (Demo.hosts 3) ""
     = (tr, Val tasks)
     /\ map Clients tasks
        = [Demo.hosts 3; Demo.hosts 3; Demo.hosts 3; [localhost Demo.world ""];
           Demo.hosts 3]
     /\ wholeGroup (Demo.hosts 3)
          (runGroup Demo.sup (Demo.full "motd.tpl" "" false (-4)) (Demo.hosts 3)))
  /\ (exists tr tasks,
        createTasks Demo.world Demo.sup (Demo.runOnly false 0) [] "" = (tr, Val tasks)
        /\ map Clients tasks = [[]]
        /\ wholeGroup [] (runGroup Demo.sup (Demo.runOnly false 0) [])).
Proof.
  split.
  - assert (Hrep : representable (Demo.full "motd.tpl" "" false (-4)) (Demo.hosts 3))
      by (split; vm_compute; discriminate).
    pose proof (X1_unbatched Demo.world Demo.sup (Demo.full "motd.tpl" "" false (-4))
                  (Demo.hosts 3) "" Hrep eq_refl ltac:(vm_compute; discriminate)) as H.
    eexists _, _. split; [vm_compute; reflexivity|]. split; [vm_compute; reflexivity|].
    eapply yields_Val in H; [|vm_compute; reflexivity].
    destruct H as (Us & T & S & _ & _ & _ & _ & _ & _ & _ & HR). exact (HR eq_refl).
  - assert (Hrep : representable (Demo.runOnly false 0) [])
      by (split; vm_compute; discriminate).
    pose proof (X1_unbatched Demo.world Demo.sup (Demo.runOnly false 0)
                  [] "" Hrep eq_refl ltac:(vm_compute; discriminate)) as H.
    eexists _, _. split; [vm_compute; reflexivity|]. split; [vm_compute; reflexivity|].
    eapply yields_Val in H; [|vm_compute; reflexivity].
    destruct H as (Us & T & S & _ & _ & _ & _ & _ & _ & _ & HR). exact (HR eq_refl).
Defined.

(** ** An empty client list under [Serial] *)

Lemma expandCommand_serial_nil (cmd : Command) (p : CommandTask) :
  cmdOnce cmd = false -> 0 < cmdSerial cmd -> expandCommand cmd [] p = [].
Proof.
  intros Ho Hs. unfold expandCommand. now rewrite Ho, clientGroups_serial by exact Hs.
Qed.

Lemma expandTemplate_serial_nil (cmd : Command) (p : TemplateTask) :
  0 < cmdSerial cmd -> expandTemplate cmd [] p = [].
Proof. intros Hs. unfold expandTemplate. now rewrite clientGroups_serial by exact Hs. Qed.

Lemma concat_uploadGroups_nil (w : World) (cmd : Command)
    (ups : list Upload) (Us : list (list Task)) :
  cmdOnce cmd = false -> 0 < cmdSerial cmd ->
  Forall2 (uploadGroup w cmd []) ups Us -> concat Us = [].
Proof.
  intros Ho Hs H. induction H as [|u g ups Us [rdr ->] _ IH]; [reflexivity|].
  cbn [concat]. now rewrite expandCommand_serial_nil, IH.
Qed.

(** X3: with [Once = false], [Serial > 0] and an empty client list, the
    serial loops do not run: a run of [createTasks] in which no call fails
    returns no upload, template, script or remote command task at all; the
    returned list is the local task alone, or empty. *)
Theorem X3_serial_no_clients (w : World) (sup : Stackup) (cmd : Command)
    (env : string) :
  cmdSerial cmd <= max_int -> cmdOnce cmd = false -> 0 < cmdSerial cmd ->
  yields (createTasks w sup cmd [] env) (fun tasks => tasks = localGroup w sup cmd env).
Proof.
  intros Hmax Ho Hs.
  assert (Hrep : representable cmd []) by (split; [exact Hmax | vm_compute; discriminate]).
  eapply yields_mono.
  - apply createTasks_yields; [exact Hrep|]. intros [[H _] _]. congruence.
  - intros tasks (Us & T & S & -> & HUs & HT & HS & _).
    rewrite (concat_uploadGroups_nil w cmd _ _ Ho Hs HUs).
    assert (HTn : T = []).
    { unfold templateGroup in HT.
      destruct (nonEmpty (tplSrc (cmdTemplate cmd)) && nonEmpty (tplDst (cmdTemplate cmd)));
        [|exact HT].
      destruct HT as (t & vs & ->). now apply expandTemplate_serial_nil. }
    assert (HSn : S = []).
    { unfold scriptGroup in HS. destruct (nonEmpty (cmdScript cmd)); [|exact HS].
      destruct HS as (data & ->). now apply expandCommand_serial_nil. }
    assert (HRn : runGroup sup cmd [] = []).
    { unfold runGroup. destruct (nonEmpty (cmdRun cmd)); [|reflexivity].
      now apply expandCommand_serial_nil. }
    rewrite HTn, HSn, HRn. cbn [app]. now rewrite app_nil_r.
Qed.

(** Every sub-kind populated, [Serial = 2], no client: all the files are
    read, and the local task is all that is returned. *)
Lemma X3_serial_no_clients_witness :
  exists tr t,
    createTasks Demo.world Demo.sup (Demo.full "motd.tpl" "vars.yml" false 2) [] ""
    = (tr, Val [TCommand t])
    /\ length tr = 12%nat
    /\ [TCommand t] = localGroup Demo.world Demo.sup
                        (Demo.full "motd.tpl" "vars.yml" false 2) "".
Proof.
  pose proof (X3_serial_no_clients Demo.world Demo.sup
                (Demo.full "motd.tpl" "vars.yml" false 2) ""
                ltac:(vm_compute; discriminate) eq_refl eq_refl) as H.
  eexists _, _. split; [vm_compute; reflexivity|]. split; [reflexivity|].
  eapply yields_Val in H; [|vm_compute; reflexivity]. exact H.
Defined.

(** ** [Serial] at least the number of clients *)

Lemma bind_ext {A B : Type} (m : M A) (f g : A -> M B) :
  (forall a, f a = g a) -> bind m f = bind m g.
Proof. intros H. destruct m as [t [a|e| |]]; simpl; [now rewrite H | | |]; reflexivity. Qed.

Section PolicyCongruence.

Variables (w : World) (sup : Stackup) (cmd cmd' : Command) (cl : list Client) (env : string).
Hypothesis HUpload : cmdUpload cmd' = cmdUpload cmd.
Hypothesis HTemplate : cmdTemplate cmd' = cmdTemplate cmd.
Hypothesis HScript : cmdScript cmd' = cmdScript cmd.
Hypothesis HLocal : cmdLocal cmd' = cmdLocal cmd.
Hypothesis HRun : cmdRun cmd' = cmdRun cmd.
Hypothesis HStdin : cmdStdin cmd' = cmdStdin cmd.
Hypothesis HCommand : forall task tasks,
  appendCommandTask cmd' cl task tasks = appendCommandTask cmd cl task tasks.
Hypothesis HTemplateTask : forall task tasks,
  appendTemplateTask cmd' cl task tasks = appendTemplateTask cmd cl task tasks.

Lemma uploadLoop_congr (cwd : string) (uploads : list Upload) (tasks : list Task) :
  uploadLoop w cmd' cl env cwd uploads tasks = uploadLoop w cmd cl env cwd uploads tasks.
Proof.
  revert tasks. induction uploads as [|u rest IH]; intros tasks; [reflexivity|].
  cbn [uploadLoop]. apply bind_ext. intros uploadFile.
  apply bind_ext. intros rdr. rewrite HCommand. apply bind_ext. exact IH.
Qed.

Lemma withStdin_congr (task : CommandTask) : withStdin cmd' task = withStdin cmd task.
Proof. unfold withStdin. now rewrite HStdin. Qed.

(** Two commands that differ in [Once] and [Serial] only, and whose
    partitioning code gives the same tasks, give the same run. *)
Lemma createTasks_congr :
  createTasks w sup cmd' cl env = createTasks w sup cmd cl env.
Proof.
  unfold createTasks. apply bind_ext. intros cwd.
  rewrite HUpload, uploadLoop_congr. apply bind_ext. intros tasks1.
  assert (HT : templateSection w cmd' cl tasks1 = templateSection w cmd cl tasks1).
  { unfold templateSection, loadVars. rewrite HTemplate.
    destruct (nonEmpty (tplSrc (cmdTemplate cmd)) && nonEmpty (tplDst (cmdTemplate cmd)));
      [|reflexivity].
    do 4 (apply bind_ext; intros ?). apply HTemplateTask. }
  rewrite HT. apply bind_ext. intros tasks2.
  assert (HS : scriptSection w sup cmd' cl tasks2 = scriptSection w sup cmd cl tasks2).
  { unfold scriptSection. rewrite HScript.
    destruct (nonEmpty (cmdScript cmd)); [|reflexivity].
    do 2 (apply bind_ext; intros ?). rewrite withStdin_congr. apply HCommand. }
  rewrite HS. apply bind_ext. intros tasks3.
  assert (HL : localSection w sup cmd' env tasks3 = localSection w sup cmd env tasks3).
  { unfold localSection. rewrite HLocal.
    destruct (nonEmpty (cmdLocal cmd)); [|reflexivity].
    apply bind_ext. intros local. now rewrite withStdin_congr. }
  rewrite HL. apply bind_ext. intros tasks4.
  assert (HR : runSection sup cmd' cl tasks4 = runSection sup cmd cl tasks4).
  { unfold runSection. rewrite HRun.
    destruct (nonEmpty (cmdRun cmd)); [|reflexivity].
    rewrite withStdin_congr. apply HCommand. }
  now rewrite HR.
Qed.

End PolicyCongruence.

Lemma chunksFuel_nil {A : Type} (fuel n : nat) : @chunksFuel A fuel n [] = [].
Proof. now destruct fuel. Qed.

Lemma chunks_one {A : Type} (n : nat) (l : list A) :
  l <> [] -> (length l <= n)%nat -> chunks n l = [l].
Proof.
  intros Hne Hn. destruct l as [|x r]; [congruence|].
  unfold chunks. cbn [length chunksFuel].
  rewrite firstn_all2 by exact Hn. rewrite skipn_all2 by exact Hn.
  now rewrite chunksFuel_nil.
Qed.

Lemma clientGroups_serial_large (once : bool) (serial : Z) (cl : list Client) :
  cl <> [] -> len cl <= serial ->
  clientGroups once serial cl = clientGroups once 0 cl.
Proof.
  intros Hne Hs. unfold clientGroups. destruct once; [reflexivity|].
  assert (Hpos : 0 < serial).
  { destruct cl; [congruence|]. unfold len in Hs. simpl in Hs. lia. }
  replace (serial >? 0) with true by (symmetry; apply Z.gtb_lt; lia).
  cbn. apply chunks_one; [exact Hne | unfold len in Hs; lia].
Qed.

(** X2: on a non-empty client list, a [Serial] that is at least the number
    of clients is as good as none: the run of [createTasks] is the run for
    the same command with [Serial = 0], call for call and task for task. *)
Theorem X2_serial_at_least_clients (w : World) (sup : Stackup) (cmd : Command)
    (cl : list Client) (env : string) :
  representable cmd cl -> cl <> [] -> len cl <= cmdSerial cmd ->
  createTasks w sup cmd cl env = createTasks w sup (withSerial cmd 0) cl env.
Proof.
  intros Hrep Hne Hs. symmetry.
  assert (Hrep0 : representable (withSerial cmd 0) cl).
  { destruct Hrep as [_ H]. split; [vm_compute; discriminate | exact H]. }
  apply createTasks_congr; try reflexivity.
  - intros task tasks.
    rewrite !appendCommandTask_spec by assumption. cbn [cmdOnce withSerial].
    destruct (cmdOnce cmd && match cl with [] => true | _ :: _ => false end);
      [reflexivity|].
    unfold expandCommand. cbn [cmdOnce cmdSerial withSerial].
    now rewrite (clientGroups_serial_large _ _ _ Hne Hs).
  - intros task tasks.
    rewrite !appendTemplateTask_spec by assumption.
    unfold expandTemplate. cbn [cmdSerial withSerial].
    now rewrite (clientGroups_serial_large _ _ _ Hne Hs).
Qed.

(** Three clients and [Serial = 5]: one task per prototype, as for
    [Serial = 0]. *)
Lemma X2_serial_at_least_clients_witness :
  createTasks Demo.world Demo.sup (Demo.full "motd.tpl" "" false 5) (Demo.hosts 3) ""
  = createTasks Demo.world Demo.sup (withSerial (Demo.full "motd.tpl" "" false 5) 0)
      (Demo.hosts 3) ""
  /\ option_map (fun r => map Clients (fst r))
       (go_return (snd (createTasks Demo.world Demo.sup (Demo.full "motd.tpl" "" false 5)
                          (Demo.hosts 3) "")))
     = Some [Demo.hosts 3; Demo.hosts 3; Demo.hosts 3; [localhost Demo.world ""];
             Demo.hosts 3].
Proof.
  split; [|vm_compute; reflexivity].
  apply X2_serial_at_least_clients.
  - split; vm_compute; discriminate.
  - discriminate.
  - vm_compute. discriminate.
Defined.

(** ** Full batches *)

Lemma chunksFuel_full {A : Type} (fuel n : nat) (l : list A) (i : nat) (c : list A) :
  nth_error (chunksFuel fuel n l) i = Some c ->
  (S i < length (chunksFuel fuel n l))%nat ->
  length c = n.
Proof.
  revert l i. induction fuel as [|fuel IH]; intros l i Hi Hlast.
  - simpl in Hlast. lia.
  - destruct l as [|x r]; [simpl in Hlast; lia|].
    cbn [chunksFuel] in Hi, Hlast. destruct i as [|i].
    + simpl in Hi. inversion Hi; subst. cbn [length] in Hlast.
      rewrite length_firstn. apply Nat.min_l.
      destruct (Nat.le_gt_cases n (length (x :: r))) as [H|H]; [exact H|].
      rewrite skipn_all2 in Hlast by lia. rewrite chunksFuel_nil in Hlast.
      simpl in Hlast. lia.
    + simpl in Hi. cbn [length] in Hlast.
      apply (IH (skipn n (x :: r)) i Hi). lia.
Qed.

Lemma fullBatches_of_chunks (n : nat) (cl : list Client) (g : list Task) :
  map Clients g = chunks n cl -> fullBatches n g.
Proof.
  intros Hg i t Hi Hlast.
  apply (chunksFuel_full (length cl) n cl i).
  - fold (chunks n cl). rewrite <- Hg, nth_error_map, Hi. reflexivity.
  - fold (chunks n cl). rewrite <- Hg, length_map. exact Hlast.
Qed.

Lemma fullBatches_expandCommand (cmd : Command) (cl : list Client) (p : CommandTask) :
  0 < cmdSerial cmd -> cmdOnce cmd = false ->
  fullBatches (Z.to_nat (cmdSerial cmd)) (expandCommand cmd cl p).
Proof.
  intros Hs Ho. apply (fullBatches_of_chunks _ cl).
  rewrite map_Clients_expandCommand, Ho. now apply clientGroups_serial.
Qed.

Lemma fullBatches_expandTemplate (cmd : Command) (cl : list Client) (p : TemplateTask) :
  0 < cmdSerial cmd ->
  fullBatches (Z.to_nat (cmdSerial cmd)) (expandTemplate cmd cl p).
Proof.
  intros Hs. apply (fullBatches_of_chunks _ cl).
  rewrite map_Clients_expandTemplate. now apply clientGroups_serial.
Qed.

(** X4: with [Serial = N > 0] and [Once = false], in the group of tasks of
    every upload entry and of each of Template, Script and Run, every task
    but the last is bound to exactly N clients: only the last batch can be
    short. *)
Theorem X4_only_last_batch_short (w : World) (sup : Stackup) (cmd : Command)
    (cl : list Client) (env : string) :
  representable cmd cl -> 0 < cmdSerial cmd -> cmdOnce cmd = false ->
  yields (createTasks w sup cmd cl env) (fun tasks =>
    exists Us T S,
      tasks = concat Us ++ T ++ S ++ localGroup w sup cmd env ++ runGroup sup cmd cl
      /\ Forall2 (uploadGroup w cmd cl) (cmdUpload cmd) Us
      /\ templateGroup cmd cl T
      /\ scriptGroup sup cmd cl S
      /\ Forall (fullBatches (Z.to_nat (cmdSerial cmd))) Us
      /\ fullBatches (Z.to_nat (cmdSerial cmd)) T
      /\ fullBatches (Z.to_nat (cmdSerial cmd)) S
      /\ fullBatches (Z.to_nat (cmdSerial cmd)) (runGroup sup cmd cl)).
Proof.
  intros Hrep Hs Ho.
  assert (Hnil : forall n, fullBatches n []).
  { intros n i t Hi. destruct i; discriminate. }
  eapply yields_mono.
  - apply createTasks_yields; [exact Hrep|]. intros [[H _] _]. congruence.
  - intros tasks (Us & T & S & -> & HUs & HT & HS & _).
    exists Us, T, S.
    split; [reflexivity|]. split; [exact HUs|]. split; [exact HT|].
    split; [exact HS|]. split; [|split; [|split]].
    + eapply Forall2_uploadGroup_all; [|exact HUs].
      intros p. now apply fullBatches_expandCommand.
    + unfold templateGroup in HT.
      destruct (nonEmpty (tplSrc (cmdTemplate cmd)) && nonEmpty (tplDst (cmdTemplate cmd))).
      * destruct HT as (t & vs & ->). now apply fullBatches_expandTemplate.
      * subst. apply Hnil.
    + unfold scriptGroup in HS. destruct (nonEmpty (cmdScript cmd)).
      * destruct HS as (data & ->). now apply fullBatches_expandCommand.
      * subst. apply Hnil.
    + unfold runGroup. destruct (nonEmpty (cmdRun cmd)); [|apply Hnil].
      now apply fullBatches_expandCommand.
Qed.

(** Seven clients in batches of three: sizes [3; 3; 1]. *)
Lemma X4_only_last_batch_short_witness :
  exists tr tasks,
    createTasks Demo.world Demo.sup (Demo.runOnly false 3) (Demo.hosts 7) ""
    = (tr, Val tasks)
    /\ map (fun t => length (Clients t)) tasks = [3; 3; 1]%nat
    /\ fullBatches 3 (runGroup Demo.sup (Demo.runOnly false 3) (Demo.hosts 7)).
Proof.
  assert (Hrep : representable (Demo.runOnly false 3) (Demo.hosts 7))
    by (split; vm_compute; discriminate).
  pose proof (X4_only_last_batch_short Demo.world Demo.sup (Demo.runOnly false 3)
                (Demo.hosts 7) "" Hrep eq_refl eq_refl) as H.
  eexists _, _. split; [vm_compute; reflexivity|]. split; [vm_compute; reflexivity|].
  eapply yields_Val in H; [|vm_compute; reflexivity].
  destruct H as (Us & T & S & _ & _ & _ & _ & _ & _ & _ & HR). exact HR.
Defined.

(** ** Slices stay in range *)

(** X5: for inputs a Go program can hold, the serial loops of
    [createTasks] finish and none of their slice expressions is out of
    range: a run ends in a panic only by evaluating [clients[0]] on an empty
    client list, that is under [Once = true] with Upload, Script or Run
    populated. *)
Theorem X5_slices_in_range (w : World) (sup : Stackup) (cmd : Command)
    (cl : list Client) (env : string) :
  representable cmd cl ->
  snd (createTasks w sup cmd cl env) <> OutOfFuel
  /\ (snd (createTasks w sup cmd cl env) = Panic ->
      cmdOnce cmd = true /\ cl = [] /\ usesOnceBranch cmd).
Proof.
  intros Hrep.
  pose proof (post_createTasks w sup cmd cl env Hrep) as Hpost.
  destruct (createTasks w sup cmd cl env) as [tr [tasks|e| |]];
    cbn [snd post] in *; split; try discriminate; try contradiction.
  intros _. destruct Hpost as [[Ho Hnil] Hu]. now repeat split.
Qed.

(** The largest [Serial] there is, on five clients: one batch. *)
Lemma X5_slices_in_range_witness :
  snd (createTasks Demo.world Demo.sup (Demo.runOnly false max_int) (Demo.hosts 5) "")
  <> OutOfFuel
  /\ option_map (fun r => map Clients (fst r))
       (go_return (snd (createTasks Demo.world Demo.sup (Demo.runOnly false max_int)
                          (Demo.hosts 5) "")))
     = Some [Demo.hosts 5].
Proof.
  split; [|vm_compute; reflexivity].
  apply (X5_slices_in_range Demo.world Demo.sup (Demo.runOnly false max_int)
           (Demo.hosts 5) "").
  split; vm_compute; discriminate.
Defined.

(** ** After a failed call *)

(** X6: a call whose error [createTasks] tests and that fails is the last
    call of the run: no file is opened, nothing is parsed and the localhost
    client is not connected after it, and no tested call failed before
    it. *)
Theorem X6_nothing_after_failure (w : World) (sup : Stackup) (cmd : Command)
    (cl : list Client) (env : string) (c : call) (e0 : error) :
  In (c, Some e0) (fst (createTasks w sup cmd cl env)) -> isChecked c = true ->
  exists before,
    fst (createTasks w sup cmd cl env) = before ++ [(c, Some e0)]
    /\ ~ callFailed before.
Proof.
  intros Hin Hc.
  pose proof (sound_createTasks w sup cmd cl env) as Hsound.
  destruct (createTasks w sup cmd cl env) as [tr r]. cbn [fst snd] in *.
  assert (Hfail : callFailed tr) by (now exists c, e0).
  destruct r as [tasks|e| |]; simpl in Hsound; try contradiction.
  destruct Hsound as (tr' & c1 & e1 & -> & _ & _ & Hno).
  apply in_app_or in Hin as [Hin|[Hin|[]]].
  - exfalso. apply Hno. now exists c, e0.
  - inversion Hin; subst. now exists tr'.
Qed.

(** The script cannot be opened: the run stops there, before the localhost
    client is connected. *)
Lemma X6_nothing_after_failure_witness :
  exists tr e,
    createTasks Demo.world Demo.sup Cases.missingScript (Demo.hosts 2) ""
    = (tr, ReturnErr e)
    /\ tr = [(CGetwd, None);
             (COpenScript "missing",
              Some (ErrNew "open missing: no such file or directory"))]
    /\ exists before,
         tr = before ++ [(COpenScript "missing",
                          Some (ErrNew "open missing: no such file or directory"))]
         /\ ~ callFailed before.
Proof.
  eexists _, _. split; [vm_compute; reflexivity|]. split; [reflexivity|].
  apply (X6_nothing_after_failure Demo.world Demo.sup Cases.missingScript
           (Demo.hosts 2) ""
           (COpenScript "missing") (ErrNew "open missing: no such file or directory")).
  - vm_compute. tauto.
  - reflexivity.
Defined.

(** ** The error of a failed upload *)

Lemma prefix_append (s t : string) : String.prefix s (s +:+ t) = true.
Proof.
  induction s as [|a s IH]; simpl; [now destruct t|].
  destruct (Ascii.ascii_dec a a); [exact IH | congruence].
Qed.

Lemma isInfix_prefix (s t : string) : String.prefix s t = true -> isInfix s t = true.
Proof. intros H. destruct t; cbn [isInfix]; rewrite H; reflexivity. Qed.

Lemma isInfix_append (p s t : string) : isInfix s (p +:+ s +:+ t) = true.
Proof.
  induction p as [|a p IH].
  - change ("" +:+ s +:+ t) with (s +:+ t). apply isInfix_prefix, prefix_append.
  - change (String a p +:+ s +:+ t) with (String a (p +:+ s +:+ t)).
    cbn [isInfix]. rewrite IH. apply orb_true_r.
Qed.

Lemma append_assoc (a b c : string) : (a +:+ b) +:+ c = a +:+ b +:+ c.
Proof.
  induction a as [|x a IH]; [reflexivity|].
  change (String x (a +:+ b) +:+ c = String x (a +:+ b +:+ c)).
  change (String x ((a +:+ b) +:+ c) = String x (a +:+ b +:+ c)).
  now rewrite IH.
Qed.

(** X7: when resolving the source of an upload entry, or opening its tar
    stream, fails, the caller gets the nil task list and an error whose
    message is ["upload: "], the source path of that entry, [": "] and the
    message of the failed call: the message names the source path. *)
Theorem X7_upload_error_names_source (w : World) (sup : Stackup) (cmd : Command)
    (cl : list Client) (env : string) (src : string) (e0 : error) :
  In (CResolveLocalPath src, Some e0) (fst (createTasks w sup cmd cl env))
  \/ In (CNewTarStreamReader src, Some e0) (fst (createTasks w sup cmd cl env)) ->
  exists e,
    go_return (snd (createTasks w sup cmd cl env)) = Some ([], Some e)
    /\ Error e = "upload: " +:+ src +:+ ": " +:+ Error e0
    /\ isInfix src (Error e) = true.
Proof.
  intros Hin.
  assert (Hret : snd (createTasks w sup cmd cl env)
                 = ReturnErr (errors_Wrap e0 ("upload: " +:+ src))).
  { destruct Hin as [Hin|Hin].
    - exact (failed_call_returns w sup cmd cl env _ e0 Hin eq_refl).
    - exact (failed_call_returns w sup cmd cl env _ e0 Hin eq_refl). }
  rewrite Hret. eexists. split; [reflexivity|].
  assert (Hmsg : Error (errors_Wrap e0 ("upload: " +:+ src))
                 = "upload: " +:+ src +:+ ": " +:+ Error e0).
  { cbn [Error errors_Wrap]. apply (append_assoc "upload: " src). }
  split; [exact Hmsg|]. rewrite Hmsg. apply isInfix_append.
Qed.

(** The second of three upload entries does not resolve: the error names
    it, and the third entry is never looked at. *)
Lemma X7_upload_error_names_source_witness :
  exists e,
    go_return (snd (createTasks Cases.ghostWorld Demo.sup Cases.threeUploads
                      (Demo.hosts 2) ""))
    = Some ([], Some e)
    /\ Error e = "upload: ghost: stat ghost: no such file or directory"
    /\ isInfix "ghost" (Error e) = true.
Proof.
  apply (X7_upload_error_names_source Cases.ghostWorld Demo.sup Cases.threeUploads
           (Demo.hosts 2) "" "ghost" (ErrNew "stat ghost: no such file or directory")).
  left. vm_compute. tauto.
Defined.

(** ** The error of [Connect] *)

Lemma snd_bind {A B : Type} (m : M A) (f : A -> M B) :
  snd (bind m f)
  = match snd m with
    | Val a => snd (f a)
    | ReturnErr e => ReturnErr e
    | Panic => Panic
    | OutOfFuel => OutOfFuel
    end.
Proof. destruct m as [t [a|e| |]]; simpl; [now destruct (f a) | | |]; reflexivity. Qed.

Lemma snd_localSection_withConnectError (w : World) (err : option error)
    (sup : Stackup) (cmd : Command) (env : string) (tasks : list Task) :
  snd (localSection (withConnectError w err) sup cmd env tasks)
  = snd (localSection w sup cmd env tasks).
Proof. unfold localSection. now destruct (nonEmpty (cmdLocal cmd)). Qed.

(** X8: the error that [Connect] returns for the localhost client is
    dropped: whether [Connect] fails or not, and with whatever error,
    [createTasks] returns the same task list (or the same error of another
    call); a failed [Connect] does not abort construction and the local
    task is built all the same. *)
Theorem X8_connect_error_dropped (w : World) (err : option error) (sup : Stackup)
    (cmd : Command) (cl : list Client) (env : string) :
  snd (createTasks (withConnectError w err) sup cmd cl env)
  = snd (createTasks w sup cmd cl env).
Proof.
  unfold createTasks. rewrite !snd_bind.
  change (os_Getwd (withConnectError w err)) with (os_Getwd w).
  destruct (snd (checked CGetwd (os_Getwd w) "resolving CWD failed")) as [cwd|e| |];
    try reflexivity.
  rewrite !snd_bind.
  change (uploadLoop (withConnectError w err) cmd cl env cwd (cmdUpload cmd) [])
    with (uploadLoop w cmd cl env cwd (cmdUpload cmd) []).
  destruct (snd (uploadLoop w cmd cl env cwd (cmdUpload cmd) [])) as [t1|e| |];
    try reflexivity.
  rewrite !snd_bind.
  change (templateSection (withConnectError w err) cmd cl t1)
    with (templateSection w cmd cl t1).
  destruct (snd (templateSection w cmd cl t1)) as [t2|e| |]; try reflexivity.
  rewrite !snd_bind.
  change (scriptSection (withConnectError w err) sup cmd cl t2)
    with (scriptSection w sup cmd cl t2).
  destruct (snd (scriptSection w sup cmd cl t2)) as [t3|e| |]; try reflexivity.
  rewrite !snd_bind, snd_localSection_withConnectError.
  destruct (snd (localSection w sup cmd env t3)) as [t4|e| |]; reflexivity.
Qed.

(** [Connect] fails: nine tasks all the same, the local one among them, and
    the failure is in the trace of the run. *)
Example connect_fails :
  exists tr tasks,
    createTasks (withConnectError Demo.world (Some (ErrNew "user: Current not implemented")))
      Demo.sup (Demo.full "motd.tpl" "" false 2) (Demo.hosts 3) ""
    = (tr, Val tasks)
    /\ In (CConnect "localhost", Some (ErrNew "user: Current not implemented")) tr
    /\ map (Run Demo.world) tasks
       = ["tar -C /srv/app -xzf -"; "tar -C /srv/app -xzf -";
          "cat > '/etc/motd'"; "cat > '/etc/motd'";
          "<deploy.sh>"; "<deploy.sh>"; "echo hi"; "uptime"; "uptime"].
Proof.
  eexists _, _. split; [vm_compute; reflexivity|].
  split; [vm_compute; tauto | vm_compute; reflexivity].
Qed.

(** ** The calls of a run *)

Lemma calls_ret {A : Type} (a : A) : calls (ret a) [].
Proof. reflexivity. Qed.

Lemma calls_checked {A : Type} (c : call) (r : result A) (msg : string) :
  calls (checked c r msg) [c].
Proof. destruct r; simpl; [reflexivity | now exists []]. Qed.

Lemma calls_unchecked {A : Type} (c : call) (r : A * option error) :
  calls (unchecked c r) [c].
Proof. reflexivity. Qed.

Lemma calls_orPanic {A : Type} (o : option A) : calls (orPanic o) [].
Proof. destruct o; simpl; [reflexivity | now exists []]. Qed.

Lemma calls_bind {A B : Type} (m : M A) (f : A -> M B) (c1 c2 : list call) :
  calls m c1 -> (forall a, calls (f a) c2) -> calls (bind m f) (c1 ++ c2).
Proof.
  intros Hm Hf. destruct m as [t1 [a|e| |]]; cbn [calls bind] in *.
  - specialize (Hf a). subst c1.
    destruct (f a) as [t2 [b|e| |]]; cbn [calls] in *.
    + subst c2. apply List.map_app.
    + destruct Hf as [rest <-]. exists rest.
      now rewrite List.map_app, <- app_assoc.
    + destruct Hf as [rest <-]. exists rest.
      now rewrite List.map_app, <- app_assoc.
    + destruct Hf as [rest <-]. exists rest.
      now rewrite List.map_app, <- app_assoc.
  - destruct Hm as [rest <-]. exists (rest ++ c2). now rewrite app_assoc.
  - destruct Hm as [rest <-]. exists (rest ++ c2). now rewrite app_assoc.
  - destruct Hm as [rest <-]. exists (rest ++ c2). now rewrite app_assoc.
Qed.

Lemma calls_serialLoop (fuel : nat) (serial : Z) (cl : list Client)
    (mk : list Client -> Task) (i : Z) (tasks : list Task) :
  calls (serialLoop fuel serial cl mk i tasks) [].
Proof.
  revert i tasks. induction fuel as [|fuel IH]; intros i tasks; cbn [serialLoop];
    destruct (i <? len cl); try (now exists []); try reflexivity.
  apply (calls_bind _ _ [] []); [apply calls_orPanic | intros cs; apply IH].
Qed.

Lemma calls_appendCommandTask (cmd : Command) (cl : list Client)
    (task : CommandTask) (tasks : list Task) :
  calls (appendCommandTask cmd cl task tasks) [].
Proof.
  unfold appendCommandTask. destruct (cmdOnce cmd).
  - apply (calls_bind _ _ [] []); [apply calls_orPanic | intros; apply calls_ret].
  - destruct (cmdSerial cmd >? 0); [apply calls_serialLoop | apply calls_ret].
Qed.

Lemma calls_appendTemplateTask (cmd : Command) (cl : list Client)
    (task : TemplateTask) (tasks : list Task) :
  calls (appendTemplateTask cmd cl task tasks) [].
Proof.
  unfold appendTemplateTask.
  destruct (cmdSerial cmd >? 0); [apply calls_serialLoop | apply calls_ret].
Qed.

Section BuilderCalls.

Variables (w : World) (sup : Stackup) (cmd : Command) (cl : list Client) (env : string).

Lemma calls_uploadLoop (cwd : string) (uploads : list Upload) (tasks : list Task) :
  calls (uploadLoop w cmd cl env cwd uploads tasks) (flat_map uploadCalls uploads).
Proof.
  revert tasks. induction uploads as [|u rest IH]; intros tasks; cbn [uploadLoop flat_map].
  - apply calls_ret.
  - unfold uploadCalls at 1.
    apply (calls_bind _ _ [_] (_ :: _)); [apply calls_checked | intros uploadFile].
    apply (calls_bind _ _ [_] _); [apply calls_checked | intros rdr].
    apply (calls_bind _ _ [] _); [apply calls_appendCommandTask | exact IH].
Qed.

Lemma calls_templateSection (tasks : list Task) :
  calls (templateSection w cmd cl tasks) (templateCalls cmd).
Proof.
  unfold templateSection, templateCalls, templatePopulated.
  destruct (nonEmpty (tplSrc (cmdTemplate cmd)) && nonEmpty (tplDst (cmdTemplate cmd)));
    [|apply calls_ret].
  apply (calls_bind _ _ [_] (_ :: _ :: _)); [apply calls_checked | intros f].
  apply (calls_bind _ _ [_] (_ :: _)); [apply calls_checked | intros data].
  apply (calls_bind _ _ [_] _); [apply calls_checked | intros t].
  rewrite <- (app_nil_r (if nonEmpty (tplVars (cmdTemplate cmd)) then _ else _)).
  apply calls_bind; [|intros vs; apply calls_appendTemplateTask].
  unfold loadVars. destruct (nonEmpty (tplVars (cmdTemplate cmd))); [|apply calls_ret].
  apply (calls_bind _ _ [_] (_ :: _)); [apply calls_checked | intros varf].
  apply (calls_bind _ _ [_] [_]); [apply calls_checked | intros vardata].
  apply calls_checked.
Qed.

Lemma calls_scriptSection (tasks : list Task) :
  calls (scriptSection w sup cmd cl tasks) (scriptCalls cmd).
Proof.
  unfold scriptSection, scriptCalls. destruct (nonEmpty (cmdScript cmd)); [|apply calls_ret].
  apply (calls_bind _ _ [_] [_]); [apply calls_checked | intros f].
  apply (calls_bind _ _ [_] []); [apply calls_checked | intros data].
  apply calls_appendCommandTask.
Qed.

Lemma calls_localSection (tasks : list Task) :
  calls (localSection w sup cmd env tasks) (localCalls cmd).
Proof.
  unfold localSection, localCalls. destruct (nonEmpty (cmdLocal cmd)); [|apply calls_ret].
  apply (calls_bind _ _ [_] []); [apply calls_unchecked | intros local; apply calls_ret].
Qed.

Lemma calls_runSection (tasks : list Task) : calls (runSection sup cmd cl tasks) [].
Proof.
  unfold runSection. destruct (nonEmpty (cmdRun cmd)); [|apply calls_ret].
  apply calls_appendCommandTask.
Qed.

Lemma calls_createTasks : calls (createTasks w sup cmd cl env) (expectedCalls cmd).
Proof.
  unfold createTasks, expectedCalls.
  apply calls_bind; [apply calls_checked | intros cwd].
  apply calls_bind; [apply calls_uploadLoop | intros t1].
  apply calls_bind; [apply calls_templateSection | intros t2].
  apply calls_bind; [apply calls_scriptSection | intros t3].
  rewrite <- (app_nil_r (localCalls cmd)).
  apply calls_bind; [apply calls_localSection | intros t4].
  rewrite <- (app_nil_r []).
  apply calls_bind; [apply calls_runSection | intros t5; apply calls_ret].
Qed.

End BuilderCalls.

(** X10: the calls [createTasks] makes are fixed by the command alone:
    the working directory once, then each upload source resolved and
    streamed once in entry order, the template opened, read and parsed once,
    the variable file opened, read and decoded once, the script opened and
    read once, the localhost client connected once.  A run that returns a
    task list has made exactly these calls, in this order, however many
    clients and batches there are; a run that does not has made the first
    few of them. *)
Theorem X10_calls_fixed_by_command (w : World) (sup : Stackup) (cmd : Command)
    (cl : list Client) (env : string) :
  (forall tasks, snd (createTasks w sup cmd cl env) = Val tasks ->
     map fst (fst (createTasks w sup cmd cl env)) = expectedCalls cmd)
  /\ exists rest,
       map fst (fst (createTasks w sup cmd cl env)) ++ rest = expectedCalls cmd.
Proof.
  pose proof (calls_createTasks w sup cmd cl env) as H.
  destruct (createTasks w sup cmd cl env) as [tr [tasks|e| |]]; cbn [fst snd calls] in *;
    split; try discriminate; try exact H.
  - intros _ _. exact H.
  - exists []. now rewrite app_nil_r.
Qed.

(** Seven clients in batches of two, every sub-kind populated: eleven
    calls, as for any other client list. *)
Example calls_of_a_full_command :
  map fst (fst (createTasks Demo.world Demo.sup (Demo.full "motd.tpl" "vars.yml" false 2)
                  (Demo.hosts 7) ""))
  = [CGetwd; CResolveLocalPath "app"; CNewTarStreamReader "app";
     COpenTemplate "motd.tpl"; CReadTemplate "motd.tpl"; CParseTemplate "motd.tpl";
     COpenVars "vars.yml"; CReadVars "vars.yml"; CUnmarshalVars "vars.yml";
     COpenScript "deploy.sh"; CReadScript "deploy.sh"; CConnect "localhost"].
Proof. vm_compute. reflexivity. Qed.

(** ** A template with no source or no destination *)

(** X9: unless both [Template.Src] and [Template.Dst] are set, the
    template part of the command is ignored, whatever its other fields say:
    the run of [createTasks] is the run for the same command without a
    template, call for call and task for task, and its calls are among
    those for the working directory, the uploads, the script and the local
    command: neither the template nor the variable file is opened. *)
Theorem X9_half_template_ignored (w : World) (sup : Stackup) (cmd : Command)
    (cl : list Client) (env : string) :
  templatePopulated cmd = false ->
  createTasks w sup cmd cl env
  = createTasks w sup (withTemplate cmd emptyTemplate) cl env
  /\ exists rest,
       map fst (fst (createTasks w sup cmd cl env)) ++ rest
       = [CGetwd] ++ flat_map uploadCalls (cmdUpload cmd) ++ scriptCalls cmd
         ++ localCalls cmd.
Proof.
  intros Hp. split.
  - unfold createTasks. apply bind_ext. intros cwd.
    change (cmdUpload (withTemplate cmd emptyTemplate)) with (cmdUpload cmd).
    assert (HU : forall ups tasks,
               uploadLoop w (withTemplate cmd emptyTemplate) cl env cwd ups tasks
               = uploadLoop w cmd cl env cwd ups tasks).
    { induction ups as [|u rest IH]; intros tasks; [reflexivity|].
      cbn [uploadLoop]. do 2 (apply bind_ext; intros ?).
      change (appendCommandTask (withTemplate cmd emptyTemplate))
        with (appendCommandTask cmd).
      apply bind_ext. exact IH. }
    rewrite HU. apply bind_ext. intros tasks1.
    assert (HT : templateSection w cmd cl tasks1 = ret tasks1).
    { unfold templateSection. unfold templatePopulated in Hp. now rewrite Hp. }
    rewrite HT. reflexivity.
  - assert (Hcalls : exists rest,
               map fst (fst (createTasks w sup cmd cl env)) ++ rest = expectedCalls cmd).
    { pose proof (calls_createTasks w sup cmd cl env) as H.
      destruct (createTasks w sup cmd cl env) as [tr [tasks|e| |]]; cbn [fst calls] in *;
        try exact H.
      exists []. now rewrite app_nil_r. }
    destruct Hcalls as [rest Hrest].
    exists rest. rewrite Hrest. unfold expectedCalls, templateCalls. now rewrite Hp.
Qed.

(** A template source that does not exist and a variable file that does not
    decode, but no destination: none of them is touched. *)
Lemma X9_half_template_ignored_witness :
  createTasks Demo.world Demo.sup Cases.halfTemplate (Demo.hosts 2) ""
  = createTasks Demo.world Demo.sup (withTemplate Cases.halfTemplate emptyTemplate)
      (Demo.hosts 2) ""
  /\ fst (createTasks Demo.world Demo.sup Cases.halfTemplate (Demo.hosts 2) "")
     = [(CGetwd, None)].
Proof.
  split; [|vm_compute; reflexivity].
  apply X9_half_template_ignored. reflexivity.
Defined.

(** ** Where the payload of a task comes from *)

Section BuilderPayload.

Variables (w : World) (sup : Stackup) (cmd : Command) (cl : list Client) (env : string).
Hypothesis Hrep : representable cmd cl.

Lemma post_appendCommandTask_any (task : CommandTask) (tasks : list Task) :
  post True (appendCommandTask cmd cl task tasks)
    (fun ts => ts = tasks ++ expandCommand cmd cl task).
Proof.
  eapply post_weaken; [|eapply post_mono; [apply (post_appendCommandTask cmd cl Hrep)|]].
  - exact (fun _ => I).
  - intros ts [H _]. exact H.
Qed.

Lemma post_appendTemplateTask_any (task : TemplateTask) (tasks : list Task) :
  post True (appendTemplateTask cmd cl task tasks)
    (fun ts => ts = tasks ++ expandTemplate cmd cl task).
Proof.
  eapply post_weaken; [|apply (post_appendTemplateTask cmd cl Hrep)]. contradiction.
Qed.

Lemma post_uploadLoop_payload (cwd : string) (uploads : list Upload) (tasks : list Task) :
  post True (uploadLoop w cmd cl env cwd uploads tasks)
    (fun ts => exists Us, ts = tasks ++ concat Us
                          /\ Forall2 (uploadPayload w cmd cl env cwd) uploads Us).
Proof.
  revert tasks. induction uploads as [|u rest IH]; intros tasks; cbn [uploadLoop].
  - apply post_ret. exists []. simpl. rewrite app_nil_r. split; [reflexivity | constructor].
  - apply post_bind, post_checked. intros path Hpath.
    apply post_bind, post_checked. intros rdr Hrdr.
    apply post_bind. eapply post_mono; [apply post_appendCommandTask_any|].
    intros ts ->. eapply post_mono; [apply IH|].
    intros ts' (Us & -> & HUs).
    eexists (_ :: Us). cbn [concat]. rewrite <- app_assoc.
    split; [reflexivity|]. constructor; [|exact HUs].
    now exists path, rdr.
Qed.

Lemma post_loadVars_payload : post True (loadVars w cmd) (varsPayload w cmd).
Proof.
  unfold loadVars, varsPayload. destruct (nonEmpty (tplVars (cmdTemplate cmd))).
  - apply post_bind, post_checked. intros f Hf.
    apply post_bind, post_checked. intros data Hdata.
    apply post_checked. intros vs Hvs. now exists f, data.
  - apply post_ret. reflexivity.
Qed.

Lemma post_templateSection_payload (tasks : list Task) :
  post True (templateSection w cmd cl tasks)
    (fun ts => exists T, ts = tasks ++ T /\ templatePayload w cmd cl T).
Proof.
  unfold templateSection, templatePayload, templatePopulated.
  destruct (nonEmpty (tplSrc (cmdTemplate cmd)) && nonEmpty (tplDst (cmdTemplate cmd))).
  - apply post_bind, post_checked. intros f Hf.
    apply post_bind, post_checked. intros data Hdata.
    apply post_bind, post_checked. intros tp Htp.
    apply post_bind. eapply post_mono; [apply post_loadVars_payload|].
    intros vs Hvs. eapply post_mono; [apply post_appendTemplateTask_any|].
    intros ts ->. eexists. split; [reflexivity|]. now exists f, data, tp, vs.
  - apply post_ret. exists []. now rewrite app_nil_r.
Qed.

Lemma post_scriptSection_payload (tasks : list Task) :
  post True (scriptSection w sup cmd cl tasks)
    (fun ts => exists S, ts = tasks ++ S /\ scriptPayload w sup cmd cl S).
Proof.
  unfold scriptSection, scriptPayload. destruct (nonEmpty (cmdScript cmd)).
  - apply post_bind, post_checked. intros f Hf.
    apply post_bind, post_checked. intros data Hdata.
    eapply post_mono; [apply post_appendCommandTask_any|].
    intros ts ->. eexists. split; [reflexivity|]. now exists f, data.
  - apply post_ret. exists []. now rewrite app_nil_r.
Qed.

Lemma post_createTasks_payload :
  post True (createTasks w sup cmd cl env) (payloadLayout w sup cmd cl env).
Proof.
  unfold createTasks.
  apply post_bind, post_checked. intros cwd Hcwd.
  apply post_bind. eapply post_mono; [apply post_uploadLoop_payload|].
  intros ts (Us & -> & HUs). cbn [app].
  apply post_bind. eapply post_mono; [apply post_templateSection_payload|].
  intros ts (T & -> & HT).
  apply post_bind. eapply post_mono; [apply post_scriptSection_payload|].
  intros ts (S & -> & HS).
  apply post_bind.
  eapply post_weaken; [|eapply post_mono; [apply post_localSection|]].
  { contradiction. }
  intros ts ->.
  apply post_bind.
  eapply post_mono; [unfold runSection, runGroup|].
  { instantiate (1 := fun ts => ts = ((concat Us ++ T) ++ S)
                                     ++ localGroup w sup cmd env ++ runGroup sup cmd cl).
    unfold runGroup. destruct (nonEmpty (cmdRun cmd)).
    - eapply post_mono; [apply post_appendCommandTask_any|].
      intros ts ->. now rewrite <- app_assoc.
    - apply post_ret. now rewrite app_nil_r. }
  intros ts ->. apply post_ret.
  exists cwd, Us, T, S. rewrite <- !app_assoc. now repeat split.
Qed.

(** The payload layout of a run that returns a task list. *)
Lemma createTasks_payload (tr : list event) (tasks : list Task) :
  createTasks w sup cmd cl env = (tr, Val tasks) -> payloadLayout w sup cmd cl env tasks.
Proof.
  intros Hrun. pose proof post_createTasks_payload as H.
  now rewrite Hrun in H.
Qed.

End BuilderPayload.

(** ** The copies of a prototype *)

Lemma Forall_expandCommand (P : Task -> Prop) (cmd : Command) (cl : list Client)
    (p : CommandTask) :
  (forall cs, P (TCommand (setClients p cs))) -> Forall P (expandCommand cmd cl p).
Proof.
  intros H. unfold expandCommand. rewrite List.Forall_map.
  apply List.Forall_forall. intros cs _. apply H.
Qed.

Lemma Forall_expandTemplate (P : Task -> Prop) (cmd : Command) (cl : list Client)
    (p : TemplateTask) :
  (forall cs, P (TTemplate (setTClients p cs))) -> Forall P (expandTemplate cmd cl p).
Proof.
  intros H. unfold expandTemplate. rewrite List.Forall_map.
  apply List.Forall_forall. intros cs _. apply H.
Qed.

Lemma run_withStdin_withDebug (sup : Stackup) (cmd : Command) (t : CommandTask) :
  run (withStdin cmd (withDebug sup t)) = debugPrefix sup +:+ run t.
Proof. unfold withStdin, withDebug, debugPrefix. now destruct (cmdStdin cmd), (debug sup). Qed.

Lemma input_withStdin_withDebug (sup : Stackup) (cmd : Command) (t : CommandTask) :
  input t = None -> input (withStdin cmd (withDebug sup t)) = stdinInput cmd.
Proof.
  intros H. unfold withStdin, withDebug, stdinInput.
  now destruct (cmdStdin cmd), (debug sup).
Qed.

Lemma Forall_localGroup (P : Task -> Prop) (w : World) (sup : Stackup) (cmd : Command)
    (env : string) :
  P (TCommand (localTask w sup cmd env)) -> Forall P (localGroup w sup cmd env).
Proof.
  intros H. unfold localGroup. destruct (nonEmpty (cmdLocal cmd)); repeat constructor.
  exact H.
Qed.

Lemma Forall_runGroup (P : Task -> Prop) (sup : Stackup) (cmd : Command)
    (cl : list Client) :
  (forall cs, P (TCommand (setClients (runProto sup cmd) cs))) ->
  Forall P (runGroup sup cmd cl).
Proof.
  intros H. unfold runGroup. destruct (nonEmpty (cmdRun cmd)); [|constructor].
  now apply Forall_expandCommand.
Qed.

Lemma Forall2_uploadPayload_impl (w : World) (cmd : Command) (cl : list Client)
    (env cwd : string) (Q : Upload -> list Task -> Prop)
    (ups : list Upload) (Us : list (list Task)) :
  (forall u g, uploadPayload w cmd cl env cwd u g -> Q u g) ->
  Forall2 (uploadPayload w cmd cl env cwd) ups Us -> Forall2 Q ups Us.
Proof. intros HQ H. induction H; constructor; auto. Qed.

(** A group with its payload is a group of its sub-kind. *)
Lemma uploadPayload_groups (w : World) (cmd : Command) (cl : list Client)
    (env cwd : string) (ups : list Upload) (Us : list (list Task)) :
  Forall2 (uploadPayload w cmd cl env cwd) ups Us ->
  Forall2 (uploadGroup w cmd cl) ups Us.
Proof.
  apply Forall2_uploadPayload_impl. intros u g (path & rdr & _ & _ & ->).
  now exists rdr.
Qed.

Lemma templatePayload_group (w : World) (cmd : Command) (cl : list Client)
    (T : list Task) :
  templatePayload w cmd cl T -> templateGroup cmd cl T.
Proof.
  unfold templatePayload, templateGroup, templatePopulated.
  destruct (nonEmpty (tplSrc (cmdTemplate cmd)) && nonEmpty (tplDst (cmdTemplate cmd)));
    [|exact (fun H => H)].
  intros (f & data & tp & vs & _ & _ & _ & _ & ->). now exists tp, vs.
Qed.

Lemma scriptPayload_group (w : World) (sup : Stackup) (cmd : Command)
    (cl : list Client) (S : list Task) :
  scriptPayload w sup cmd cl S -> scriptGroup sup cmd cl S.
Proof.
  unfold scriptPayload, scriptGroup.
  destruct (nonEmpty (cmdScript cmd)); [|exact (fun H => H)].
  intros (f & data & _ & _ & ->). now exists data.
Qed.

(** ** Command lines *)

(** X11: a task list returned by [createTasks] is the groups of the upload
    entries, in entry order, then the template group, the script group, the
    local group and the remote command group, each group being the copies
    of the one task built for it from what the calls answered.  The command
    line of every task of an upload entry is the extraction command for the
    destination of that entry, and the command line of every template task
    is [cat > ] followed by the shell-quoted destination; debug mode changes
    neither.  The command line of every script task is the content of the
    script file, that of the local task the [Local] string and that of
    every remote command task the [Run] string, each preceded by [set -x;]
    in debug mode and by nothing otherwise. *)
Theorem X11_command_lines (w : World) (sup : Stackup) (cmd : Command)
    (cl : list Client) (env : string) (tr : list event) (tasks : list Task) :
  representable cmd cl ->
  createTasks w sup cmd cl env = (tr, Val tasks) ->
  exists cwd Us T S,
    os_Getwd w = Ok cwd
    /\ tasks = concat Us ++ T ++ S ++ localGroup w sup cmd env ++ runGroup sup cmd cl
    /\ Forall2 (uploadPayload w cmd cl env cwd) (cmdUpload cmd) Us
    /\ templatePayload w cmd cl T
    /\ scriptPayload w sup cmd cl S
    /\ Forall2 (fun u g => Forall (fun t => Run w t = RemoteTarCommand w (upDst u)) g)
         (cmdUpload cmd) Us
    /\ Forall (fun t => Run w t
                        = "cat > " +:+ shellescape_Quote w (tplDst (cmdTemplate cmd))) T
    /\ Forall (fun t => exists f data,
                          os_Open w (cmdScript cmd) = Ok f
                          /\ ioutil_ReadAll w f = Ok data
                          /\ Run w t = debugPrefix sup +:+ data) S
    /\ Forall (fun t => Run w t = debugPrefix sup +:+ cmdLocal cmd)
         (localGroup w sup cmd env)
    /\ Forall (fun t => Run w t = debugPrefix sup +:+ cmdRun cmd) (runGroup sup cmd cl).
Proof.
  intros Hrep Hrun.
  destruct (createTasks_payload w sup cmd cl env Hrep tr tasks Hrun)
    as (cwd & Us & T & S & Hcwd & -> & HUs & HT & HS).
  exists cwd, Us, T, S.
  split; [exact Hcwd|]. split; [reflexivity|]. split; [exact HUs|].
  split; [exact HT|]. split; [exact HS|].
  split; [|split; [|split; [|split]]].
  - eapply Forall2_uploadPayload_impl; [|exact HUs].
    intros u g (path & rdr & _ & _ & ->). now apply Forall_expandCommand.
  - unfold templatePayload in HT. destruct (templatePopulated cmd).
    + destruct HT as (f & data & tp & vs & _ & _ & _ & _ & ->).
      now apply Forall_expandTemplate.
    + subst. constructor.
  - unfold scriptPayload in HS. destruct (nonEmpty (cmdScript cmd)).
    + destruct HS as (f & data & Hf & Hdata & ->).
      apply Forall_expandCommand. intros cs. exists f, data.
      split; [exact Hf|]. split; [exact Hdata|]. cbn. unfold scriptProto.
      now rewrite run_withStdin_withDebug.
    + subst. constructor.
  - apply Forall_localGroup. cbn. unfold localTask.
    now rewrite run_withStdin_withDebug.
  - apply Forall_runGroup. intros cs. cbn. unfold runProto.
    now rewrite run_withStdin_withDebug.
Qed.

(** Debug mode, every sub-kind populated, three clients in batches of
    two. *)
Lemma X11_command_lines_witness :
  exists tr tasks,
    createTasks Demo.world Cases.debugging (Demo.full "motd.tpl" "" false 2)
      (Demo.hosts 3) ""
    = (tr, Val tasks)
    /\ map (Run Demo.world) tasks
       = ["tar -C /srv/app -xzf -"; "tar -C /srv/app -xzf -";
          "cat > '/etc/motd'"; "cat > '/etc/motd'";
          "set -x;<deploy.sh>"; "set -x;<deploy.sh>"; "set -x;echo hi";
          "set -x;uptime"; "set -x;uptime"]
    /\ Forall (fun t => Run Demo.world t = "set -x;uptime")
         (runGroup Cases.debugging (Demo.full "motd.tpl" "" false 2) (Demo.hosts 3)).
Proof.
  assert (Hrep : representable (Demo.full "motd.tpl" "" false 2) (Demo.hosts 3))
    by (split; vm_compute; discriminate).
  eexists _, _. split; [vm_compute; reflexivity|]. split; [vm_compute; reflexivity|].
  destruct (X11_command_lines Demo.world Cases.debugging (Demo.full "motd.tpl" "" false 2)
              (Demo.hosts 3) "" _ _ Hrep ltac:(vm_compute; reflexivity))
    as (cwd & Us & T & S & _ & _ & _ & _ & _ & _ & _ & _ & _ & HR).
  exact HR.
Defined.

(** ** Inputs *)

(** X12: a task list returned by [createTasks] is the groups of the upload
    entries, in entry order, then the template group, the script group, the
    local group and the remote command group, each group being the copies
    of the one task built for it from what the calls answered.  Every task
    of an upload entry, in every batch, has as its input the one tar stream
    opened for that entry: on the source as resolved for the working
    directory and the environment, with the exclusions of the entry;
    [Stdin] does not replace it.  The template group holds the
    [TemplateTask]s of the list, all of them and nothing else: they have no
    static input.  Every script, local and remote command task has the
    standard input of the process as its input when [Stdin] is set, and
    none otherwise. *)
Theorem X12_inputs (w : World) (sup : Stackup) (cmd : Command)
    (cl : list Client) (env : string) (tr : list event) (tasks : list Task) :
  representable cmd cl ->
  createTasks w sup cmd cl env = (tr, Val tasks) ->
  exists cwd Us T S,
    os_Getwd w = Ok cwd
    /\ tasks = concat Us ++ T ++ S ++ localGroup w sup cmd env ++ runGroup sup cmd cl
    /\ Forall2 (uploadPayload w cmd cl env cwd) (cmdUpload cmd) Us
    /\ templatePayload w cmd cl T
    /\ scriptPayload w sup cmd cl S
    /\ Forall2 (fun u g =>
                  exists path rdr,
                    ResolveLocalPath w cwd (upSrc u) env = Ok path
                    /\ NewTarStreamReader w cwd path (upExc u) = Ok rdr
                    /\ Forall (fun t => staticInput t = Some rdr) g)
         (cmdUpload cmd) Us
    /\ List.filter isTemplateTask tasks = T
    /\ Forall (fun t => isTemplateTask t = true /\ staticInput t = None) T
    /\ Forall (fun t => isTemplateTask t = false /\ staticInput t = stdinInput cmd)
         (S ++ localGroup w sup cmd env ++ runGroup sup cmd cl).
Proof.
  intros Hrep Hrun.
  destruct (createTasks_payload w sup cmd cl env Hrep tr tasks Hrun)
    as (cwd & Us & T & S & Hcwd & -> & HUs & HT & HS).
  exists cwd, Us, T, S.
  split; [exact Hcwd|]. split; [reflexivity|]. split; [exact HUs|].
  split; [exact HT|]. split; [exact HS|].
  split; [|split; [|split]].
  - eapply Forall2_uploadPayload_impl; [|exact HUs].
    intros u g (path & rdr & Hp & Hr & ->). exists path, rdr.
    split; [exact Hp|]. split; [exact Hr|]. now apply Forall_expandCommand.
  - apply filter_template_layout;
      [eapply uploadPayload_groups; exact HUs
      | now apply (templatePayload_group w) | now apply (scriptPayload_group w)].
  - unfold templatePayload in HT. destruct (templatePopulated cmd).
    + destruct HT as (f & data & tp & vs & _ & _ & _ & _ & ->).
      now apply Forall_expandTemplate.
    + subst. constructor.
  - rewrite !List.Forall_app. split; [|split].
    + unfold scriptPayload in HS. destruct (nonEmpty (cmdScript cmd)).
      * destruct HS as (f & data & _ & _ & ->). apply Forall_expandCommand.
        intros cs. split; [reflexivity|]. cbn. unfold scriptProto.
        now apply input_withStdin_withDebug.
      * subst. constructor.
    + apply Forall_localGroup. split; [reflexivity|]. cbn. unfold localTask.
      now apply input_withStdin_withDebug.
    + apply Forall_runGroup. intros cs. split; [reflexivity|]. cbn. unfold runProto.
      now apply input_withStdin_withDebug.
Qed.

(** [Stdin] set, three clients in batches of two. *)
Lemma X12_inputs_witness :
  exists tr tasks,
    createTasks Demo.world Demo.sup (Cases.withInput 2) (Demo.hosts 3) ""
    = (tr, Val tasks)
    /\ map staticInput tasks
       = [Some (TarStream "/home/op" "/home/op/app" "");
          Some (TarStream "/home/op" "/home/op/app" "");
          None; None;
          Some os_Stdin; Some os_Stdin; Some os_Stdin; Some os_Stdin; Some os_Stdin]
    /\ map isTemplateTask tasks
       = [false; false; true; true; false; false; false; false; false]
    /\ Forall (fun t => isTemplateTask t = false /\ staticInput t = Some os_Stdin)
         (runGroup Demo.sup (Cases.withInput 2) (Demo.hosts 3)).
Proof.
  assert (Hrep : representable (Cases.withInput 2) (Demo.hosts 3))
    by (split; vm_compute; discriminate).
  eexists _, _. split; [vm_compute; reflexivity|].
  destruct (X12_inputs Demo.world Demo.sup (Cases.withInput 2)
              (Demo.hosts 3) "" _ _ Hrep ltac:(vm_compute; reflexivity))
    as (cwd & Us & T & S & _ & _ & _ & _ & _ & _ & _ & _ & H).
  split; [vm_compute; reflexivity|]. split; [vm_compute; reflexivity|].
  rewrite !List.Forall_app in H. exact (proj2 (proj2 H)).
Defined.

(** ** Terminals *)

(** X13: in a task list returned by [createTasks], no task of an upload
    entry and no template task asks for a terminal, and every script, local
    and remote command task does. *)
Theorem X13_tty_by_sub_kind (w : World) (sup : Stackup) (cmd : Command)
    (cl : list Client) (env : string) (tr : list event) (tasks : list Task) :
  representable cmd cl ->
  createTasks w sup cmd cl env = (tr, Val tasks) ->
  exists Us T S,
    tasks = concat Us ++ T ++ S ++ localGroup w sup cmd env ++ runGroup sup cmd cl
    /\ Forall2 (uploadGroup w cmd cl) (cmdUpload cmd) Us
    /\ templateGroup cmd cl T
    /\ scriptGroup sup cmd cl S
    /\ Forall (fun t => TTY t = false) (concat Us ++ T)
    /\ Forall (fun t => TTY t = true)
         (S ++ localGroup w sup cmd env ++ runGroup sup cmd cl).
Proof.
  intros Hrep Hrun.
  pose proof (post_createTasks w sup cmd cl env Hrep) as Hpost.
  rewrite Hrun in Hpost. simpl in Hpost.
  destruct Hpost as (Us & T & S & -> & HUs & HT & HS & _).
  exists Us, T, S.
  split; [reflexivity|]. split; [exact HUs|]. split; [exact HT|]. split; [exact HS|].
  split; rewrite !List.Forall_app.
  - split.
    + clear HT HS Hrun. induction HUs as [|u g ups Us [rdr ->] _ IH]; [constructor|].
      cbn [concat]. apply List.Forall_app. split; [|exact IH].
      now apply Forall_expandCommand.
    + unfold templateGroup in HT.
      destruct (nonEmpty (tplSrc (cmdTemplate cmd)) && nonEmpty (tplDst (cmdTemplate cmd))).
      * destruct HT as (t & vs & ->). now apply Forall_expandTemplate.
      * subst. constructor.
  - split; [|split].
    + unfold scriptGroup in HS. destruct (nonEmpty (cmdScript cmd)).
      * destruct HS as (data & ->). apply Forall_expandCommand.
        intros cs. cbn. unfold scriptProto. now rewrite tty_withStdin_withDebug.
      * subst. constructor.
    + apply Forall_localGroup. cbn. unfold localTask.
      now rewrite tty_withStdin_withDebug.
    + apply Forall_runGroup. intros cs. cbn. unfold runProto.
      now rewrite tty_withStdin_withDebug.
Qed.

Lemma X13_tty_by_sub_kind_witness :
  exists tr tasks,
    createTasks Demo.world Demo.sup (Demo.full "motd.tpl" "" false 2) (Demo.hosts 3) ""
    = (tr, Val tasks)
    /\ map TTY tasks = [false; false; false; false; true; true; true; true; true]
    /\ Forall (fun t => TTY t = true)
         (runGroup Demo.sup (Demo.full "motd.tpl" "" false 2) (Demo.hosts 3)).
Proof.
  assert (Hrep : representable (Demo.full "motd.tpl" "" false 2) (Demo.hosts 3))
    by (split; vm_compute; discriminate).
  eexists _, _. split; [vm_compute; reflexivity|].
  destruct (X13_tty_by_sub_kind Demo.world Demo.sup (Demo.full "motd.tpl" "" false 2)
              (Demo.hosts 3) "" _ _ Hrep ltac:(vm_compute; reflexivity))
    as (Us & T & S & _ & _ & _ & _ & _ & H).
  split; [vm_compute; reflexivity|].
  rewrite !List.Forall_app in H. exact (proj2 (proj2 H)).
Defined.

(** ** The template and its variables *)

(** X14: in a task list returned by [createTasks] for a populated
    template, every template task, in every batch, holds the same template:
    the content of the source file, parsed once under the name [tpl]; the
    same destination; and the same variable mapping: what the decoder makes
    of the content of the variable file starting from the empty mapping, or
    the empty mapping when no variable file is named. *)
Theorem X14_template_shared (w : World) (sup : Stackup) (cmd : Command)
    (cl : list Client) (env : string) (tr : list event) (tasks : list Task) :
  representable cmd cl -> templatePopulated cmd = true ->
  createTasks w sup cmd cl env = (tr, Val tasks) ->
  exists f data tp vs,
    os_Open w (tplSrc (cmdTemplate cmd)) = Ok f
    /\ ioutil_ReadAll w f = Ok data
    /\ template_Parse w "tpl" data = Ok tp
    /\ varsPayload w cmd vs
    /\ Forall (fun t => exists tt, t = TTemplate tt /\ tmpl tt = tp
                                   /\ dst tt = tplDst (cmdTemplate cmd) /\ vars tt = vs)
         (List.filter isTemplateTask tasks)
    /\ map Clients (List.filter isTemplateTask tasks)
       = clientGroups false (cmdSerial cmd) cl.
Proof.
  intros Hrep Hp Hrun.
  pose proof (post_createTasks w sup cmd cl env Hrep) as Hpost.
  rewrite Hrun in Hpost. simpl in Hpost.
  destruct Hpost as (Us' & T' & S' & Heq & HUs' & HT' & HS' & _).
  pose proof (filter_template_layout w sup cmd cl env Us' T' S' HUs' HT' HS') as Hfilter.
  rewrite <- Heq in Hfilter.
  destruct (createTasks_payload w sup cmd cl env Hrep tr tasks Hrun)
    as (cwd & Us & T & S & Hcwd & Heq2 & HUs & HT & HS).
  assert (HTT : T' = T).
  { rewrite <- Hfilter, Heq2. rewrite !List.filter_app.
    assert (HUf : List.filter isTemplateTask (concat Us) = []).
    { clear -HUs. induction HUs as [|u g ups Us (path & rdr & _ & _ & ->) _ IH];
        [reflexivity|].
      cbn [concat]. now rewrite List.filter_app, filter_template_expandCommand, IH. }
    assert (HSf : List.filter isTemplateTask S = []).
    { unfold scriptPayload in HS. destruct (nonEmpty (cmdScript cmd)).
      - destruct HS as (f & data & _ & _ & ->). apply filter_template_expandCommand.
      - now subst. }
    assert (HLf : List.filter isTemplateTask (localGroup w sup cmd env) = []).
    { unfold localGroup. now destruct (nonEmpty (cmdLocal cmd)). }
    assert (HRf : List.filter isTemplateTask (runGroup sup cmd cl) = []).
    { unfold runGroup. destruct (nonEmpty (cmdRun cmd)); [|reflexivity].
      apply filter_template_expandCommand. }
    rewrite HUf, HSf, HLf, HRf. cbn [app]. rewrite app_nil_r.
    unfold templatePayload in HT. rewrite Hp in HT.
    destruct HT as (f & data & tp & vs & _ & _ & _ & _ & ->).
    apply filter_template_expandTemplate. }
  rewrite Hfilter, HTT.
  unfold templatePayload in HT. rewrite Hp in HT.
  destruct HT as (f & data & tp & vs & Hf & Hdata & Htp & Hvs & ->).
  exists f, data, tp, vs.
  split; [exact Hf|]. split; [exact Hdata|]. split; [exact Htp|]. split; [exact Hvs|].
  split; [|apply map_Clients_expandTemplate].
  apply Forall_expandTemplate. intros cs. eexists. split; [reflexivity|]. now repeat split.
Qed.

(** A variable file, three clients in batches of two: two template tasks,
    one template, one mapping. *)
Lemma X14_template_shared_witness :
  exists tr tasks tp vs,
    createTasks Demo.world Demo.sup (Demo.templateOnly "vars.yml" false 2) (Demo.hosts 3) ""
    = (tr, Val tasks)
    /\ template_Parse Demo.world "tpl" "<motd.tpl>" = Ok tp
    /\ yaml_Unmarshal Demo.world "<vars.yml>" ∅ = Ok vs
    /\ tasks = [TTemplate {| tmpl := tp; dst := "/etc/motd"; vars := vs;
                             tclients := [RemoteClient 0; RemoteClient 1] |};
                TTemplate {| tmpl := tp; dst := "/etc/motd"; vars := vs;
                             tclients := [RemoteClient 2] |}]
    /\ map Clients (List.filter isTemplateTask tasks)
       = clientGroups false 2 (Demo.hosts 3).
Proof.
  assert (Hrep : representable (Demo.templateOnly "vars.yml" false 2) (Demo.hosts 3))
    by (split; vm_compute; discriminate).
  eexists _, _, _, _. split; [vm_compute; reflexivity|].
  destruct (X14_template_shared Demo.world Demo.sup (Demo.templateOnly "vars.yml" false 2)
              (Demo.hosts 3) "" _ _ Hrep eq_refl ltac:(vm_compute; reflexivity))
    as (f & data & tp & vs & _ & _ & _ & _ & _ & H).
  split; [reflexivity|]. split; [reflexivity|]. split; [reflexivity|]. exact H.
Defined.

(** ** The number of tasks *)

Lemma length_clientGroups (once : bool) (serial : Z) (cl : list Client) :
  ~ (once = true /\ cl = []) ->
  length (clientGroups once serial cl) = groupCount once serial cl.
Proof.
  intros H. unfold clientGroups, groupCount. destruct once.
  - destruct cl; [exfalso; now apply H | reflexivity].
  - destruct (serial >? 0) eqn:E; [|reflexivity].
    apply Z.gtb_lt in E. apply chunks_length. lia.
Qed.

Lemma length_expandCommand (cmd : Command) (cl : list Client) (p : CommandTask) :
  ~ indexesEmpty cmd cl ->
  length (expandCommand cmd cl p) = groupCount (cmdOnce cmd) (cmdSerial cmd) cl.
Proof.
  intros H. unfold expandCommand. rewrite length_map. now apply length_clientGroups.
Qed.

Lemma length_expandTemplate (cmd : Command) (cl : list Client) (p : TemplateTask) :
  length (expandTemplate cmd cl p) = groupCount false (cmdSerial cmd) cl.
Proof.
  unfold expandTemplate. rewrite length_map. apply length_clientGroups.
  intros [H _]. discriminate.
Qed.

Lemma length_uploadGroups (w : World) (cmd : Command) (cl : list Client)
    (ups : list Upload) (Us : list (list Task)) :
  ~ indexesEmpty cmd cl ->
  Forall2 (uploadGroup w cmd cl) ups Us ->
  length (concat Us) = (length ups * groupCount (cmdOnce cmd) (cmdSerial cmd) cl)%nat.
Proof.
  intros Hne H. induction H as [|u g ups Us [rdr ->] _ IH]; [reflexivity|].
  cbn [concat length]. rewrite length_app, IH, length_expandCommand by exact Hne. lia.
Qed.

(** X15: a task list returned by [createTasks] has one copy of every
    command prototype (one per upload entry, one for the script, one for
    the remote command) per client group of the policy, one copy of the
    template per client group of the policy without [Once], and one local
    task.  A policy has one group under [Once], [ceil(L/N)] groups under
    [Serial = N > 0], and one group otherwise. *)
Theorem X15_task_count (w : World) (sup : Stackup) (cmd : Command)
    (cl : list Client) (env : string) (tr : list event) (tasks : list Task) :
  representable cmd cl ->
  createTasks w sup cmd cl env = (tr, Val tasks) ->
  length tasks
  = ((length (cmdUpload cmd) + count (nonEmpty (cmdScript cmd))
      + count (nonEmpty (cmdRun cmd)))
     * groupCount (cmdOnce cmd) (cmdSerial cmd) cl
     + count (templatePopulated cmd) * groupCount false (cmdSerial cmd) cl
     + count (nonEmpty (cmdLocal cmd)))%nat.
Proof.
  intros Hrep Hrun.
  pose proof (post_createTasks w sup cmd cl env Hrep) as Hpost.
  rewrite Hrun in Hpost. simpl in Hpost.
  destruct Hpost as (Us & T & S & -> & HUs & HT & HS & Hsafe).
  rewrite !length_app.
  assert (HTl : length T
                = (count (templatePopulated cmd) * groupCount false (cmdSerial cmd) cl)%nat).
  { unfold templateGroup, templatePopulated in *.
    destruct (nonEmpty (tplSrc (cmdTemplate cmd)) && nonEmpty (tplDst (cmdTemplate cmd))).
    - destruct HT as (t & vs & ->). rewrite length_expandTemplate. simpl. lia.
    - now subst. }
  assert (HLl : length (localGroup w sup cmd env) = count (nonEmpty (cmdLocal cmd))).
  { unfold localGroup. now destruct (nonEmpty (cmdLocal cmd)). }
  rewrite HTl, HLl.
  assert (HUl : length (concat Us)
                = (length (cmdUpload cmd)
                   * groupCount (cmdOnce cmd) (cmdSerial cmd) cl)%nat).
  { destruct (cmdUpload cmd) as [|u0 ups] eqn:EU.
    - inversion HUs; subst. reflexivity.
    - rewrite <- EU in *. apply (length_uploadGroups w cmd cl _ _); [|exact HUs].
      apply Hsafe. left. rewrite EU. discriminate. }
  assert (HSl : length S
                = (count (nonEmpty (cmdScript cmd))
                   * groupCount (cmdOnce cmd) (cmdSerial cmd) cl)%nat).
  { unfold scriptGroup in HS. destruct (nonEmpty (cmdScript cmd)) eqn:ES.
    - destruct HS as (data & ->). rewrite length_expandCommand; [simpl; lia|].
      apply Hsafe. right. now left.
    - now subst. }
  assert (HRl : length (runGroup sup cmd cl)
                = (count (nonEmpty (cmdRun cmd))
                   * groupCount (cmdOnce cmd) (cmdSerial cmd) cl)%nat).
  { unfold runGroup. destruct (nonEmpty (cmdRun cmd)) eqn:ER; [|reflexivity].
    rewrite length_expandCommand; [simpl; lia|].
    apply Hsafe. right. now right. }
  rewrite HUl, HSl, HRl. lia.
Qed.

(** One upload entry, a template, a script, a local and a remote command
    on seven clients in batches of three: [3 * 3 + 3 + 1] tasks. *)
Lemma X15_task_count_witness :
  exists tr tasks,
    createTasks Demo.world Demo.sup (Demo.full "motd.tpl" "" false 3) (Demo.hosts 7) ""
    = (tr, Val tasks)
    /\ length tasks = 13%nat
    /\ length tasks
       = ((1 + 1 + 1) * groupCount false 3 (Demo.hosts 7)
          + 1 * groupCount false 3 (Demo.hosts 7) + 1)%nat.
Proof.
  assert (Hrep : representable (Demo.full "motd.tpl" "" false 3) (Demo.hosts 7))
    by (split; vm_compute; discriminate).
  eexists _, _. split; [vm_compute; reflexivity|]. split; [reflexivity|].
  exact (X15_task_count Demo.world Demo.sup (Demo.full "motd.tpl" "" false 3)
           (Demo.hosts 7) "" _ _ Hrep ltac:(vm_compute; reflexivity)).
Defined.

(** ** Rendering for one client after the other *)

Section RenderEach.

Variables (w : World) (t : TemplateTask).








End RenderEach.


(** Three clients, one buffer that was there before. *)
Example render_three_clients :
  let out := renderEach Demo.world Cases.motd (Demo.hosts 3) {[ 0%nat := "old" ]} ∅ in
  rsReaders out = [Ok (BufferPtr 1); Ok (BufferPtr 2); Ok (BufferPtr 3)]
  /\ rsHeap out !! 0%nat = Some "old" /\ rsHeap out !! 1%nat = Some "motd@0"
  /\ rsHeap out !! 2%nat = Some "motd@1" /\ rsHeap out !! 3%nat = Some "motd@2".
Proof. vm_compute. repeat split. Qed.

(** The same client three times, with a template that counts. *)
Example render_counts :
  let out := renderEach Cases.countingWorld Cases.motd
               [RemoteClient 0; RemoteClient 0; RemoteClient 0] ∅ ∅ in
  rsReaders out = [Ok (BufferPtr 0); Ok (BufferPtr 1); Ok (BufferPtr 2)]
  /\ rsHeap out !! 0%nat = Some "n=1" /\ rsHeap out !! 1%nat = Some "n=2"
  /\ rsHeap out !! 2%nat = Some "n=3" /\ rsObjects out !! 0%nat = Some 3%nat.
Proof. vm_compute. repeat split. Qed.

(** * The older text of the builder *)

(** ** Its monad *)

Lemma bindO_ext {A B : Type} (m : MO A) (f g : A -> MO B) (h : gmap nat string) :
  (forall a h', f a h' = g a h') -> bindO m f h = bindO m g h.
Proof.
  intros H. unfold bindO. destruct (m h) as [[h1 t1] [a|e| |]]; try reflexivity.
  now rewrite H.
Qed.

Lemma bindO_retO {A B : Type} (a : A) (f : A -> MO B) (h : gmap nat string) :
  bindO (retO a) f h = f a h.
Proof. unfold bindO, retO. now destruct (f a h) as [[h2 t2] r]. Qed.

Lemma liftO_ret {A : Type} (a : A) (h : gmap nat string) : liftO (ret a) h = retO a h.
Proof. reflexivity. Qed.

Lemma liftO_bind {A B : Type} (m : M A) (f : A -> M B) (h : gmap nat string) :
  liftO (bind m f) h = bindO (liftO m) (fun a => liftO (f a)) h.
Proof.
  unfold liftO, bindO. destruct m as [t1 [a|e| |]]; cbn [bind fst snd]; try reflexivity.
  destruct (f a) as [t2 r]. cbn [fst snd]. now rewrite List.map_app.
Qed.

Lemma bindO_Val {A B : Type} (m : MO A) (f : A -> MO B)
    (h h' : gmap nat string) (tr : list oldEvent) (b : B) :
  bindO m f h = (h', tr, Val b) ->
  exists h1 t1 a t2,
    m h = (h1, t1, Val a) /\ f a h1 = (h', t2, Val b) /\ tr = t1 ++ t2.
Proof.
  unfold bindO. destruct (m h) as [[h1 t1] [a|e| |]]; try discriminate.
  destruct (f a h1) as [[h2 t2] r] eqn:E. intros H. inversion H; subst.
  now exists h1, t1, a, t2.
Qed.

Lemma liftO_Val {A : Type} (m : M A) (h h' : gmap nat string)
    (tr : list oldEvent) (a : A) :
  liftO m h = (h', tr, Val a) ->
  h' = h /\ m = (fst m, Val a) /\ tr = map liftEvent (fst m).
Proof.
  unfold liftO. destruct m as [t r]. cbn [fst snd]. intros H. inversion H; subst.
  now repeat split.
Qed.

(** ** Without a template the two texts agree *)

(** X17: for a command whose template is not populated, the older text
    of [createTasks] does what the newer one does: the same calls with the
    same answers, the same tasks or the same error or panic, and the heap of
    buffers is left as it was. *)
Theorem X17_texts_agree_without_template (ow : OldWorld) (sup : Stackup) (cmd : Command)
    (cl : list Client) (env : string) (h : gmap nat string) :
  templatePopulated cmd = false ->
  oldCreateTasks ow sup cmd cl env h
  = (h, map liftEvent (fst (createTasks (owBase ow) sup cmd cl env)),
     snd (createTasks (owBase ow) sup cmd cl env)).
Proof.
  intros Hp.
  change (oldCreateTasks ow sup cmd cl env h
          = liftO (createTasks (owBase ow) sup cmd cl env) h).
  unfold oldCreateTasks, createTasks.
  rewrite liftO_bind. apply bindO_ext. intros cwd h1.
  rewrite liftO_bind. apply bindO_ext. intros t1 h2.
  assert (HTo : forall h', oldTemplateSection ow cmd cl t1 h' = retO t1 h').
  { intros h'. unfold oldTemplateSection. unfold templatePopulated in Hp. now rewrite Hp. }
  assert (HTn : templateSection (owBase ow) cmd cl t1 = ret t1).
  { unfold templateSection. unfold templatePopulated in Hp. now rewrite Hp. }
  rewrite HTn, bind_ret.
  transitivity (bindO (retO t1)
                  (fun tasks =>
                     doo tasks0 <- liftO (scriptSection (owBase ow) sup cmd cl tasks);
                     doo tasks1 <- liftO (localSection (owBase ow) sup cmd env tasks0);
                     doo tasks2 <- liftO (runSection sup cmd cl tasks1);
                     retO tasks2) h2).
  { unfold bindO at 1. unfold bindO at 4. now rewrite HTo. }
  rewrite bindO_retO.
  rewrite liftO_bind. apply bindO_ext. intros t3 h3.
  rewrite liftO_bind. apply bindO_ext. intros t4 h4.
  rewrite liftO_bind. apply bindO_ext. intros t5 h5.
  reflexivity.
Qed.

(** An upload, a script, a local and a remote command, no template. *)
Lemma X17_texts_agree_without_template_witness :
  oldCreateTasks Cases.oldWorld Demo.sup
    (withTemplate (Demo.full "" "" false 2) emptyTemplate) (Demo.hosts 3) "" ∅
  = (∅,
     map liftEvent
       (fst (createTasks (owBase Cases.oldWorld) Demo.sup
               (withTemplate (Demo.full "" "" false 2) emptyTemplate) (Demo.hosts 3) "")),
     snd (createTasks (owBase Cases.oldWorld) Demo.sup
            (withTemplate (Demo.full "" "" false 2) emptyTemplate) (Demo.hosts 3) ""))
  /\ option_map (fun r => length (fst r))
       (go_return (snd (oldCreateTasks Cases.oldWorld Demo.sup
                          (withTemplate (Demo.full "" "" false 2) emptyTemplate)
                          (Demo.hosts 3) "" ∅)))
     = Some 7%nat.
Proof.
  split; [|vm_compute; reflexivity].
  apply X17_texts_agree_without_template. reflexivity.
Defined.

(** ** The template of the older text *)

Lemma checked_Val {A : Type} (c : call) (r : result A) (msg : string)
    (t : list event) (a : A) :
  checked c r msg = (t, Val a) -> r = Ok a.
Proof. destruct r; simpl; intros H; inversion H; reflexivity. Qed.

Lemma liftO_checked_Val {A : Type} (c : call) (r : result A) (msg : string)
    (h h' : gmap nat string) (tr : list oldEvent) (a : A) :
  liftO (checked c r msg) h = (h', tr, Val a) -> h' = h /\ r = Ok a.
Proof.
  intros H. apply liftO_Val in H as (-> & H & _). split; [reflexivity|].
  eapply checked_Val. exact H.
Qed.

Lemma appendOldTemplateTask_spec (cmd : Command) (cl : list Client)
    (task : CommandTask) (tasks : list Task) :
  representable cmd cl ->
  appendOldTemplateTask cmd cl task tasks
  = ret (tasks ++ map (fun cs => TCommand (setClients task cs))
                    (clientGroups false (cmdSerial cmd) cl)).
Proof.
  intros Hrep. unfold appendOldTemplateTask, clientGroups.
  destruct (cmdSerial cmd >? 0) eqn:E; [|reflexivity].
  apply serialLoop_from_zero; [assumption | lia].
Qed.

Lemma oldTemplateSection_Val (ow : OldWorld) (cmd : Command) (cl : list Client)
    (tasks tasks' : list Task) (h h' : gmap nat string) (tr : list oldEvent) :
  representable cmd cl -> templatePopulated cmd = true ->
  oldTemplateSection ow cmd cl tasks h = (h', tr, Val tasks') ->
  exists f data tp,
    os_Open (owBase ow) (tplSrc (cmdTemplate cmd)) = Ok f
    /\ ioutil_ReadAll (owBase ow) f = Ok data
    /\ template_Parse (owBase ow) "tpl" data = Ok tp
    /\ snd (template_ExecuteNil ow tp) = None
    /\ h' = <[fresh (dom h) := fst (template_ExecuteNil ow tp)]>
              (<[fresh (dom h) := ""]> h)
    /\ tasks' = tasks ++ oldTemplateTasks cmd cl (fresh (dom h)).
Proof.
  intros Hrep Hp H. unfold oldTemplateSection in H.
  unfold templatePopulated in Hp. rewrite Hp in H.
  apply bindO_Val in H as (h1 & t1 & b & t2 & Hb & H & _).
  unfold newBuffer in Hb. inversion Hb; subst h1 t1 b. clear Hb.
  apply bindO_Val in H as (h1 & t1 & u & t3 & Hpr & H & _).
  unfold printfTemplate in Hpr. inversion Hpr; subst h1. clear Hpr.
  apply bindO_Val in H as (h1 & t4 & f & t5 & Hf & H & _).
  apply liftO_checked_Val in Hf as [-> Hf].
  apply bindO_Val in H as (h1 & t6 & data & t7 & Hd & H & _).
  apply liftO_checked_Val in Hd as [-> Hd].
  apply bindO_Val in H as (h1 & t8 & tp & t9 & Htp & H & _).
  apply liftO_checked_Val in Htp as [-> Htp].
  apply bindO_Val in H as (h1 & t10 & u' & t11 & Hex & H & _).
  unfold executeNil in Hex.
  destruct (template_ExecuteNil ow tp) as [out [e|]] eqn:Eex; [discriminate|].
  inversion Hex; subst h1. clear Hex.
  rewrite appendOldTemplateTask_spec in H by exact Hrep.
  unfold liftO, ret in H. cbn [fst snd] in H. inversion H; subst.
  exists f, data, tp. rewrite Eex. now repeat split.
Qed.

(** X18: a run of the older text that returns a task list for a
    populated template has rendered the template once, without a client,
    into one new buffer.  The template tasks are command tasks that come
    after the tasks of the upload entries and before those of the script,
    the local and the remote command; there is one per client group of the
    policy without [Once]; all of them have that one buffer as their input,
    the unquoted command line [cat > ] followed by the destination, and no
    terminal.  The buffers that existed before are as they were. *)
Theorem X18_older_template_one_buffer (ow : OldWorld) (sup : Stackup) (cmd : Command)
    (cl : list Client) (env : string) (h h' : gmap nat string)
    (tr : list oldEvent) (tasks : list Task) :
  representable cmd cl -> templatePopulated cmd = true ->
  oldCreateTasks ow sup cmd cl env h = (h', tr, Val tasks) ->
  exists Us S f data tp,
    tasks = concat Us ++ oldTemplateTasks cmd cl (fresh (dom h)) ++ S
            ++ localGroup (owBase ow) sup cmd env ++ runGroup sup cmd cl
    /\ Forall2 (uploadGroup (owBase ow) cmd cl) (cmdUpload cmd) Us
    /\ scriptGroup sup cmd cl S
    /\ os_Open (owBase ow) (tplSrc (cmdTemplate cmd)) = Ok f
    /\ ioutil_ReadAll (owBase ow) f = Ok data
    /\ template_Parse (owBase ow) "tpl" data = Ok tp
    /\ (fresh (dom h) ∉ dom h)
    /\ h' !! fresh (dom h) = Some (fst (template_ExecuteNil ow tp))
    /\ (forall a, a ∈ dom h -> h' !! a = h !! a).
Proof.
  intros Hrep Hp Hrun. unfold oldCreateTasks in Hrun.
  apply bindO_Val in Hrun as (h1 & t1 & cwd & t2 & Hcwd & Hrun & _).
  apply liftO_checked_Val in Hcwd as [-> _].
  apply bindO_Val in Hrun as (h1 & t3 & ts1 & t4 & HU & Hrun & _).
  apply liftO_Val in HU as (-> & HU & _).
  apply bindO_Val in Hrun as (h1 & t5 & ts2 & t6 & HT & Hrun & _).
  apply (oldTemplateSection_Val ow cmd cl ts1 ts2 h h1 t5 Hrep Hp) in HT
    as (f & data & tp & Hf & Hd & Htp & _ & Hh1 & Hts2).
  apply bindO_Val in Hrun as (h2 & t7 & ts3 & t8 & HS & Hrun & _).
  apply liftO_Val in HS as (-> & HS & _).
  apply bindO_Val in Hrun as (h2 & t9 & ts4 & t10 & HL & Hrun & _).
  apply liftO_Val in HL as (-> & HL & _).
  apply bindO_Val in Hrun as (h2 & t11 & ts5 & t12 & HR & Hrun & _).
  apply liftO_Val in HR as (-> & HR & _).
  unfold retO in Hrun. inversion Hrun; subst h' tasks. clear Hrun.
  pose proof (post_uploadLoop (owBase ow) cmd cl env Hrep cwd (cmdUpload cmd) []) as PU.
  rewrite HU in PU. destruct PU as (Us & HUeq & HUs & _).
  pose proof (post_scriptSection (owBase ow) sup cmd cl Hrep ts2) as PS.
  rewrite HS in PS. destruct PS as (S & HSeq & HSg & _).
  pose proof (post_localSection (owBase ow) sup cmd env ts3) as PL.
  rewrite HL in PL. cbn [post] in PL.
  pose proof (post_runSection sup cmd cl Hrep ts4) as PR.
  rewrite HR in PR. destruct PR as [HReq _].
  exists Us, S, f, data, tp.
  split.
  { rewrite HReq, PL, HSeq, Hts2, HUeq. cbn [app]. now rewrite <- !app_assoc. }
  split; [exact HUs|]. split; [exact HSg|]. split; [exact Hf|].
  split; [exact Hd|]. split; [exact Htp|]. split; [apply is_fresh|].
  split.
  - rewrite Hh1. apply lookup_insert_eq.
  - intros a Ha. rewrite Hh1.
    assert (Hne : fresh (dom h) <> a) by (intros <-; exact (is_fresh (dom h) Ha)).
    now rewrite !lookup_insert_ne by exact Hne.
Qed.

(** [Once = true], three clients in batches of two: the upload, the script
    and the remote command go to the first client, the template to both
    batches, both reading buffer 0. *)
Lemma X18_older_template_one_buffer_witness :
  exists h' tr tasks,
    oldCreateTasks Cases.oldWorld Demo.sup (Demo.full "motd.tpl" "" true 2)
      (Demo.hosts 3) "" ∅
    = (h', tr, Val tasks)
    /\ map (fun t => (commandLine t, staticInput t, Clients t)) tasks
       = [(Some "tar -C /srv/app -xzf -",
           Some (TarStream "/home/op" "/home/op/app" ""), [RemoteClient 0]);
          (Some "cat > /etc/motd", Some (BufferPtr 0), [RemoteClient 0; RemoteClient 1]);
          (Some "cat > /etc/motd", Some (BufferPtr 0), [RemoteClient 2]);
          (Some "<deploy.sh>", None, [RemoteClient 0]);
          (Some "echo hi", None, [localhost Demo.world ""]);
          (Some "uptime", None, [RemoteClient 0])]
    /\ h' !! 0%nat = Some "<motd.tpl>@<no value>"
    /\ exists Us S,
         tasks = concat Us
                 ++ oldTemplateTasks (Demo.full "motd.tpl" "" true 2) (Demo.hosts 3) 0
                 ++ S
                 ++ localGroup (owBase Cases.oldWorld) Demo.sup
                      (Demo.full "motd.tpl" "" true 2) ""
                 ++ runGroup Demo.sup (Demo.full "motd.tpl" "" true 2) (Demo.hosts 3).
Proof.
  assert (Hrep : representable (Demo.full "motd.tpl" "" true 2) (Demo.hosts 3))
    by (split; vm_compute; discriminate).
  eexists _, _, _. split; [vm_compute; reflexivity|].
  split; [vm_compute; reflexivity|]. split; [vm_compute; reflexivity|].
  destruct (X18_older_template_one_buffer Cases.oldWorld Demo.sup
              (Demo.full "motd.tpl" "" true 2) (Demo.hosts 3) "" ∅ _ _ _ Hrep eq_refl
              ltac:(vm_compute; reflexivity))
    as (Us & S & f & data & tp & Htasks & _).
  exists Us, S. exact Htasks.
Defined.

(** ** Failures in the older text *)

Lemma oldCallFailed_nil : ~ oldCallFailed [].
Proof. intros (c & e & H & _). contradiction. Qed.

Lemma oldCallFailed_app (t1 t2 : list oldEvent) :
  oldCallFailed (t1 ++ t2) <-> oldCallFailed t1 \/ oldCallFailed t2.
Proof.
  unfold oldCallFailed. split.
  - intros (c & e & Hin & Hc). apply in_app_or in Hin as [Hin|Hin];
      [left | right]; eauto.
  - intros [(c & e & Hin & Hc)|(c & e & Hin & Hc)];
      exists c, e; (split; [apply in_or_app; auto | assumption]).
Qed.

Lemma oldCallFailed_lift (tr : list event) :
  oldCallFailed (map liftEvent tr) <-> callFailed tr.
Proof.
  unfold oldCallFailed, callFailed. split.
  - intros (c & e & Hin & Hc). apply in_map_iff in Hin as ([c' e'] & Heq & Hin).
    unfold liftEvent in Heq. cbn [fst snd] in Heq. inversion Heq; subst.
    now exists c', e.
  - intros (c & e & Hin & Hc). exists (OCall c), e. split; [|exact Hc].
    apply in_map_iff. now exists (c, Some e).
Qed.

Lemma soundO_liftO {A : Type} (m : M A) (h : gmap nat string) :
  sound m -> soundO (liftO m h).
Proof.
  unfold liftO. destruct m as [tr [a|e| |]]; cbn [fst snd sound soundO];
    try (now rewrite oldCallFailed_lift).
  intros (tr' & c & e0 & -> & Hc & -> & Hno).
  exists (map liftEvent tr'), (OCall c), e0.
  rewrite List.map_app. repeat split; [exact Hc|]. now rewrite oldCallFailed_lift.
Qed.

Lemma soundO_bindO {A B : Type} (m : MO A) (f : A -> MO B) (h : gmap nat string) :
  soundO (m h) -> (forall a h1, soundO (f a h1)) -> soundO (bindO m f h).
Proof.
  intros Hm Hf. unfold bindO. destruct (m h) as [[h1 t1] [a|e| |]];
    cbn [soundO] in *; try assumption.
  specialize (Hf a h1). destruct (f a h1) as [[h2 t2] [b|e| |]]; cbn [soundO] in *;
    try (rewrite oldCallFailed_app; tauto).
  destruct Hf as (tr' & c & e0 & -> & Hc & -> & Hno).
  exists (t1 ++ tr'), c, e0. rewrite app_assoc.
  repeat split; try assumption. rewrite oldCallFailed_app. tauto.
Qed.

Lemma soundO_retO {A : Type} (a : A) (h : gmap nat string) : soundO (retO a h).
Proof. exact oldCallFailed_nil. Qed.

Lemma soundO_executeNil (ow : OldWorld) (path : string) (t : Template) (buffer : nat)
    (h : gmap nat string) :
  soundO (executeNil ow path t buffer "can't parse template" h).
Proof.
  unfold executeNil. destruct (template_ExecuteNil ow t) as [out [e|]]; cbn [soundO].
  - exists [], (OExecute path), e. repeat split. exact oldCallFailed_nil.
  - intros (c & e & [H|[]] & _). discriminate.
Qed.

Lemma soundO_oldTemplateSection (ow : OldWorld) (cmd : Command) (cl : list Client)
    (tasks : list Task) (h : gmap nat string) :
  soundO (oldTemplateSection ow cmd cl tasks h).
Proof.
  unfold oldTemplateSection.
  destruct (nonEmpty (tplSrc (cmdTemplate cmd)) && nonEmpty (tplDst (cmdTemplate cmd)));
    [|apply soundO_retO].
  apply soundO_bindO; [exact oldCallFailed_nil | intros buffer h1].
  apply soundO_bindO; [|intros u h2].
  { intros (c & e & [H|[]] & _). discriminate. }
  apply soundO_bindO; [apply soundO_liftO, (sound_checked (COpenTemplate _)); reflexivity
                      | intros f h3].
  apply soundO_bindO; [apply soundO_liftO, (sound_checked (CReadTemplate _)); reflexivity
                      | intros data h4].
  apply soundO_bindO; [apply soundO_liftO, (sound_checked (CParseTemplate _)); reflexivity
                      | intros tp h5].
  apply soundO_bindO; [apply soundO_executeNil | intros u' h6].
  apply soundO_liftO. unfold appendOldTemplateTask.
  destruct (cmdSerial cmd >? 0); [apply sound_serialLoop | apply sound_ret].
Qed.

Lemma soundO_oldCreateTasks (ow : OldWorld) (sup : Stackup) (cmd : Command)
    (cl : list Client) (env : string) (h : gmap nat string) :
  soundO (oldCreateTasks ow sup cmd cl env h).
Proof.
  unfold oldCreateTasks.
  apply soundO_bindO; [apply soundO_liftO, (sound_checked CGetwd); reflexivity
                      | intros cwd h1].
  apply soundO_bindO; [apply soundO_liftO, sound_uploadLoop | intros t1 h2].
  apply soundO_bindO; [apply soundO_oldTemplateSection | intros t2 h3].
  apply soundO_bindO; [apply soundO_liftO, sound_scriptSection | intros t3 h4].
  apply soundO_bindO; [apply soundO_liftO, sound_localSection | intros t4 h5].
  apply soundO_bindO; [apply soundO_liftO, sound_runSection | intros t5 h6].
  apply soundO_retO.
Qed.

(** X19: in the older text too a failed call whose error is tested ends
    the run at once with the nil task list and the error of that call in the
    context of its call site.  There the template is rendered while the
    tasks are built, so a template that parses but does not render aborts
    the construction, under the context ["can't parse template"]. *)
Theorem X19_older_text_all_or_nothing (ow : OldWorld) (sup : Stackup) (cmd : Command)
    (cl : list Client) (env : string) (h : gmap nat string) (c : oldCall) (e0 : error) :
  In (c, Some e0) (snd (fst (oldCreateTasks ow sup cmd cl env h))) ->
  oldIsChecked c = true ->
  go_return (snd (oldCreateTasks ow sup cmd cl env h))
  = Some ([], Some (errors_Wrap e0 (oldWrapMsg c))).
Proof.
  intros Hin Hc.
  pose proof (soundO_oldCreateTasks ow sup cmd cl env h) as Hsound.
  destruct (oldCreateTasks ow sup cmd cl env h) as [[h' tr] r]. cbn [fst snd] in *.
  assert (Hfail : oldCallFailed tr) by (now exists c, e0).
  destruct r as [tasks|e| |]; cbn [soundO] in Hsound; try contradiction.
  destruct Hsound as (tr' & c1 & e1 & -> & _ & -> & Hno).
  apply in_app_or in Hin as [Hin|[Hin|[]]].
  - exfalso. apply Hno. now exists c, e0.
  - now inversion Hin.
Qed.

(** A template that parses but does not render without a client. *)
Lemma X19_older_text_all_or_nothing_witness :
  go_return (snd (oldCreateTasks Cases.oldWorld Demo.sup (Demo.full "bad.tpl" "" false 2)
                    (Demo.hosts 3) "" ∅))
  = Some ([], Some (ErrWrap (ErrNew "template: tpl:1:3: executing tpl: nil data")
                      "can't parse template"))
  /\ In (OCall (CParseTemplate "bad.tpl"), None)
       (snd (fst (oldCreateTasks Cases.oldWorld Demo.sup (Demo.full "bad.tpl" "" false 2)
                    (Demo.hosts 3) "" ∅))).
Proof.
  split; [|vm_compute; tauto].
  apply (X19_older_text_all_or_nothing Cases.oldWorld Demo.sup
           (Demo.full "bad.tpl" "" false 2) (Demo.hosts 3) "" ∅
           (OExecute "bad.tpl") (ErrNew "template: tpl:1:3: executing tpl: nil data")).
  - vm_compute. tauto.
  - reflexivity.
Defined.
